(** * Children's book generator: model and properties

    A shallow embedding of the book generator's workflow core: the pruning
    of story variables in the prompt builder, the illustration prompt
    tables, the Mystic status polling loop, the initial book state, and the
    chapter menu with its generation and acceptance flow; and, around it,
    the image generator with its configuration dialogue, the books
    directory with the main menu, and the prompt editor.

    Part I holds the definitions, one module per source module.  Part II
    holds the properties. *)

From Stdlib Require Import List String Ascii Bool Arith ZArith QArith Lia DecimalString.
Import ListNotations.
Open Scope string_scope.
Open Scope list_scope.
Open Scope nat_scope.

(** ** Part I: definitions *)

(** Decimal rendering of a number inside a template literal. *)
Definition dec (n : nat) : string := NilEmpty.string_of_uint (Nat.to_uint n).

(** What a call that may throw produces. *)
Inductive result (A : Type) : Type :=
| Returned (a : A)
| Raised (message : string).
Arguments Returned {A} a.
Arguments Raised {A} message.

(** *** JavaScript values

    The story variables, and everything [JSON.stringify] is applied to, are
    plain JSON-like trees.  An object carries its own enumerable properties
    in [Object.entries] order.  Numbers are passed along and never computed
    with, so integers stand for them. *)
Module Js.

Unset Elimination Schemes.
Inductive value : Type :=
| VUndefined
| VNull
| VBool (b : bool)
| VNum (n : Z)
| VStr (s : string)
| VArr (items : list value)
| VObj (entries : list (string * value)).
Set Elimination Schemes.

(** Structural induction that reaches the elements of arrays and the
    property values of objects. *)
Fixpoint value_ind (P : value -> Prop)
    (Hundef : P VUndefined) (Hnull : P VNull)
    (Hbool : forall b, P (VBool b)) (Hnum : forall n, P (VNum n))
    (Hstr : forall s, P (VStr s))
    (Harr : forall items, Forall P items -> P (VArr items))
    (Hobj : forall entries, Forall (fun kv => P (snd kv)) entries -> P (VObj entries))
    (v : value) {struct v} : P v :=
  let rec := value_ind P Hundef Hnull Hbool Hnum Hstr Harr Hobj in
  match v with
  | VUndefined => Hundef
  | VNull => Hnull
  | VBool b => Hbool b
  | VNum n => Hnum n
  | VStr s => Hstr s
  | VArr items =>
      Harr items
        ((fix all (l : list value) : Forall P l :=
            match l with
            | [] => Forall_nil P
            | x :: r => Forall_cons x (rec x) (all r)
            end) items)
  | VObj entries =>
      Hobj entries
        ((fix all (l : list (string * value)) : Forall (fun kv => P (snd kv)) l :=
            match l with
            | [] => Forall_nil _
            | kv :: r => Forall_cons kv (rec (snd kv)) (all r)
            end) entries)
  end.

(** [v == null] *)
Definition nullish (v : value) : bool :=
  match v with VUndefined | VNull => true | _ => false end.

(** [!v] *)
Definition falsy (v : value) : bool :=
  match v with
  | VUndefined | VNull => true
  | VBool b => negb b
  | VNum n => (n =? 0)%Z
  | VStr s => (s =? "")%string
  | VArr _ | VObj _ => false
  end.

(** [typeof v === "object"] *)
Definition typeof_object (v : value) : bool :=
  match v with VNull | VArr _ | VObj _ => true | _ => false end.

(** [Array.isArray(v)] *)
Definition isArray (v : value) : bool :=
  match v with VArr _ => true | _ => false end.

(** [Object.keys(v).length] for an array or an object. *)
Definition keys_length (v : value) : nat :=
  match v with
  | VArr items => List.length items
  | VObj entries => List.length entries
  | _ => 0
  end.

(** [o[k] = v] on the own properties: overwrite in place, else append. *)
Fixpoint obj_set (o : list (string * value)) (k : string) (v : value)
  : list (string * value) :=
  match o with
  | [] => [(k, v)]
  | (k', v') :: o' =>
      if (k' =? k)%string then (k', v) :: o' else (k', v') :: obj_set o' k v
  end.

End Js.

(** *** Prompt builder (promptBuilder.js, promptBuilderExtras.js) *)
Module PromptBuilder.
Import Js.

(** The test that guards [acc[key] = cleanValue] in [cleanObject]. *)
Definition keeps (cleanValue : value) : bool :=
  negb (nullish cleanValue)
  && negb (match cleanValue with VStr s => (s =? "")%string | _ => false end)
  && negb (isArray cleanValue && (keys_length cleanValue =? 0))
  && negb (typeof_object cleanValue && (keys_length cleanValue =? 0)).

(** The local function of [personalizeChapterContent].  In the array branch
    [filter] and [map] are one recursion over the items; the object branch
    is the [reduce] over the entries, starting from [{}]. *)
Fixpoint cleanObject (obj : value) : value :=
  if falsy obj || negb (typeof_object obj) then obj
  else
    match obj with
    | VArr items =>
        let cleaned :=
          (fix filter_map (l : list value) : list value :=
             match l with
             | [] => []
             | item :: rest =>
                 if negb (nullish item) then cleanObject item :: filter_map rest
                 else filter_map rest
             end) items in
        if (List.length cleaned =? 0) then VUndefined else VArr cleaned
    | VObj entries =>
        let cleaned :=
          fold_left
            (fun acc '(key, value) =>
               let cleanValue := cleanObject value in
               if keeps cleanValue then obj_set acc key cleanValue else acc)
            entries [] in
        if (List.length cleaned =? 0) then VUndefined else VObj cleaned
    | _ => obj
    end.

(** The values [""], [[]] and [{}]. *)
Definition empty_leaf (v : value) : bool :=
  match v with
  | VStr s => (s =? "")%string
  | VArr [] => true
  | VObj [] => true
  | _ => false
  end.

(** No object inside [v], at any depth, whether below a key or inside an
    array, has a key whose value is [""], [[]] or [{}]. *)
Fixpoint no_empty_keys (v : value) : bool :=
  match v with
  | VArr items => forallb no_empty_keys items
  | VObj entries =>
      forallb (fun kv => negb (empty_leaf (snd kv)) && no_empty_keys (snd kv)) entries
  | _ => true
  end.

(** [storyVariables = {}] in a parameter list. *)
Definition or_empty_object (v : value) : value :=
  match v with VUndefined => VObj [] | _ => v end.

(** The [context] that [personalizeChapterContent] serializes. *)
Definition context (storyVariables : value) : value :=
  cleanObject (or_empty_object storyVariables).

Section Templates.
(** [s.trim()] *)
Variable trim : string -> string.
(** [JSON.stringify(v, null, 2)] inside a template literal. *)
Variable stringify : value -> string.

Definition personalizeChapterContent (content : string) (storyVariables : value)
  : string :=
  trim ("
    Please review and adapt the following text to naturally incorporate relevant details from the provided context.
    Make small modifications where necessary (e.g., adding mentioned siblings or locations), but maintain the core
    narrative and educational content. Only use details where they fit naturally.

    Original Text:
    " ++ content ++ "

    Available Context (use only where appropriate):
    " ++ stringify (context storyVariables) ++ "

    Instructions:
    - Keep the core story and educational content intact
    - Weave in context details naturally where they enhance the story
    - Make minimal changes necessary to incorporate relevant details
    - Maintain the original tone and flow
    - Ensure any added details feel organic to the narrative
  ")%string.

Definition personalizeIntroductionContent (content : string) (storyVariables : value)
  : string :=
  trim ("
    Please review and adapt the following introduction to naturally incorporate relevant details from the provided context.
    Make small modifications where necessary (e.g., adding location, family details), but maintain the core
    message and welcoming tone. Only use details where they fit naturally.

    Original Text:
    " ++ content ++ "

    Available Context (use only where appropriate):
    " ++ stringify (or_empty_object storyVariables) ++ "

    Instructions:
    - Keep the core welcome message and educational overview intact
    - Weave in context details naturally where they enhance the introduction
    - Make minimal changes necessary to incorporate relevant details
    - Maintain the original tone and flow
    - Ensure any added details feel organic to the narrative
  ")%string.
End Templates.

End PromptBuilder.

(** *** Illustration styles (config/imageStyles.js) *)
Module ImageStyles.

Record Style : Type := { name : string; prompt : string }.
Record Preset : Type :=
  { preset_name : string; description : string; promptAddon : string }.

Definition DEFAULT_IMAGE_STYLE_PROMPT : list Style :=
  [ {| name := "storybook";
       prompt := "Classic children's book illustration, consistent style: gentle soft lines, bright and cheerful color palette, highly expressive and endearing characters, clear and simple backgrounds focusing attention on action. Whimsical and charming feel. Inspired by modern picture books like those by Oliver Jeffers or Beatrice Alemagna. No text." |};
    {| name := "ghibli";
       prompt := "Studio Ghibli-inspired anime style: lush, detailed natural backgrounds with painterly textures, soft cinematic lighting casting gentle glows, characters with large expressive eyes conveying deep emotion, a sense of wonder and magical atmosphere. Nostalgic and heartwarming feel. No text." |};
    {| name := "clay";
       prompt := "Claymation stop-motion style: characters and objects appear handcrafted from modeling clay, slight imperfections like fingerprints adding realism, soft volumetric textures, vibrant colors, often simple but tactile backgrounds. Playful, friendly, and tangible feel. No text." |};
    {| name := "pixelart";
       prompt := "Retro 8-bit pixel art style: chunky blocky design, limited but vibrant color palette, clear outlines, nostalgic feel reminiscent of classic video games. Ideal for simple scenes and characters. Cheerful and playful aesthetic. No text." |};
    {| name := "watercolor";
       prompt := "Soft watercolor illustration style: visible light brushstrokes, beautifully blended transparent colors creating soft gradients, fluid delicate edges, sometimes with fine ink outlines for definition. Evokes warmth, nostalgia, and gentle emotions. Dreamy and ethereal quality. No text." |};
    {| name := "flat-vector";
       prompt := "Modern flat vector illustration: clean geometric shapes, bold solid lines, bright and contemporary limited color palette, minimal gradients or textures. Friendly, stylized characters. Excellent for clear communication, educational content, or graphic narratives. No text." |};
    {| name := "cutout";
       prompt := "Paper cut-out collage style: distinct layered shapes suggesting different paper or fabric textures, visible paper edges, subtle drop shadows creating depth. Handcrafted, tactile feel. Vibrant, often bold color choices. Inspired by artists like Eric Carle or Lois Ehlert. No text." |};
    {| name := "chalkboard";
       prompt := "Chalkboard drawing aesthetic: illustration appears drawn with white or colored chalk on a textured dark chalkboard background. Playful, slightly smudged lines for realism, simple charming character designs. Evokes a schoolroom or cozy cafe menu feel. Whimsical and educational vibe. No text." |};
    {| name := "colored-pencil";
       prompt := "Colored pencil drawing style: visible waxy pencil texture, soft layered colors with gentle blending, subtle cross-hatching for shading, often with fine outlines. Warm, cozy, and slightly textured feel. Ideal for realistic yet gentle animal or character illustrations. No text." |};
    {| name := "ink-and-wash";
       prompt := "Ink and wash illustration: expressive, dynamic black ink outlines defining characters and key elements, filled with loose, fluid washes of diluted ink or watercolor. High energy, slightly messy, spontaneous feel. Inspired by Quentin Blake or E.H. Shepard. No text." |};
    {| name := "gouache-poster";
       prompt := "Retro gouache illustration style: opaque, flat blocks of rich color, bold simplified shapes, minimal texture, often a mid-century modern aesthetic. Vibrant, graphic, and highly stylized. Inspired by artists like Mary Blair. No text." |};
    {| name := "vintage-storybook";
       prompt := "Vintage children's book illustration style (circa 1950s-1960s): slightly desaturated or specific retro color palette (e.g., mustard yellow, teal, muted red), charmingly simple character designs with rosy cheeks, perhaps a subtle paper grain texture. Nostalgic, sweet, and innocent feel. No text." |};
    {| name := "whimsical-doodle";
       prompt := "Whimsical doodle art style: playful and quirky characters with potentially exaggerated features or unusual proportions, loose energetic linework like pen doodles, bright optimistic colors, imaginative and unexpected compositions. Fun, lighthearted, and spontaneous energy. No text." |};
    {| name := "linocut-print";
       prompt := "Child-friendly linocut print style: bold graphic shapes defined by carved lines, visible wood grain or carving textures, limited but strong color palette often using overlays, slightly rustic and handcrafted feel. Strong visual impact, good for folk tales. No text." |};
    {| name := "mixed-media";
       prompt := "Mixed media illustration style: combines elements like drawing, painting (watercolor/gouache), real-world textures (scanned paper, fabric), and digital collage. Layered, textured, and visually rich. Creates a unique, eclectic, and often surprising look. No text." |};
    {| name := "fuzzy-felt";
       prompt := "Fuzzy felt board style: simplified shapes resembling felt pieces layered on a plain background, soft fuzzy texture on shapes, bright primary colors, minimal detail. Tactile, playful, and reminiscent of childhood toys. Ideal for very young children. No text." |};
    {| name := "photo";
       prompt := "High-resolution photo style: realistic lighting, true-to-life colors, natural shadows and depth of field. Scene looks like it was captured with a professional DSLR camera. Detailed textures and accurate proportions. No text." |};
    {| name := "digital-art";
       prompt := "Polished digital illustration style: smooth gradients, sharp details, vibrant color palettes, often with fantasy or sci-fi elements. Clean lines and modern rendering. Ideal for expressive and stylized characters. No text." |};
    {| name := "3d";
       prompt := "Realistic 3D rendering style: lifelike lighting and shading, accurate materials and reflections, strong sense of depth and form. High-poly models with cinematic detail. No text." |};
    {| name := "painting";
       prompt := "Traditional painting style: visible brush strokes, rich textured surfaces, organic blending of colors. Inspired by oil or acrylic canvas techniques. Evokes an artistic, gallery-like atmosphere. No text." |};
    {| name := "low-poly";
       prompt := "Low-poly 3D art style: simplified geometric forms, flat shading, bold color blocks, and clean triangular meshes. Stylized minimalism with retro-futuristic or game-like vibe. No text." |};
    {| name := "pixel-art";
       prompt := "Retro pixel art style: 8-bit or 16-bit game aesthetic with blocky characters and limited color palette. Crisp edges, nostalgic atmosphere, and charming simplicity. No text." |};
    {| name := "anime";
       prompt := "Anime illustration style: 2D hand-drawn characters with large expressive eyes, clean linework, cel shading, and dramatic lighting. Backgrounds can be painterly or graphic. Inspired by modern Japanese animation. No text." |};
    {| name := "cyberpunk";
       prompt := "Cyberpunk aesthetic: neon lighting, futuristic cityscapes, gritty tech environments, dark atmospheric tones. Often features rain, reflections, glowing signage, and dystopian vibes. No text." |};
    {| name := "comic";
       prompt := "Comic book style: bold outlines, dynamic poses, dramatic shading, and halftone textures. Panel-like composition and vivid color schemes. Inspired by classic superhero comics. No text." |};
    {| name := "vintage";
       prompt := "Vintage illustration style: aged paper texture, retro color palettes (muted reds, teals, ochres), mid-20th-century design aesthetics. Evokes nostalgia and classic printed media. No text." |};
    {| name := "cartoon";
       prompt := "Cartoon style: exaggerated facial expressions, simplified shapes, bold lines, and playful, vibrant colors. Ideal for humorous and child-friendly characters. No text." |};
    {| name := "vector";
       prompt := "Flat vector art style: clean geometric shapes, high contrast color blocks, minimalistic design with crisp lines and clear silhouettes. Great for infographics or modern illustrations. No text." |};
    {| name := "studio-shot";
       prompt := "Professional studio photograph style: clean background, well-lit subject, soft shadows, high contrast and crisp details. Perfect for product photography or portraiture. No text." |};
    {| name := "dark";
       prompt := "Dark aesthetic: moody lighting, high contrast shadows, deep blacks and muted colors. Evokes drama, mystery, or introspection. Could include gothic or noir elements. No text." |};
    {| name := "sketch";
       prompt := "Pencil or ink sketch style: rough lines, cross-hatching, visible hand-drawn construction. Often monochrome or lightly tinted. Spontaneous and expressive feel. No text." |};
    {| name := "mockup";
       prompt := "Clean product mockup style: minimal background, perfect lighting, photorealistic rendering of objects (often floating or centered), ideal for design presentations. No text." |};
    {| name := "2000s-pone";
       prompt := "Early 2000s mobile UI style: glossy buttons, fake 3D shadows, bright gradients, and skeuomorphic icons. Looks like an old Nokia or Sony Ericsson phone screen. Retro tech aesthetic. No text." |};
    {| name := "70s-vibe";
       prompt := "1970s-inspired illustration style: warm earthy tones (orange, brown, yellow), groovy patterns, vintage typography aesthetics, and nostalgic retro fashion. Evokes disco, hippie, and boho vibes. No text." |};
    {| name := "watercolor";
       prompt := "Soft watercolor illustration style: visible light brushstrokes, beautifully blended transparent colors creating soft gradients, fluid delicate edges, sometimes with fine ink outlines for definition. Evokes warmth, nostalgia, and gentle emotions. Dreamy and ethereal quality. No text." |};
    {| name := "art-nouveau";
       prompt := "Art Nouveau style: decorative flowing lines, floral patterns, pastel colors, and organic forms. Inspired by early 20th century artists like Alphonse Mucha. Elegant, ornate, and stylized. No text." |};
    {| name := "origami";
       prompt := "Origami paper art style: folded paper textures, visible creases and geometric shapes, minimalist color palette. Often animal or nature subjects rendered in clean, precise form. No text." |};
    {| name := "surreal";
       prompt := "Surreal art style: dreamlike and bizarre compositions, unexpected juxtapositions, often inspired by Salvador Dalí. Blurred reality, fantastical elements, strange logic. No text." |};
    {| name := "fantasy";
       prompt := "High fantasy illustration style: magical creatures, enchanted forests, glowing lights, epic settings. Inspired by classic fantasy books and RPGs. Rich detail and mythical atmosphere. No text." |};
    {| name := "traditional-japan";
       prompt := "Traditional Japanese art style: inspired by ukiyo-e woodblock prints with flat color layers, graceful linework, nature elements like sakura and waves, elegant compositions. No text." |} ].

Definition IMAGE_STYLE_PRESETS : list (string * Preset) :=
  [ ("emotionalCloseUp",
     {| preset_name := "Emotional Close-Up";
        description := "Focus on facial expressions and emotions of a single character. Minimal background.";
        promptAddon := "Close-up on a character's face showing clear emotion, simple background." |});
    ("characterIntroduction",
     {| preset_name := "Character Introduction";
        description := "Full-body or mid-shot of a character in their environment, showing personality or key traits.";
        promptAddon := "A character standing in their personal space or favorite spot, showing personality." |});
    ("groupInteraction",
     {| preset_name := "Group Interaction";
        description := "Multiple characters interacting — playing, talking, collaborating.";
        promptAddon := "Group of characters talking, playing or collaborating in a friendly setting." |});
    ("parentChildMoment",
     {| preset_name := "Parent-Child Moment";
        description := "Tender moment between a child and an adult, often in a warm or safe setting.";
        promptAddon := "A child with a parent or caregiver sharing a warm moment, cozy setting." |});
    ("wideEstablishingShot",
     {| preset_name := "Wide Establishing Shot";
        description := "Scene-wide view to introduce a new setting or location.";
        promptAddon := "A wide view of a school, park, or town to establish the scene." |});
    ("birdEyeTown",
     {| preset_name := "Bird's-Eye Town View";
        description := "Overhead view of a neighborhood or town with activity and charm.";
        promptAddon := "Bird's-eye view of a friendly town with houses, parks, and people." |});
    ("insideView",
     {| preset_name := "Inside View";
        description := "Interior space like a room or shop, cozy and with personal details.";
        promptAddon := "Interior of a room or small store, with furniture and objects arranged naturally." |});
    ("silentSequence",
     {| preset_name := "Silent Sequence";
        description := "Action or mood moment with no text, focused on expression or gesture.";
        promptAddon := "A quiet moment showing only movement or feelings without speech." |});
    ("dynamicAction",
     {| preset_name := "Dynamic Action";
        description := "Characters in expressive, energetic poses — running, jumping, reacting.";
        promptAddon := "Characters mid-action with expressive poses and movement lines." |});
    ("followThrough",
     {| preset_name := "Follow Through";
        description := "Second beat of an action — like falling, landing, reacting. Great for humor or drama.";
        promptAddon := "Character reacting after a surprise or mistake, showing motion and emotion." |});
    ("beforeAfter",
     {| preset_name := "Before & After";
        description := "Two contrasting panels or a transformation scene.";
        promptAddon := "Illustration showing a change — before and after a decision, mistake, or learning." |});
    ("diagramConcept",
     {| preset_name := "Diagram Concept";
        description := "Simple, educational infographic or schematic visual.";
        promptAddon := "Simple infographic showing how something works using arrows and labels." |});
    ("splitFrameStory",
     {| preset_name := "Split Frame Story";
        description := "Comic-style sequence split into panels showing progression.";
        promptAddon := "A panel sequence telling a mini story or showing a step-by-step process." |});
    ("comparisonScene",
     {| preset_name := "Comparison Scene";
        description := "Visual comparison of two options or outcomes side-by-side.";
        promptAddon := "Two-part illustration comparing different choices or paths." |});
    ("metaphorVisual",
     {| preset_name := "Metaphor Visual";
        description := "Symbolic representation of an abstract idea.";
        promptAddon := "A metaphorical visual, such as money growing like a plant or effort shown as a mountain." |});
    ("magicalTouch",
     {| preset_name := "Magical Touch";
        description := "Sparkles, glows, or whimsical elements to give fantasy feeling.";
        promptAddon := "Add glowing sparkles or floating elements to give a sense of magic." |});
    ("nightScene",
     {| preset_name := "Night Scene";
        description := "Dark palette with light sources like lamps or moon. Calming or thoughtful.";
        promptAddon := "A nighttime setting with cool tones, stars or soft lighting." |});
    ("celebrationScene",
     {| preset_name := "Celebration Scene";
        description := "Joyful event with decorations, smiles, and energy.";
        promptAddon := "Characters celebrating with balloons, cake, music, or fireworks." |});
    ("transitionShot",
     {| preset_name := "Transition Shot";
        description := "Scene of movement or time passing — walking paths, trains, sun setting.";
        promptAddon := "Illustration showing the passage of time or travel, like sunset or journey in progress." |}) ].

(** [a || b] on strings: the empty string is the only falsy one. *)
Definition or_else (a b : string) : string :=
  if (a =? "")%string then b else a.

Section Tables.
Variable styles : list Style.
Variable presets : list (string * Preset).

(** [presets[key]]: the own property [key], if any.  A name found only on
    the prototype chain yields a value without [promptAddon], which
    [?.promptAddon || ""] turns into the empty string as well. *)
Definition lookup_preset (key : string) : option Preset :=
  option_map snd (find (fun kv => (fst kv =? key)%string) presets).

(** [getIllustrationPrompt] over given tables.  An argument that is [None]
    is [undefined]; [found] is empty when [find(...)?.prompt] is
    undefined. *)
Definition illustrationPrompt (description style preset : option string)
  : result string :=
  let style := match style with Some s => s | None => "storybook" end in
  let preset := match preset with Some p => p | None => "emotionalCloseUp" end in
  let description := match description with Some d => d | None => "" end in
  if (description =? "")%string then
    Raised "Description is required for illustration prompt"
  else
    let found :=
      match find (fun s => (name s =? style)%string) styles with
      | Some s => prompt s
      | None => ""
      end in
    let presetAddon :=
      match lookup_preset preset with
      | Some p => or_else (promptAddon p) ""
      | None => ""
      end in
    if (found =? "")%string then
      match styles with
      | first :: _ =>
          Returned (prompt first ++ " " ++ presetAddon ++ " Scene: " ++ description)%string
      | [] => Raised "Cannot read properties of undefined (reading 'prompt')"
      end
    else Returned (found ++ " " ++ presetAddon ++ " Scene: " ++ description)%string.
End Tables.

Definition getIllustrationPrompt : option string -> option string -> option string -> result string :=
  illustrationPrompt DEFAULT_IMAGE_STYLE_PROMPT IMAGE_STYLE_PRESETS.

End ImageStyles.

(** *** Mystic status polling (imageGenerator.js) *)
Module Mystic.

(** What one [axios.get] on the task's status URL answers: the request
    rejects, or it resolves with [{data: {status, generated}}]. *)
Inductive reply : Type :=
| Rejected (message : string)
| Resolved (status : string) (generated : option (list string)).

(** The outcome together with the number of status requests issued. *)
Record run : Type := { outcome : result string; polls : nat }.

Section Polling.
(** [JSON.stringify(response.data)] *)
Variable stringify : reply -> string.
(** The status endpoint: the reply to the request issued after [k] earlier ones. *)
Variable endpoint : nat -> reply.

(** [response.data.data.generated?.length > 0] *)
Definition has_generated (generated : option (list string)) : bool :=
  match generated with
  | Some g => 0 <? List.length g
  | None => false
  end.

(** One pass through the body of the loop: [inl] ends the function,
    [inr tt] falls through to the next iteration. *)
Definition attempt_body (r : reply) : result string + unit :=
  match r with
  | Rejected message =>
      inl (Raised ("Error checking task status: " ++ message))
  | Resolved status generated =>
      if (status =? "COMPLETED")%string && has_generated generated then
        inl (Returned (nth 0 (match generated with Some g => g | None => [] end) ""))
      else if (status =? "FAILED")%string then
        inl (Raised ("Error checking task status: "
                     ++ ("Task failed: " ++ stringify r)))
      else inr tt
  end.

(** [for (attempt = 0; attempt < maxAttempts; attempt++)], by recursion on
    the number of iterations left.  The wait of [interval] milliseconds
    at the end of a pass has no effect on the outcome and is left out. *)
Fixpoint poll_from (maxAttempts left attempt : nat) : run :=
  match left with
  | 0 => {| outcome := Raised ("Timeout after " ++ dec maxAttempts ++ " attempts");
            polls := attempt |}
  | S left' =>
      match attempt_body (endpoint attempt) with
      | inl res => {| outcome := res; polls := S attempt |}
      | inr tt => poll_from maxAttempts left' (S attempt)
      end
  end.

Definition checkMysticTaskStatus (maxAttempts : nat) : run :=
  poll_from maxAttempts maxAttempts 0.
End Polling.

End Mystic.

(** *** Book state (cli/utils/bookState.js) *)
Module BookState.

Inductive Status : Type := not_generated | generated | wip | accepted.

Definition status_eqb (a b : Status) : bool :=
  match a, b with
  | not_generated, not_generated | generated, generated
  | wip, wip | accepted, accepted => true
  | _, _ => false
  end.

(** A chapter's image.  The initial object has [status], [prompt] and
    [url]; the one written after a generation has the other fields. *)
Record Image : Type := {
  image_status : Status;
  image_prompt : option string;
  url : option string;
  tempPath : option string;
  attempts : option nat;
  style : option string;
  preset : option string;
  timestamp : option string;
  localPath : option string
}.

Record LessonContext : Type := { example : string; summary : string }.

Record ChatConfig : Type := { chatModel : string; temperature : Q }.

Record GenerationConfig : Type := {
  initialPrompt : string;
  personalizationPrompt : string;
  model : string;
  generation_temperature : Q;
  generation_timestamp : string
}.

Record Chapter : Type := {
  id : string;
  topic : string;
  status : Status;
  text : option string;
  lessonContext : option LessonContext;
  image : option Image;
  generationConfig : option GenerationConfig
}.

Record BookState : Type := {
  title : string;
  createdAt : string;
  openAIConfig : option ChatConfig;
  chatConfig : option ChatConfig;
  imageConfig : Js.value;
  storyVariables : Js.value;
  chapters : list Chapter;
  currentContext : string
}.

(** The static lesson table (config/chapters.js). *)
Record Topic : Type := {
  key : string;
  topic_title : string;
  topic_example : string;
  topic_summary : string
}.

Record Lesson : Type := {
  lesson_id : string;
  lesson_title : string;
  lesson_description : string;
  order : nat;
  topics : list Topic
}.

(** [chapters.push(c)] *)
Definition push {A : Type} (chapters : list A) (c : A) : list A := chapters ++ [c].

Definition initial_image : Image :=
  {| image_status := not_generated; image_prompt := None; url := None;
     tempPath := None; attempts := None; style := None; preset := None;
     timestamp := None; localPath := None |}.

Section Lessons.
Variable BOOK_CONTENT : list Lesson.

Definition initializeChaptersFromLessons : list Chapter :=
  let chapters := [] in
  let chapters :=
    push chapters
      {| id := "introduction"; topic := "Introduction"; status := not_generated;
         text := None; lessonContext := None; image := Some initial_image;
         generationConfig := None |} in
  let chapters :=
    fold_left
      (fun chapters lesson =>
         fold_left
           (fun chapters topic =>
              push chapters
                {| id := (lesson_id lesson ++ "_" ++ key topic)%string;
                   topic := topic_title topic;
                   status := not_generated;
                   lessonContext :=
                     Some {| example := topic_example topic;
                             summary := topic_summary topic |};
                   text := None;
                   image := Some initial_image;
                   generationConfig := None |})
           (topics lesson) chapters)
      BOOK_CONTENT chapters in
  push chapters
    {| id := "conclusion"; topic := "Conclusion"; status := not_generated;
       text := None; lessonContext := None; image := Some initial_image;
       generationConfig := None |}.

(** [now] is what [new Date().toISOString()] reads at the call. *)
Definition initializeBookState (title now : string) : BookState :=
  {| title := title;
     createdAt := now;
     openAIConfig := None;
     chatConfig := None;
     imageConfig := Js.VUndefined;
     storyVariables :=
       Js.VObj
         [ ("characters",
            Js.VObj
              [ ("protagonistName", Js.VStr "");
                ("protagonistAge", Js.VStr "");
                ("protagonistGender", Js.VStr "");
                ("friendsNames", Js.VArr []);
                ("siblingsNamesAges", Js.VArr []);
                ("petName", Js.VStr "");
                ("petType", Js.VStr "") ]);
           ("places",
            Js.VObj [ ("cityName", Js.VStr ""); ("schoolName", Js.VStr "") ]);
           ("familyAndEmotions", Js.VObj [ ("parentsNames", Js.VArr []) ]) ];
     chapters := initializeChaptersFromLessons;
     currentContext := "" |}.
End Lessons.

End BookState.

(** *** The chapter workflow
    (cli/commands/manageBook.js, cli/commands/generateChapter.js,
    generatorChapter.js)

    The commands run against a world: the book state object in memory, the
    files of the book directory, and the answers that the user and the
    remote services are going to give.  Console output is not modelled. *)
Module Cli.
Import Js BookState.

(** **** Answers *)

Inductive ChapterAction : Type :=
| generate_action | review_action | mark_wip | mark_accepted | back.

(** What [reviewPrompt] gets from the user; [modify_prompt] carries the
    text that [editPrompt] returned. *)
Inductive PromptReview : Type :=
| use_prompt | modify_prompt (edited : string) | cancel_prompt.

(** What a chat completion request does. *)
Inductive ChatReply : Type :=
| chat_failed (message : string)
| chat_content (content : string).

Inductive ContentAction : Type :=
| accept_content | regenerate_content | modify_content | wip_content.

(** What the request of [selectSceneForImage] leads to: an error, or the
    first and last non-blank lines of the reply. *)
Inductive SceneReply : Type :=
| scene_failed (message : string)
| scene_selected (scene summary : option string).

Inductive SceneAction : Type := use_scene | skip_scene.

Inductive ImagePromptReview : Type :=
| use_image_prompt | modify_image_prompt (edited : string) | skip_image_generation.

(** What [generateImage] does: it throws, or it saves the image it
    downloaded, [data], and returns the path it was given. *)
Inductive ImageReply : Type :=
| image_failed (message : string)
| image_saved (data : string).

Inductive ImageAction : Type :=
| accept_image | regenerate_image | modify_image | skip_image.

Inductive BookAction : Type :=
| next_chapter | select_chapter | view_status | modify_variables
| update_config | exit_menu.

(** The answers still to come, one queue per question.  A selection in a
    list prompt is the number of times the cursor is moved down from the
    first selectable entry; the cursor wraps around. *)
Record ChapterAnswers : Type := {
  chapter_menu : list nat;
  prompt_reviews : list PromptReview;
  chat_replies : list ChatReply;
  content_reviews : list ContentAction
}.

Record ImageAnswers : Type := {
  style_picks : list nat;
  preset_picks : list nat;
  scene_replies : list SceneReply;
  scene_actions : list SceneAction;
  image_prompt_reviews : list ImagePromptReview;
  image_replies : list ImageReply;
  image_actions : list ImageAction
}.

Record BookAnswers : Type := {
  book_menu : list BookAction;
  chapter_picks : list nat;
  story_answers : list value;
  config_answers : list ChatConfig
}.

(** **** The world *)

(** [image_files] are the image files there are, each path with what the
    file holds, in the order in which the paths were first written. *)
Record Disk : Type := {
  book_state_json : option BookState;
  content_md : string;
  image_files : list (string * string)
}.

Inductive LogEntry : Type :=
| LogRequest (service prompt : string)
| LogResponse (service content : string)
| LogError (service message : string).

(** One assignment to [chapter.status]: the chapter, the status it had and
    the status it gets. *)
Record StatusWrite : Type := {
  written_chapter : nat;
  status_before : Status;
  status_after : Status
}.

Record World : Type := {
  memory : BookState;
  disk : Disk;
  chapter_answers : ChapterAnswers;
  image_answers : ImageAnswers;
  book_answers : BookAnswers;
  clock : nat;
  status_writes : list StatusWrite;
  openai_log : list LogEntry
}.

Definition with_memory (m : BookState) (w : World) : World :=
  {| memory := m; disk := disk w; chapter_answers := chapter_answers w;
     image_answers := image_answers w; book_answers := book_answers w;
     clock := clock w; status_writes := status_writes w;
     openai_log := openai_log w |}.

Definition with_disk (d : Disk) (w : World) : World :=
  {| memory := memory w; disk := d; chapter_answers := chapter_answers w;
     image_answers := image_answers w; book_answers := book_answers w;
     clock := clock w; status_writes := status_writes w;
     openai_log := openai_log w |}.

Definition with_chapter_answers (a : ChapterAnswers) (w : World) : World :=
  {| memory := memory w; disk := disk w; chapter_answers := a;
     image_answers := image_answers w; book_answers := book_answers w;
     clock := clock w; status_writes := status_writes w;
     openai_log := openai_log w |}.

Definition with_image_answers (a : ImageAnswers) (w : World) : World :=
  {| memory := memory w; disk := disk w; chapter_answers := chapter_answers w;
     image_answers := a; book_answers := book_answers w;
     clock := clock w; status_writes := status_writes w;
     openai_log := openai_log w |}.

Definition with_book_answers (a : BookAnswers) (w : World) : World :=
  {| memory := memory w; disk := disk w; chapter_answers := chapter_answers w;
     image_answers := image_answers w; book_answers := a;
     clock := clock w; status_writes := status_writes w;
     openai_log := openai_log w |}.

Definition with_clock (c : nat) (w : World) : World :=
  {| memory := memory w; disk := disk w; chapter_answers := chapter_answers w;
     image_answers := image_answers w; book_answers := book_answers w;
     clock := c; status_writes := status_writes w;
     openai_log := openai_log w |}.

Definition with_status_writes (l : list StatusWrite) (w : World) : World :=
  {| memory := memory w; disk := disk w; chapter_answers := chapter_answers w;
     image_answers := image_answers w; book_answers := book_answers w;
     clock := clock w; status_writes := l;
     openai_log := openai_log w |}.

Definition with_openai_log (l : list LogEntry) (w : World) : World :=
  {| memory := memory w; disk := disk w; chapter_answers := chapter_answers w;
     image_answers := image_answers w; book_answers := book_answers w;
     clock := clock w; status_writes := status_writes w;
     openai_log := l |}.

(** **** Commands

    A command returns, throws, or stops at a question that is never
    answered (the session ends there). *)
Inductive Res (A : Type) : Type :=
| Ret (a : A)
| Throw (message : string)
| Halt.
Arguments Ret {A} a.
Arguments Throw {A} message.
Arguments Halt {A}.

Definition M (A : Type) : Type := World -> Res A * World.

Definition ret {A : Type} (a : A) : M A := fun w => (Ret a, w).
Definition throw {A : Type} (message : string) : M A := fun w => (Throw message, w).
Definition halt {A : Type} : M A := fun w => (Halt, w).

Definition bind {A B : Type} (m : M A) (k : A -> M B) : M B :=
  fun w =>
    match m w with
    | (Ret a, w') => k a w'
    | (Throw message, w') => (Throw message, w')
    | (Halt, w') => (Halt, w')
    end.

(** [try { m } catch (error) { handler(error.message) }] *)
Definition try_catch {A : Type} (m : M A) (handler : string -> M A) : M A :=
  fun w =>
    match m w with
    | (Throw message, w') => handler message w'
    | other => other
    end.

Definition lift {A : Type} (r : result A) : M A :=
  match r with
  | Returned a => ret a
  | Raised message => throw message
  end.

Declare Scope cmd_scope.
Delimit Scope cmd_scope with cmd.
Notation "x <- m ;; k" := (bind m (fun x => k))
  (at level 61, m at next level, right associativity) : cmd_scope.
Notation "m ;; k" := (bind m (fun _ => k))
  (at level 61, right associativity) : cmd_scope.
Open Scope cmd_scope.

(** **** State access *)

Definition get_memory : M BookState := fun w => (Ret (memory w), w).

Definition put_memory (m : BookState) : M unit := fun w => (Ret tt, with_memory m w).

Definition with_chapters (l : list Chapter) (b : BookState) : BookState :=
  {| title := title b; createdAt := createdAt b; openAIConfig := openAIConfig b;
     chatConfig := chatConfig b; imageConfig := imageConfig b;
     storyVariables := storyVariables b; chapters := l;
     currentContext := currentContext b |}.

Definition with_storyVariables (v : value) (b : BookState) : BookState :=
  {| title := title b; createdAt := createdAt b; openAIConfig := openAIConfig b;
     chatConfig := chatConfig b; imageConfig := imageConfig b;
     storyVariables := v; chapters := chapters b;
     currentContext := currentContext b |}.

Definition with_openAIConfig (c : ChatConfig) (b : BookState) : BookState :=
  {| title := title b; createdAt := createdAt b; openAIConfig := Some c;
     chatConfig := chatConfig b; imageConfig := imageConfig b;
     storyVariables := storyVariables b; chapters := chapters b;
     currentContext := currentContext b |}.

Definition with_status (s : Status) (c : Chapter) : Chapter :=
  {| id := id c; topic := topic c; status := s; text := text c;
     lessonContext := lessonContext c; image := image c;
     generationConfig := generationConfig c |}.

Definition with_text (t : string) (c : Chapter) : Chapter :=
  {| id := id c; topic := topic c; status := status c; text := Some t;
     lessonContext := lessonContext c; image := image c;
     generationConfig := generationConfig c |}.

Definition with_generationConfig (g : GenerationConfig) (c : Chapter) : Chapter :=
  {| id := id c; topic := topic c; status := status c; text := text c;
     lessonContext := lessonContext c; image := image c;
     generationConfig := Some g |}.

Definition with_image (i : Image) (c : Chapter) : Chapter :=
  {| id := id c; topic := topic c; status := status c; text := text c;
     lessonContext := lessonContext c; image := Some i;
     generationConfig := generationConfig c |}.

Definition with_image_status (s : Status) (i : Image) : Image :=
  {| image_status := s; image_prompt := image_prompt i; url := url i;
     tempPath := tempPath i; attempts := attempts i; style := style i;
     preset := preset i; timestamp := timestamp i; localPath := localPath i |}.

Definition with_localPath (p : string) (i : Image) : Image :=
  {| image_status := image_status i; image_prompt := image_prompt i; url := url i;
     tempPath := tempPath i; attempts := attempts i; style := style i;
     preset := preset i; timestamp := timestamp i; localPath := Some p |}.

(** Replace the element at [ix]; nothing happens out of range. *)
Fixpoint replace_at {A : Type} (ix : nat) (a : A) (l : list A) : list A :=
  match l, ix with
  | [], _ => []
  | _ :: r, 0 => a :: r
  | x :: r, S ix' => x :: replace_at ix' a r
  end.

Definition undefined_chapter : string :=
  "Cannot read properties of undefined".

(** The chapter object that a command holds is the element [ix] of
    [bookState.chapters]; reading a property of a missing one throws. *)
Definition get_chapter (ix : nat) : M Chapter :=
  fun w =>
    match nth_error (chapters (memory w)) ix with
    | Some c => (Ret c, w)
    | None => (Throw undefined_chapter, w)
    end.

(** An assignment to a property of the chapter object. *)
Definition update_chapter (ix : nat) (f : Chapter -> Chapter) : M unit :=
  (c <- get_chapter ix ;;
   b <- get_memory ;;
   put_memory (with_chapters (replace_at ix (f c) (chapters b)) b)).

Definition record_status_write (ix : nat) (before after : Status) : M unit :=
  fun w =>
    (Ret tt,
     with_status_writes
       (status_writes w
        ++ [{| written_chapter := ix; status_before := before; status_after := after |}])
       w).

(** [chapter.status = s] *)
Definition set_status (ix : nat) (s : Status) : M unit :=
  (c <- get_chapter ix ;;
   update_chapter ix (with_status s) ;;
   record_status_write ix (status c) s).

(** [new Date()]: time passes between two readings. *)
Definition now : M nat :=
  fun w => (Ret (clock w), with_clock (S (clock w)) w).

(** [date.toISOString()], with the reading itself as the text. *)
Definition iso (t : nat) : string := dec t.

(** [saveBookState(bookPath, bookState)] *)
Definition saveBookState : M unit :=
  fun w =>
    (Ret tt,
     with_disk
       {| book_state_json := Some (memory w);
          content_md := content_md (disk w);
          image_files := image_files (disk w) |} w).

(** [loadBookState(bookPath)] *)
Definition loadBookState : M BookState :=
  fun w =>
    match book_state_json (disk w) with
    | Some b => (Ret b, w)
    | None => (Throw "Failed to load book state", w)
    end.

(** [fs.appendFile(contentPath, s)] *)
Definition append_content (s : string) : M unit :=
  fun w =>
    (Ret tt,
     with_disk
       {| book_state_json := book_state_json (disk w);
          content_md := (content_md (disk w) ++ s)%string;
          image_files := image_files (disk w) |} w).

(** A file is created, or what the file at [path] held is replaced. *)
Fixpoint put_file (path data : string) (files : list (string * string))
  : list (string * string) :=
  match files with
  | [] => [(path, data)]
  | (p, d) :: rest =>
      if (p =? path)%string then (path, data) :: rest
      else (p, d) :: put_file path data rest
  end.

Definition read_file (path : string) (files : list (string * string))
  : option string :=
  option_map snd (find (fun f => (fst f =? path)%string) files).

(** [fs.writeFile(path, data)] *)
Definition write_image_file (path data : string) : M unit :=
  fun w =>
    (Ret tt,
     with_disk
       {| book_state_json := book_state_json (disk w);
          content_md := content_md (disk w);
          image_files := put_file path data (image_files (disk w)) |} w).

(** [fs.copyFile(source, target)]: the target is created or overwritten;
    without a source the call is rejected. *)
Definition copy_image_file (source target : string) : M unit :=
  fun w =>
    match read_file source (image_files (disk w)) with
    | Some data => write_image_file target data w
    | None => (Throw "ENOENT: no such file or directory, copyfile", w)
    end.

Definition log_openai (e : LogEntry) : M unit :=
  fun w => (Ret tt, with_openai_log (openai_log w ++ [e]) w).

(** [v.k] for a property name that no built-in prototype defines. *)
Definition member (v : value) (k : string) : M value :=
  match v with
  | VUndefined | VNull => throw ("Cannot read properties of undefined (reading '" ++ k ++ "')")
  | VObj entries =>
      match find (fun kv => (fst kv =? k)%string) entries with
      | Some kv => ret (snd kv)
      | None => ret VUndefined
      end
  | _ => ret VUndefined
  end.

(** [bookState.chatConfig], about to be read from. *)
Definition the_chatConfig : M ChatConfig :=
  (b <- get_memory ;;
   match chatConfig b with
   | Some c => ret c
   | None => throw "Cannot read properties of undefined (reading 'chatModel')"
   end).

(** **** Questions *)

(** The entry a list prompt returns: disabled entries cannot be selected. *)
Definition select {A : Type} (choices : list (A * bool)) (moves : nat) : option A :=
  let selectable := map fst (filter (fun c => negb (snd c)) choices) in
  nth_error selectable (moves mod List.length selectable).

Definition ask_prompt_review : M PromptReview :=
  fun w =>
    let a := chapter_answers w in
    match prompt_reviews a with
    | [] => (Halt, w)
    | x :: rest =>
        (Ret x,
         with_chapter_answers
           {| chapter_menu := chapter_menu a; prompt_reviews := rest;
              chat_replies := chat_replies a; content_reviews := content_reviews a |} w)
    end.

Definition ask_chapter_menu : M nat :=
  fun w =>
    let a := chapter_answers w in
    match chapter_menu a with
    | [] => (Halt, w)
    | x :: rest =>
        (Ret x,
         with_chapter_answers
           {| chapter_menu := rest; prompt_reviews := prompt_reviews a;
              chat_replies := chat_replies a; content_reviews := content_reviews a |} w)
    end.

Definition await_chat : M ChatReply :=
  fun w =>
    let a := chapter_answers w in
    match chat_replies a with
    | [] => (Halt, w)
    | x :: rest =>
        (Ret x,
         with_chapter_answers
           {| chapter_menu := chapter_menu a; prompt_reviews := prompt_reviews a;
              chat_replies := rest; content_reviews := content_reviews a |} w)
    end.

Definition ask_content_review : M ContentAction :=
  fun w =>
    let a := chapter_answers w in
    match content_reviews a with
    | [] => (Halt, w)
    | x :: rest =>
        (Ret x,
         with_chapter_answers
           {| chapter_menu := chapter_menu a; prompt_reviews := prompt_reviews a;
              chat_replies := chat_replies a; content_reviews := rest |} w)
    end.

Definition ask_style : M nat :=
  fun w =>
    let a := image_answers w in
    match style_picks a with
    | [] => (Halt, w)
    | x :: rest =>
        (Ret x,
         with_image_answers
           {| style_picks := rest; preset_picks := preset_picks a;
              scene_replies := scene_replies a; scene_actions := scene_actions a;
              image_prompt_reviews := image_prompt_reviews a;
              image_replies := image_replies a; image_actions := image_actions a |} w)
    end.

Definition ask_preset : M nat :=
  fun w =>
    let a := image_answers w in
    match preset_picks a with
    | [] => (Halt, w)
    | x :: rest =>
        (Ret x,
         with_image_answers
           {| style_picks := style_picks a; preset_picks := rest;
              scene_replies := scene_replies a; scene_actions := scene_actions a;
              image_prompt_reviews := image_prompt_reviews a;
              image_replies := image_replies a; image_actions := image_actions a |} w)
    end.

Definition await_scene : M SceneReply :=
  fun w =>
    let a := image_answers w in
    match scene_replies a with
    | [] => (Halt, w)
    | x :: rest =>
        (Ret x,
         with_image_answers
           {| style_picks := style_picks a; preset_picks := preset_picks a;
              scene_replies := rest; scene_actions := scene_actions a;
              image_prompt_reviews := image_prompt_reviews a;
              image_replies := image_replies a; image_actions := image_actions a |} w)
    end.

Definition ask_scene_action : M SceneAction :=
  fun w =>
    let a := image_answers w in
    match scene_actions a with
    | [] => (Halt, w)
    | x :: rest =>
        (Ret x,
         with_image_answers
           {| style_picks := style_picks a; preset_picks := preset_picks a;
              scene_replies := scene_replies a; scene_actions := rest;
              image_prompt_reviews := image_prompt_reviews a;
              image_replies := image_replies a; image_actions := image_actions a |} w)
    end.

Definition ask_image_prompt_review : M ImagePromptReview :=
  fun w =>
    let a := image_answers w in
    match image_prompt_reviews a with
    | [] => (Halt, w)
    | x :: rest =>
        (Ret x,
         with_image_answers
           {| style_picks := style_picks a; preset_picks := preset_picks a;
              scene_replies := scene_replies a; scene_actions := scene_actions a;
              image_prompt_reviews := rest;
              image_replies := image_replies a; image_actions := image_actions a |} w)
    end.

Definition await_image : M ImageReply :=
  fun w =>
    let a := image_answers w in
    match image_replies a with
    | [] => (Halt, w)
    | x :: rest =>
        (Ret x,
         with_image_answers
           {| style_picks := style_picks a; preset_picks := preset_picks a;
              scene_replies := scene_replies a; scene_actions := scene_actions a;
              image_prompt_reviews := image_prompt_reviews a;
              image_replies := rest; image_actions := image_actions a |} w)
    end.

Definition ask_image_action : M ImageAction :=
  fun w =>
    let a := image_answers w in
    match image_actions a with
    | [] => (Halt, w)
    | x :: rest =>
        (Ret x,
         with_image_answers
           {| style_picks := style_picks a; preset_picks := preset_picks a;
              scene_replies := scene_replies a; scene_actions := scene_actions a;
              image_prompt_reviews := image_prompt_reviews a;
              image_replies := image_replies a; image_actions := rest |} w)
    end.

Definition ask_book_menu : M BookAction :=
  fun w =>
    let a := book_answers w in
    match book_menu a with
    | [] => (Halt, w)
    | x :: rest =>
        (Ret x,
         with_book_answers
           {| book_menu := rest; chapter_picks := chapter_picks a;
              story_answers := story_answers a; config_answers := config_answers a |} w)
    end.

Definition ask_chapter_pick : M nat :=
  fun w =>
    let a := book_answers w in
    match chapter_picks a with
    | [] => (Halt, w)
    | x :: rest =>
        (Ret x,
         with_book_answers
           {| book_menu := book_menu a; chapter_picks := rest;
              story_answers := story_answers a; config_answers := config_answers a |} w)
    end.

(** [configureStoryVariables()] *)
Definition configureStoryVariables : M value :=
  fun w =>
    let a := book_answers w in
    match story_answers a with
    | [] => (Halt, w)
    | x :: rest =>
        (Ret x,
         with_book_answers
           {| book_menu := book_menu a; chapter_picks := chapter_picks a;
              story_answers := rest; config_answers := config_answers a |} w)
    end.

(** [configureOpenAI()] *)
Definition configureOpenAI : M ChatConfig :=
  fun w =>
    let a := book_answers w in
    match config_answers a with
    | [] => (Halt, w)
    | x :: rest =>
        (Ret x,
         with_book_answers
           {| book_menu := book_menu a; chapter_picks := chapter_picks a;
              story_answers := story_answers a; config_answers := rest |} w)
    end.

(** **** Commands of the chapter workflow *)
Section Commands.
(** [s.trim()] *)
Variable trim : string -> string.
(** A value inside a template literal. *)
Variable to_string : value -> string.
(** [JSON.stringify(v, null, 2)] inside a template literal. *)
Variable stringify : value -> string.
(** The initial prompts of promptBuilder.js and promptBuilderExtras.js. *)
Variable buildChapterPrompt : string -> list string -> value -> string.
Variable buildIntroductionPrompt : value -> string.

(** The line feed of a template literal. *)
Definition LF : string := String (ascii_of_nat 10) EmptyString.

(** [s.includes(part)] *)
Definition includes (s part : string) : bool :=
  match String.index 0 part s with Some _ => true | None => false end.

Definition editor_role : string :=
  "You are an expert editor specializing in children's literature. Your task is to naturally incorporate character and story details while preserving the educational content and narrative flow.".

Definition author_role : string :=
  "You are a successful children's book author writing. Use a friendly and engaging tone, practical examples that children can relate to, and maintain consistency with the provided characters and situations throughout the story.".

(** generatorChapter.js: one request, logged; a failure is logged and
    thrown again. *)
Definition generateChapter (topic : string) (subtopics : list string)
    (storyVariables : value) (previousContext : string)
    (model : string) (temperature : Q) : M string :=
  let fullPrompt :=
    if includes previousContext "Please review and adapt" then previousContext
    else buildChapterPrompt topic subtopics storyVariables in
  let system :=
    if includes previousContext "Please review and adapt" then editor_role
    else author_role in
  log_openai (LogRequest "chat" fullPrompt) ;;
  reply <- await_chat ;;
  match reply with
  | chat_content content =>
      log_openai (LogResponse "chat" content) ;;
      ret (trim content)
  | chat_failed message =>
      log_openai (LogError "chat" message) ;;
      throw message
  end.

Record Scene : Type := { scene : option string; scene_summary : option string }.

(** sceneSelector.js *)
Definition selectSceneForImage (chapterText : option string) (topic : string)
    (config : ChatConfig) : M (option Scene) :=
  match chapterText with
  | None | Some EmptyString => ret None
  | Some chapterText =>
      log_openai (LogRequest "scene-selection" chapterText) ;;
      reply <- await_scene ;;
      match reply with
      | scene_selected first last =>
          log_openai (LogResponse "scene-selection" chapterText) ;;
          ret (Some {| scene := first; scene_summary := last |})
      | scene_failed message =>
          log_openai (LogError "scene-selection" message) ;;
          throw message
      end
  end.

(** imageGenerator.js, seen from its caller. *)
Definition generateImage (config : value) (prompt outputPath : string) : M string :=
  reply <- await_image ;;
  match reply with
  | image_saved data => write_image_file outputPath data ;; ret outputPath
  | image_failed message => throw message
  end.

(** [title.replace(/[^a-z0-9]/gi, "_")] *)
Definition is_alphanumeric (c : ascii) : bool :=
  let n := nat_of_ascii c in
  ((48 <=? n) && (n <=? 57)) || ((65 <=? n) && (n <=? 90)) || ((97 <=? n) && (n <=? 122)).

Fixpoint sanitize (s : string) : string :=
  match s with
  | EmptyString => EmptyString
  | String c r => String (if is_alphanumeric c then c else "_"%char) (sanitize r)
  end.

(** [Object.values(v)[0]] *)
Definition first_value (v : value) : M value :=
  match v with
  | VUndefined | VNull => throw "Cannot convert undefined or null to object"
  | VObj ((_, x) :: _) => ret x
  | VArr (x :: _) => ret x
  | VStr (String c _) => ret (VStr (String c EmptyString))
  | _ => ret VUndefined
  end.

(** [v?.visualDescription || ""] *)
Definition visualDescription (v : value) : value :=
  match v with
  | VObj entries =>
      match find (fun kv => (fst kv =? "visualDescription")%string) entries with
      | Some kv => if falsy (snd kv) then VStr "" else snd kv
      | None => VStr ""
      end
  | _ => VStr ""
  end.

Definition undefined_or (s : option string) : string :=
  match s with Some s => s | None => "undefined" end.

Definition style_choices : list (string * bool) :=
  map (fun s => (ImageStyles.name s, false)) ImageStyles.DEFAULT_IMAGE_STYLE_PROMPT.

Definition preset_choices : list (string * bool) :=
  map (fun kv => (fst kv, false)) ImageStyles.IMAGE_STYLE_PRESETS.

Definition nonempty (s : option string) : bool :=
  match s with Some (String _ _) => true | _ => false end.

(** generateChapter.js, [handleImageGeneration].  Every pass asks for one
    style; [picks] is the queue of style selections when the function is
    entered and is the measure of the recursion. *)
Fixpoint handleImageGeneration_from (picks : list nat) (ix : nat) {struct picks}
  : M (option bool) :=
  try_catch
    (chapter <- get_chapter ix ;;
     let attemptNumber :=
       match image chapter with
       | Some i => match attempts i with Some n => n | None => 0 end
       | None => 0
       end + 1 in
     moves <- ask_style ;;
     match picks with
     | [] => halt
     | _ :: picks' =>
     match select style_choices moves with
     | None => halt
     | Some style =>
     moves <- ask_preset ;;
     match select preset_choices moves with
     | None => halt
     | Some preset =>
     bookState <- get_memory ;;
     config <- the_chatConfig ;;
     selectedScene <- selectSceneForImage (text chapter) (topic chapter) config ;;
     match selectedScene with
     | None => throw "Cannot read properties of null (reading 'scene')"
     | Some selected =>
     sceneAction <- ask_scene_action ;;
     let sceneDescription : option string :=
       match sceneAction with
       | use_scene => scene_summary selected
       | skip_scene =>
           Some (topic chapter ++ ": "
                 ++ (if nonempty (text chapter)
                     then substring 0 200 (undefined_or (text chapter)) ++ "..."
                     else match lessonContext chapter with
                          | Some l => summary l
                          | None => ""
                          end))%string
       end in
     characters <- member (storyVariables bookState) "characters" ;;
     mainCharacter <- first_value characters ;;
     let characterDescription := visualDescription mainCharacter in
     let description : option string :=
       if falsy characterDescription then sceneDescription
       else Some (to_string characterDescription ++ " "
                  ++ undefined_or sceneDescription)%string in
     imagePrompt <- lift (ImageStyles.getIllustrationPrompt
                            description (Some style) (Some preset)) ;;
     review <- ask_image_prompt_review ;;
     match review with
     | skip_image_generation => ret None
     | _ =>
     let finalPrompt :=
       match review with modify_image_prompt edited => edited | _ => imagePrompt end in
     stamp <- now ;;
     let tempPath :=
       ("tmp/" ++ sanitize (title bookState) ++ "_" ++ id chapter ++ "_attempt"
        ++ dec attemptNumber ++ "_" ++ dec stamp ++ ".png")%string in
     outputPath <- generateImage (imageConfig bookState) finalPrompt tempPath ;;
     stamp <- now ;;
     update_chapter ix
       (with_image
          {| image_status := generated; image_prompt := Some finalPrompt;
             url := None; tempPath := Some outputPath;
             attempts := Some attemptNumber; style := Some style;
             preset := Some preset; timestamp := Some (iso stamp);
             localPath := None |}) ;;
     saveBookState ;;
     imageAction <- ask_image_action ;;
     match imageAction with
     | accept_image =>
         let finalPath := ("images/chapter_" ++ id chapter ++ "_image.png")%string in
         copy_image_file outputPath finalPath ;;
         update_chapter ix
           (fun c =>
              match image c with
              | Some i => with_image (with_localPath finalPath (with_image_status accepted i)) c
              | None => c
              end) ;;
         saveBookState ;;
         ret (Some true)
     | skip_image =>
         update_chapter ix
           (fun c =>
              match image c with
              | Some i => with_image (with_image_status wip i) c
              | None => c
              end) ;;
         saveBookState ;;
         ret (Some false)
     | regenerate_image | modify_image => handleImageGeneration_from picks' ix
     end
     end end end end end)
    (fun error => ret (Some false)).

Definition handleImageGeneration (ix : nat) : M (option bool) :=
  fun w => handleImageGeneration_from (style_picks (image_answers w)) ix w.

Definition subtopics_of (chapter : Chapter) : list string :=
  match lessonContext chapter with
  | Some l => [summary l]
  | None => []
  end.

(** The object [{characters: {protagonistName, protagonistAge}}] built
    from the book's story variables. *)
Definition minimalVariables : M value :=
  bookState <- get_memory ;;
  characters <- member (storyVariables bookState) "characters" ;;
  protagonistName <- member characters "protagonistName" ;;
  characters <- member (storyVariables bookState) "characters" ;;
  protagonistAge <- member characters "protagonistAge" ;;
  ret (VObj [("characters",
              VObj [("protagonistName", protagonistName);
                    ("protagonistAge", protagonistAge)])]).

(** What [reviewPrompt] returns; [None] is [null]. *)
Definition reviewPrompt (prompt : string) : M (option string) :=
  answer <- ask_prompt_review ;;
  match answer with
  | modify_prompt edited => ret (Some edited)
  | use_prompt => ret (Some prompt)
  | cancel_prompt => ret None
  end.

(** What [reviewContent] returns: the action chosen for the content shown. *)
Definition reviewContent (content : string) : M ContentAction :=
  ask_content_review.

(** The [while (true)] loop of [generateChapterContent].  Every pass asks
    for one prompt review; [reviews] is the queue of prompt reviews when
    the loop is entered and is the measure of the recursion. *)
Fixpoint generation_loop (reviews : list PromptReview) (ix : nat)
    (isIntroduction : bool) (prompt : string) {struct reviews} : M bool :=
  reviewed <- reviewPrompt prompt ;;
  match reviews with
  | [] => halt
  | _ :: reviews' =>
  match reviewed with
  | None | Some EmptyString => ret false
  | Some prompt =>
  chapter <- get_chapter ix ;;
  bookState <- get_memory ;;
  minimal <- minimalVariables ;;
  config <- the_chatConfig ;;
  initialContent <-
    generateChapter
      (if isIntroduction then "Introduction" else topic chapter)
      (if isIntroduction then [] else subtopics_of chapter)
      minimal (currentContext bookState) (chatModel config) (temperature config) ;;
  let personalizationPrompt :=
    if isIntroduction
    then PromptBuilder.personalizeIntroductionContent trim stringify
           initialContent (storyVariables bookState)
    else PromptBuilder.personalizeChapterContent trim stringify
           initialContent (storyVariables bookState) in
  personalizedContent <-
    generateChapter "Content Personalization" [] (storyVariables bookState)
      personalizationPrompt (chatModel config) (temperature config) ;;
  update_chapter ix (with_text personalizedContent) ;;
  set_status ix generated ;;
  stamp <- now ;;
  update_chapter ix
    (with_generationConfig
       {| initialPrompt := prompt;
          personalizationPrompt := personalizationPrompt;
          model := chatModel config;
          generation_temperature := temperature config;
          generation_timestamp := iso stamp |}) ;;
  saveBookState ;;
  action <- reviewContent personalizedContent ;;
  match action with
  | accept_content =>
      set_status ix accepted ;;
      append_content
        (LF ++ LF ++ "## " ++ topic chapter ++ LF ++ LF
         ++ personalizedContent ++ LF)%string ;;
      saveBookState ;;
      handleImageGeneration ix ;;
      ret true
  | regenerate_content =>
      set_status ix wip ;;
      saveBookState ;;
      generation_loop reviews' ix isIntroduction prompt
  | modify_content =>
      set_status ix wip ;;
      saveBookState ;;
      generation_loop reviews' ix isIntroduction prompt
  | wip_content =>
      set_status ix wip ;;
      saveBookState ;;
      ret false
  end
  end
  end.

(** generateChapter.js, [generateChapterContent] *)
Definition generateChapterContent (ix : nat) : M bool :=
  try_catch
    (chapter <- get_chapter ix ;;
     bookState <- get_memory ;;
     let isIntroduction := (id chapter =? "introduction")%string in
     prompt <-
       (if isIntroduction then
          minimal <- minimalVariables ;;
          ret (buildIntroductionPrompt minimal)
        else
          ret (buildChapterPrompt (topic chapter) (subtopics_of chapter)
                 (storyVariables bookState))) ;;
     fun w =>
       generation_loop (prompt_reviews (chapter_answers w)) ix isIntroduction prompt w)
    (fun error => ret false).

(** **** manageBook.js *)

Definition getNextChapter (chapters : list Chapter) : option Chapter :=
  find (fun chapter => negb (status_eqb (status chapter) accepted)) chapters.

(** The position of the first element that [find] would return. *)
Fixpoint find_index {A : Type} (f : A -> bool) (l : list A) : option nat :=
  match l with
  | [] => None
  | x :: r => if f x then Some 0 else option_map S (find_index f r)
  end.

(** The chapter menu: three entries are disabled while there is no
    content. *)
Definition chapter_choices (chapter : Chapter) : list (ChapterAction * bool) :=
  [ (generate_action, false);
    (review_action, status_eqb (status chapter) not_generated);
    (mark_wip, status_eqb (status chapter) not_generated);
    (mark_accepted, status_eqb (status chapter) not_generated);
    (back, false) ].

(** [handleChapter].  Every pass asks for one menu selection; [menu] is
    the queue of menu selections when the function is entered and is the
    measure of the recursion. *)
Fixpoint handleChapter_from (menu : list nat) (ix : nat) {struct menu} : M unit :=
  chapter <- get_chapter ix ;;
  moves <- ask_chapter_menu ;;
  match menu with
  | [] => halt
  | _ :: menu' =>
  match select (chapter_choices chapter) moves with
  | None => halt
  | Some generate_action =>
      generateChapterContent ix ;;
      handleChapter_from menu' ix
  | Some review_action =>
      handleChapter_from menu' ix
  | Some mark_wip =>
      set_status ix wip ;;
      saveBookState ;;
      handleChapter_from menu' ix
  | Some mark_accepted =>
      set_status ix accepted ;;
      saveBookState ;;
      ret tt
  | Some back => ret tt
  end
  end.

Definition handleChapter (ix : nat) : M unit :=
  fun w => handleChapter_from (chapter_menu (chapter_answers w)) ix w.

(** [selectChapter]: the entry chosen carries a chapter id, and the first
    chapter with that id is returned. *)
Definition selectChapter : M nat :=
  bookState <- get_memory ;;
  moves <- ask_chapter_pick ;;
  match select (map (fun c => (id c, false)) (chapters bookState)) moves with
  | None => halt
  | Some chapterId =>
      match find_index (fun ch => (id ch =? chapterId)%string) (chapters bookState) with
      | Some ix => ret ix
      | None => halt
      end
  end.

(** The menu loop of [manageBook]; [menu] is the queue of its selections
    when the loop is entered and is the measure of the recursion. *)
Fixpoint book_menu_loop (menu : list BookAction) {struct menu} : M unit :=
  action <- ask_book_menu ;;
  match menu with
  | [] => halt
  | _ :: menu' =>
  match action with
  | next_chapter =>
      bookState <- get_memory ;;
      match find_index (fun chapter => negb (status_eqb (status chapter) accepted))
              (chapters bookState) with
      | Some ix => handleChapter ix
      | None => ret tt
      end ;;
      book_menu_loop menu'
  | select_chapter =>
      ix <- selectChapter ;;
      handleChapter ix ;;
      book_menu_loop menu'
  | view_status => book_menu_loop menu'
  | modify_variables =>
      updatedVariables <- configureStoryVariables ;;
      bookState <- get_memory ;;
      put_memory (with_storyVariables updatedVariables bookState) ;;
      saveBookState ;;
      book_menu_loop menu'
  | update_config =>
      updatedConfig <- configureOpenAI ;;
      bookState <- get_memory ;;
      put_memory (with_openAIConfig updatedConfig bookState) ;;
      saveBookState ;;
      book_menu_loop menu'
  | exit_menu => ret tt
  end
  end.

Definition manageBook : M unit :=
  try_catch
    (bookState <- loadBookState ;;
     put_memory bookState ;;
     fun w => book_menu_loop (book_menu (book_answers w)) w)
    (fun error => throw error).
End Commands.

End Cli.


(** *** Image generation (imageGenerator.js) *)
Module ImageGenerator.
Import Js.

(** The body of the request that creates a Mystic task. *)
Record task : Type := {
  task_prompt : string;
  resolution : value;
  aspect_ratio : string;
  task_model : value;
  engine : value;
  creative_detailing : value;
  fixed_generation : bool;
  filter_nsfw : bool
}.

(** What the functions do to the outside, in the order in which they do it. *)
Inductive event : Type :=
| ImagesGenerate (model size : value) (prompt : string)
| TaskCreated (body : task)
| StatusPolled (taskId : string)
| Fetched (url : string)
| FileWritten (path : string).

(** The outside: the environment, the OpenAI client, the Freepik API and
    the server of the image files.  Writing a file succeeds. *)
Record Outside : Type := {
  (** [new OpenAI({apiKey: process.env.OPENAI_API_KEY})] *)
  new_OpenAI : result unit;
  (** [process.env.FREEPIK_API_KEY] *)
  FREEPIK_API_KEY : option string;
  (** The [url]s of [response.data] of [openai.images.generate]. *)
  images_generate : value -> value -> string -> result (list string);
  (** [response.data?.data?.task_id] of the request that creates a task. *)
  create_task : task -> result (option string);
  (** The reply to the status request issued for a task after [k] earlier ones. *)
  task_status : string -> nat -> Mystic.reply;
  (** [axios.get(url, {responseType: "arraybuffer"})] *)
  fetch : string -> result unit
}.

(** A computation that may throw, with the events it caused. *)
Definition G (A : Type) : Type := (result A * list event)%type.

Definition pure {A : Type} (a : A) : G A := (Returned a, []).
Definition fail {A : Type} (message : string) : G A := (Raised message, []).
Definition emit (e : event) : G unit := (Returned tt, [e]).
Definition call {A : Type} (r : result A) : G A := (r, []).

Definition then_ {A B : Type} (m : G A) (k : A -> G B) : G B :=
  match m with
  | (Returned a, es) => let (r, es') := k a in (r, es ++ es')
  | (Raised message, es) => (Raised message, es)
  end.

(** [try { m } catch (error) { throw new Error(prefix + error.message) }] *)
Definition rethrow {A : Type} (prefix : string) (m : G A) : G A :=
  match m with
  | (Raised message, es) => (Raised (prefix ++ message), es)
  | done => done
  end.

(** [v.k] for a property name that no built-in prototype defines. *)
Definition get (v : value) (k : string) : result value :=
  match v with
  | VUndefined =>
      Raised ("Cannot read properties of undefined (reading '" ++ k ++ "')")
  | VNull => Raised ("Cannot read properties of null (reading '" ++ k ++ "')")
  | VObj entries =>
      match find (fun kv => (fst kv =? k)%string) entries with
      | Some kv => Returned (snd kv)
      | None => Returned VUndefined
      end
  | _ => Returned VUndefined
  end.

(** [v?.k] *)
Definition get_opt (v : value) (k : string) : value :=
  match get v k with
  | Returned x => x
  | Raised _ => VUndefined
  end.

(** [a || b] *)
Definition or_default (a b : value) : value := if falsy a then b else a.

Section Generator.
(** A value inside a template literal. *)
Variable to_string : value -> string.
(** [JSON.stringify(response.data)] *)
Variable stringify : Mystic.reply -> string.
Variable outside : Outside.

Definition downloadImage (url outputPath : string) : G unit :=
  rethrow "Failed to download image: "
    (then_ (emit (Fetched url)) (fun _ =>
     then_ (call (fetch outside url)) (fun _ =>
     emit (FileWritten outputPath)))).

Definition generateWithOpenAI (config : value) (prompt outputPath : string)
  : G string :=
  then_ (call (new_OpenAI outside)) (fun _ =>
  rethrow "OpenAI generation failed: "
    (then_ (call (get config "model")) (fun model =>
     then_ (call (get config "size")) (fun size =>
     then_ (emit (ImagesGenerate model size prompt)) (fun _ =>
     then_ (call (images_generate outside model size prompt)) (fun data =>
     match data with
     | [] => fail "Cannot read properties of undefined (reading 'url')"
     | imageUrl :: _ =>
         then_ (downloadImage imageUrl outputPath) (fun _ => pure outputPath)
     end)))))).

(** The status requests of one run of [checkMysticTaskStatus]. *)
Definition polled (taskId : string) (run : Mystic.run) : G string :=
  (Mystic.outcome run, repeat (StatusPolled taskId) (Mystic.polls run)).

Definition generateWithMystic (config : value) (prompt outputPath : string)
  : G string :=
  match FREEPIK_API_KEY outside with
  | None | Some EmptyString => fail "FREEPIK_API_KEY not found in environment"
  | Some _ =>
      rethrow "Mystic generation failed: "
        (then_ (call (get config "resolution")) (fun resolution =>
         then_ (call (get config "model")) (fun model =>
         then_ (call (get config "engine")) (fun engine =>
         then_ (call (get config "creative_detailing")) (fun creative_detailing =>
         let body :=
           {| task_prompt := prompt;
              resolution := or_default resolution (VStr "1k");
              aspect_ratio := "square_1_1";
              task_model := model;
              engine := engine;
              creative_detailing := or_default creative_detailing (VNum 33);
              fixed_generation := false;
              filter_nsfw := true |} in
         then_ (emit (TaskCreated body)) (fun _ =>
         then_ (call (create_task outside body)) (fun task_id =>
         match task_id with
         | None | Some EmptyString => fail "No task ID in Mystic response"
         | Some task_id =>
             then_ (polled task_id
                      (Mystic.checkMysticTaskStatus stringify
                         (task_status outside task_id) 60)) (fun imageUrl =>
             then_ (downloadImage imageUrl outputPath) (fun _ =>
             pure outputPath))
         end)))))))
  end.

Definition generateImage (config : value) (prompt outputPath : string) : G string :=
  let provider := get_opt config "provider" in
  if falsy provider then fail "No image provider configured"
  else
    match provider with
    | VStr name =>
        if (name =? "openai")%string then
          generateWithOpenAI (get_opt config "openai") prompt outputPath
        else if (name =? "mystic")%string then
          generateWithMystic (get_opt config "mystic") prompt outputPath
        else fail ("Unknown provider: " ++ to_string provider)
    | _ => fail ("Unknown provider: " ++ to_string provider)
    end.
End Generator.

End ImageGenerator.

(** *** The image configuration dialogue (imageGeneratorConfig.js, configureImageGenerator) *)
Module ImageConfig.
Import Js.

(** A choice of a list prompt: what is shown and what is returned. *)
Record Choice : Type := { choice_name : string; choice_value : string }.

Record ImageModel : Type := {
  model_name : string; model_value : string; defaultSize : string
}.

Record Described : Type := {
  described_name : string; described_value : string; description : string
}.

Definition IMAGE_PROVIDERS : list Choice :=
  [ {| choice_name := "OpenAI DALL-E (Traditional illustration styles)";
       choice_value := "openai" |};
    {| choice_name := "Freepik Mystic (Modern and artistic styles)";
       choice_value := "mystic" |} ].

Definition OPENAI_IMAGE_MODELS : list ImageModel :=
  [ {| model_name := "DALL-E 3 (Highest quality, most accurate)";
       model_value := "dall-e-3"; defaultSize := "1024x1024" |};
    {| model_name := "DALL-E 2 (Faster, less expensive)";
       model_value := "dall-e-2"; defaultSize := "1024x1024" |} ].

Definition MYSTIC_MODELS : list Described :=
  [ {| described_name := "Realism"; described_value := "realism";
       description := "More realistic color palette, tries to give an extra boost of reality to images. Works well with photographs and illustrations." |};
    {| described_name := "Fluid"; described_value := "fluid";
       description := "Best prompt adherence and great average quality. Can generate creative images and will always follow your input." |};
    {| described_name := "Zen"; described_value := "zen";
       description := "Smoother, basic, and cleaner results. Fewer objects in the scene and less intricate details. Softer looking." |} ].

Definition MYSTIC_ENGINES : list Described :=
  [ {| described_name := "Automatic"; described_value := "automatic";
       description := "Default choice that automatically selects the best engine for your prompt." |};
    {| described_name := "Illusio"; described_value := "magnific_illusio";
       description := "Better for smoother illustrations, landscapes, and nature. The softer looking one." |};
    {| described_name := "Sharpy"; described_value := "magnific_sharpy";
       description := "Better for realistic images and photographs. Provides the sharpest and most detailed images." |};
    {| described_name := "Sparkle"; described_value := "magnific_sparkle";
       description := "Good for realistic images. A middle ground between Illusio and Sharpy." |} ].

Definition RESOLUTIONS : list Choice :=
  [ {| choice_name := "1K (Faster, less expensive)"; choice_value := "1k" |};
    {| choice_name := "2K (Better quality, more expensive)"; choice_value := "2k" |};
    {| choice_name := "4K (Highest quality, most expensive)"; choice_value := "4k" |} ].

(** What the user does at the questions of the dialogue: where the cursor
    of a list is when the choice is confirmed, and the numbers entered for
    the creative detailing, of which the first that the validation accepts
    is the answer. *)
Record Answers : Type := {
  provider_pick : nat;
  model_pick : nat;
  engine_pick : nat;
  resolution_pick : nat;
  creative_detailing_entered : list Z;
  style_pick : nat
}.

(** The choice of a list prompt without disabled entries. *)
Definition chosen {A : Type} (choices : list A) (pick : nat) : option A :=
  Cli.select (map (fun c => (c, false)) choices) pick.

(** [validate] of the creative detailing question. *)
Definition valid_detailing (input : Z) : bool := ((0 <=? input) && (input <=? 100))%Z.

(** [None]: the dialogue is not answered to its end. *)
Definition configureImageGenerator (answers : Answers) : option value :=
  match chosen IMAGE_PROVIDERS (provider_pick answers) with
  | None => None
  | Some provider =>
      let provider := choice_value provider in
      let config := [("provider", VStr provider)] in
      let config :=
        if (provider =? "openai")%string then
          match chosen OPENAI_IMAGE_MODELS (model_pick answers) with
          | None => None
          | Some model =>
              let model := model_value model in
              match find (fun m => (model_value m =? model)%string) OPENAI_IMAGE_MODELS with
              | None => None
              | Some selectedModel =>
                  Some (obj_set config "openai"
                          (VObj [("model", VStr model);
                                 ("size", VStr (defaultSize selectedModel))]))
              end
          end
        else
          match chosen MYSTIC_MODELS (model_pick answers),
                chosen MYSTIC_ENGINES (engine_pick answers),
                chosen RESOLUTIONS (resolution_pick answers),
                find valid_detailing (creative_detailing_entered answers) with
          | Some model, Some engine, Some resolution, Some creative_detailing =>
              Some (obj_set config "mystic"
                      (VObj [("model", VStr (described_value model));
                             ("engine", VStr (described_value engine));
                             ("resolution", VStr (choice_value resolution));
                             ("creative_detailing", VNum creative_detailing)]))
          | _, _, _, _ => None
          end in
      match config with
      | None => None
      | Some config =>
          match chosen ImageStyles.DEFAULT_IMAGE_STYLE_PROMPT (style_pick answers) with
          | None => None
          | Some imageStyle =>
              Some (VObj (obj_set config "imageStyle" (VStr (ImageStyles.name imageStyle))))
          end
      end
  end.

End ImageConfig.

(** *** The books directory and the main menu (cli/index.js, configureNewBook) *)
Module Library.
Import Js BookState Cli.

(** An entry of the books directory: a file, or the directory of a book
    with its files. *)
Record Entry : Type := {
  entry_name : string;
  is_directory : bool;
  files : Disk
}.

(** The books directory, in the order in which [fs.readdir] lists it. *)
Definition Shelf : Type := list Entry.

Definition on_shelf (name : string) (shelf : Shelf) : bool :=
  existsb (fun e => (entry_name e =? name)%string) shelf.

(** [fs.rm(path.join(BOOKS_DIR, name), {recursive: true})] *)
Definition remove (name : string) (shelf : Shelf) : Shelf :=
  filter (fun e => negb (entry_name e =? name)%string) shelf.

(** The files of the directory [name] become [d]. *)
Definition put (name : string) (d : Disk) (shelf : Shelf) : Shelf :=
  map (fun e =>
         if (entry_name e =? name)%string
         then {| entry_name := entry_name e; is_directory := is_directory e; files := d |}
         else e)
      shelf.

(** The characters of a name typed on an ASCII keyboard. *)
Definition is_upper (c : ascii) : bool :=
  let n := nat_of_ascii c in (65 <=? n) && (n <=? 90).

Definition lower (c : ascii) : ascii :=
  if is_upper c then ascii_of_nat (nat_of_ascii c + 32) else c.

(** [s.toLowerCase()] *)
Fixpoint toLowerCase (s : string) : string :=
  match s with
  | EmptyString => EmptyString
  | String c r => String (lower c) (toLowerCase r)
  end.

(** [\s] *)
Definition is_space (c : ascii) : bool :=
  let n := nat_of_ascii c in ((9 <=? n) && (n <=? 13)) || (n =? 32).

Fixpoint trimStart (s : string) : string :=
  match s with
  | String c r => if is_space c then trimStart r else s
  | EmptyString => EmptyString
  end.

(** [s] without its trailing white space. *)
Fixpoint trimEnd (s : string) : string :=
  match s with
  | EmptyString => EmptyString
  | String c r =>
      match trimEnd r with
      | EmptyString => if is_space c then EmptyString else String c EmptyString
      | r' => String c r'
      end
  end.

(** [s.trim()] *)
Definition trim (s : string) : string := trimEnd (trimStart s).

(** [s.replace(/\s+/g, "-")]: [after_space] tells that the character before
    was white space, which the hyphen written for it stands for as well. *)
Fixpoint hyphenate_from (after_space : bool) (s : string) : string :=
  match s with
  | EmptyString => EmptyString
  | String c r =>
      if is_space c then
        if after_space then hyphenate_from true r
        else String "-" (hyphenate_from true r)
      else String c (hyphenate_from false r)
  end.

Definition hyphenate (s : string) : string := hyphenate_from false s.

(** [a-z0-9-] *)
Definition is_safe (c : ascii) : bool :=
  let n := nat_of_ascii c in
  ((97 <=? n) && (n <=? 122)) || ((48 <=? n) && (n <=? 57)) || (n =? 45).

(** [s.replace(/[^a-z0-9-]/g, "")] *)
Fixpoint only_safe (s : string) : string :=
  match s with
  | EmptyString => EmptyString
  | String c r => if is_safe c then String c (only_safe r) else only_safe r
  end.

(** The directory name that [mainMenu] makes of the name typed. *)
Definition safeBookName (bookName : string) : string :=
  only_safe (hyphenate (trim (toLowerCase bookName))).

(** [name.toLowerCase() === ".ds_store" || name.startsWith(".")] *)
Definition hidden (name : string) : bool :=
  (toLowerCase name =? ".ds_store")%string
  || match name with String "." _ => true | _ => false end.

(** [listBooks()] *)
Definition listBooks (shelf : Shelf) : list string :=
  map entry_name
    (filter (fun e => negb (hidden (entry_name e)) && is_directory e) shelf).

(** [deleteBook(name)]: removing what is not there throws, and the error is
    caught. *)
Definition deleteBook (name : string) (shelf : Shelf) : bool * Shelf :=
  if on_shelf name shelf then (true, remove name shelf) else (false, shelf).

(** What the three dialogues of [configureNewBook] return. *)
Record Configuration : Type := {
  configured_chat : ChatConfig;
  configured_image : value;
  configured_story : value
}.

(** [configureNewBook(bookPath)] on the files of the book; [None] stands
    for a dialogue that throws. *)
Definition configureNewBook (answers : option Configuration) (d : Disk) : bool * Disk :=
  match answers with
  | None => (false, d)
  | Some configuration =>
      match book_state_json d with
      | None => (false, d)
      | Some currentState =>
          (true,
           {| book_state_json :=
                Some {| title := title currentState;
                        createdAt := createdAt currentState;
                        openAIConfig := openAIConfig currentState;
                        chatConfig := Some (configured_chat configuration);
                        imageConfig := configured_image configuration;
                        storyVariables := configured_story configuration;
                        chapters := chapters currentState;
                        currentContext := currentContext currentState |};
              content_md := content_md d;
              image_files := image_files d |})
      end
  end.

(** The answers to everything that [manageBook] asks in one session. *)
Record Session : Type := {
  session_chapters : ChapterAnswers;
  session_images : ImageAnswers;
  session_book : BookAnswers
}.

(** What the user does at the main menu, with what follows from it.
    [bookName] is the name that the validation of the question has let
    through, and [confirmDelete] the answer to the confirmation. *)
Inductive MainAnswer : Type :=
| create_answer (bookName now : string) (configuration : option Configuration)
    (session : Session)
| open_answer (pick : nat) (session : Session)
| delete_answer (pick : nat) (confirmDelete : bool)
| exit_answer.

(** How [main] ends: [process.exit(0)], an error that reaches [main], or a
    question that is never answered. *)
Inductive Ending : Type := Exited | Crashed (message : string) | Waiting.

Section Books.
Variable BOOK_CONTENT : list Lesson.
(** [s.trim()] on the texts of the chat service. *)
Variable trim_text : string -> string.
Variable to_string : value -> string.
Variable stringify : value -> string.
Variable buildChapterPrompt : string -> list string -> value -> string.
Variable buildIntroductionPrompt : value -> string.

(** [createBook(name)]; [now] is what [new Date().toISOString()] reads. *)
Definition createBook (name now : string) (answers : option Configuration)
    (shelf : Shelf) : bool * Shelf :=
  if on_shelf name shelf then (false, shelf)
  else
    let created :=
      {| book_state_json := Some (initializeBookState BOOK_CONTENT name now);
         content_md := "";
         image_files := [] |} in
    let shelf :=
      shelf ++ [{| entry_name := name; is_directory := true; files := created |}] in
    let (configured, configured_files) := configureNewBook answers created in
    if configured then (true, put name configured_files shelf)
    else (false, remove name shelf).

(** [manageBook(path.join(BOOKS_DIR, name))]: the session runs on the files
    of the directory [name].  The book state of [manageBook] is what
    [loadBookState] returns, so what [memory] holds before is never read. *)
Definition manage (name : string) (session : Session) (shelf : Shelf)
  : Res unit * Shelf :=
  match find (fun e => (entry_name e =? name)%string) shelf with
  | None => (Throw "Failed to load book state", shelf)
  | Some e =>
      let (r, w) :=
        manageBook trim_text to_string stringify buildChapterPrompt
          buildIntroductionPrompt
          {| memory := initializeBookState [] "" "";
             disk := files e;
             chapter_answers := session_chapters session;
             image_answers := session_images session;
             book_answers := session_book session;
             clock := 0; status_writes := []; openai_log := [] |} in
      (r, put name (disk w) shelf)
  end.

(** [mainMenu()]; [answers] is what the user does at the main menu until
    the session ends, and is the measure of the recursion. *)
Fixpoint mainMenu (answers : list MainAnswer) (shelf : Shelf) : Ending * Shelf :=
  match answers with
  | [] => (Waiting, shelf)
  | create_answer bookName now configuration session :: answers' =>
      let safe := safeBookName bookName in
      if (safe =? "")%string then mainMenu answers' shelf
      else
        let (created, shelf) := createBook safe now configuration shelf in
        if created then
          match manage safe session shelf with
          | (Ret _, shelf) => mainMenu answers' shelf
          | (Throw message, shelf) => (Crashed message, shelf)
          | (Halt, shelf) => (Waiting, shelf)
          end
        else mainMenu answers' shelf
  | open_answer pick session :: answers' =>
      match listBooks shelf with
      | [] => mainMenu answers' shelf
      | books =>
          match select (map (fun b => (b, false)) books) pick with
          | None => (Waiting, shelf)
          | Some selectedBook =>
              match manage selectedBook session shelf with
              | (Ret _, shelf) => mainMenu answers' shelf
              | (Throw message, shelf) => (Crashed message, shelf)
              | (Halt, shelf) => (Waiting, shelf)
              end
          end
      end
  | delete_answer pick confirmDelete :: answers' =>
      match listBooks shelf with
      | [] => mainMenu answers' shelf
      | books =>
          match select (map (fun b => (b, false)) books) pick with
          | None => (Waiting, shelf)
          | Some selectedBook =>
              match ImageGenerator.get (VStr selectedBook) "confirmDelete" with
              | Raised message => (Crashed message, shelf)
              | Returned confirmed =>
                  if falsy confirmed then mainMenu answers' shelf
                  else mainMenu answers' (snd (deleteBook selectedBook shelf))
              end
          end
      end
  | exit_answer :: _ => (Exited, shelf)
  end.
End Books.

End Library.

(** *** The prompt editor (cli/utils/promptEditor.js) *)
Module PromptEditor.

Record Part : Type := {
  part_id : nat;
  part_title : string;
  part_content : string
}.

Definition is_lf (c : ascii) : bool := (nat_of_ascii c =? 10).

(** [c] in front of the first string of [l]. *)
Definition extend (c : ascii) (l : list string) : list string :=
  match l with
  | first :: rest => String c first :: rest
  | [] => [String c EmptyString]
  end.

(** [s.split("\n\n")] *)
Fixpoint split_blank (s : string) : list string :=
  match s with
  | EmptyString => [EmptyString]
  | String c r =>
      match r with
      | String c' r' =>
          if is_lf c && is_lf c' then EmptyString :: split_blank r'
          else extend c (split_blank r)
      | EmptyString => extend c (split_blank r)
      end
  end.

(** [l.join(separator)] *)
Fixpoint join (separator : string) (l : list string) : string :=
  match l with
  | [] => EmptyString
  | [s] => s
  | s :: rest => (s ++ separator ++ join separator rest)%string
  end.

(** [s.split("\n")[0]] *)
Fixpoint first_line (s : string) : string :=
  match s with
  | EmptyString => EmptyString
  | String c r => if is_lf c then EmptyString else String c (first_line r)
  end.

(** [s.replace(/[:#-]/g, "")] *)
Fixpoint unmark (s : string) : string :=
  match s with
  | EmptyString => EmptyString
  | String c r =>
      if (Ascii.eqb c ":" || Ascii.eqb c "#" || Ascii.eqb c "-")%bool then unmark r
      else String c (unmark r)
  end.

(** [l.filter(Boolean)] on strings *)
Definition nonempty_only (l : list string) : list string :=
  filter (fun s => negb (s =? "")%string) l.

(** The blank line between two parts. *)
Definition blank_line : string :=
  String (ascii_of_nat 10) (String (ascii_of_nat 10) EmptyString).

Section Editor.
(** [s.trim()] *)
Variable trim : string -> string.

(** [parts.map((part, index) => ...)], from [index] on. *)
Fixpoint number_from (index : nat) (parts : list string) : list Part :=
  match parts with
  | [] => []
  | part :: rest =>
      let title := trim (unmark (first_line (trim part))) in
      {| part_id := index + 1;
         part_title :=
           if (title =? "")%string then ("Section " ++ dec (index + 1))%string
           else title;
         part_content := trim part |}
      :: number_from (S index) rest
  end.

Definition splitIntoSections (prompt : string) : list Part :=
  number_from 0 (nonempty_only (split_blank prompt)).

Definition combineSections (sections : list Part) : string :=
  join blank_line (map part_content sections).

(** What the user does in the editor: [edit_part] carries the position of
    the cursor in the list of parts and the text that the validation of
    the editor has let through. *)
Inductive EditAnswer : Type :=
| edit_part (pick : nat) (editedContent : string)
| preview_prompt
| save_prompt
| cancel_editing.

(** The loop of [editPrompt]; [None]: a question is never answered. *)
Fixpoint editing (originalPrompt : string) (answers : list EditAnswer)
    (sections : list Part) : option string :=
  match answers with
  | [] => None
  | cancel_editing :: _ => Some originalPrompt
  | save_prompt :: _ => Some (combineSections sections)
  | preview_prompt :: answers' => editing originalPrompt answers' sections
  | edit_part pick editedContent :: answers' =>
      match Cli.select (map (fun s => (part_id s, false)) sections) pick with
      | None => None
      | Some sectionId =>
          editing originalPrompt answers'
            (map (fun s =>
                    if part_id s =? sectionId
                    then {| part_id := part_id s; part_title := part_title s;
                            part_content := trim editedContent |}
                    else s)
                 sections)
      end
  end.

Definition editPrompt (originalPrompt : string) (answers : list EditAnswer)
  : option string :=
  editing originalPrompt answers (splitIntoSections originalPrompt).
End Editor.

End PromptEditor.
(** *** A small book, for examples *)
Module Samples.
Import Js BookState Cli.

Definition lessons : list Lesson :=
  [ {| lesson_id := "basicConcepts"; lesson_title := "Basic Concepts";
       lesson_description := "First ideas"; order := 1;
       topics :=
         [ {| key := "understandingWhatMoneyIs"; topic_title := "What Money Is";
              topic_example := "Coins in a jar"; topic_summary := "Money buys things" |};
           {| key := "distinguishingWantsAndNeeds"; topic_title := "Wants and Needs";
              topic_example := "Toys and bread"; topic_summary := "Needs come first" |} ] |};
    {| lesson_id := "financialLiteracy"; lesson_title := "Financial Literacy";
       lesson_description := "Handling money"; order := 2;
       topics :=
         [ {| key := "importanceOfSavings"; topic_title := "Saving";
              topic_example := "A piggy bank"; topic_summary := "Saving adds up" |} ] |} ].

Definition story : value :=
  VObj [ ("characters",
          VObj [ ("protagonistName", VStr "Luna"); ("protagonistAge", VStr "8");
                 ("siblingsNamesAges", VArr [VArr []]) ]);
         ("places", VObj [ ("cityName", VStr "Sunnyville"); ("schoolName", VStr "") ]) ].

(** The state of a configured new book. *)
Definition new_book : BookState :=
  let b := initializeBookState lessons "My Book" "2025-01-01T00:00:00.000Z" in
  {| title := title b; createdAt := createdAt b; openAIConfig := None;
     chatConfig := Some {| chatModel := "gpt-4"; temperature := 7 # 10 |};
     imageConfig := VObj [("provider", VStr "openai")];
     storyVariables := story; chapters := chapters b;
     currentContext := currentContext b |}.


Definition no_image_answers : ImageAnswers :=
  {| style_picks := []; preset_picks := []; scene_replies := [];
     scene_actions := []; image_prompt_reviews := []; image_replies := [];
     image_actions := [] |}.

Definition no_book_answers : BookAnswers :=
  {| book_menu := []; chapter_picks := []; story_answers := [];
     config_answers := [] |}.

(** A session on [book], saved as it is, with the given answers. *)
Definition session (book : BookState) (c : ChapterAnswers) (i : ImageAnswers)
    (b : BookAnswers) : World :=
  {| memory := book;
     disk := {| book_state_json := Some book; content_md := ""; image_files := [] |};
     chapter_answers := c; image_answers := i; book_answers := b;
     clock := 0; status_writes := []; openai_log := [] |}.

(** The status of chapter [ix] in a book state. *)
Definition status_at (ix : nat) (b : BookState) : option Status :=
  option_map status (nth_error (chapters b) ix).

(** Stand-ins for the text helpers. *)
Definition plain_trim (s : string) : string := s.
Definition plain_to_string (v : value) : string := "[object Object]".
Definition plain_stringify (v : value) : string := "{}".
Definition plain_chapter_prompt (topic : string) (subtopics : list string)
    (storyVariables : value) : string :=
  ("Please write an educational chapter about " ++ topic)%string.
Definition plain_introduction_prompt (storyVariables : value) : string :=
  "Please write an engaging introduction".

Definition no_scene : ImageAnswers :=
  {| style_picks := [0; 0]; preset_picks := [0; 0];
     scene_replies := [scene_failed "offline"; scene_failed "offline"];
     scene_actions := []; image_prompt_reviews := []; image_replies := [];
     image_actions := [] |}.

(** Generate the introduction, put it aside as work in progress at the
    review, then mark it as accepted in the chapter menu. *)
Definition deferred_then_marked : World :=
  session new_book
    {| chapter_menu := [0; 3]; prompt_reviews := [use_prompt];
       chat_replies := [chat_content "A draft."; chat_content "Luna's story."];
       content_reviews := [wip_content] |}
    no_image_answers no_book_answers.

(** Generate the introduction and accept it at the review; the scene
    selection fails, and the user goes back to the book menu. *)
Definition accepted_at_review : World :=
  session new_book
    {| chapter_menu := [0; 4]; prompt_reviews := [use_prompt];
       chat_replies := [chat_content "A draft."; chat_content "Luna's story."];
       content_reviews := [accept_content] |}
    no_scene no_book_answers.

(** The same, twice in a row. *)
Definition accepted_twice : World :=
  session new_book
    {| chapter_menu := [0; 0; 4]; prompt_reviews := [use_prompt; use_prompt];
       chat_replies := [chat_content "A draft."; chat_content "Luna's story.";
                        chat_content "A draft."; chat_content "Luna's story."];
       content_reviews := [accept_content; accept_content] |}
    no_scene no_book_answers.

(** The chat service is down when the first lesson chapter is generated. *)
Definition service_down : World :=
  session new_book
    {| chapter_menu := []; prompt_reviews := [use_prompt];
       chat_replies := [chat_failed "429 Too Many Requests"];
       content_reviews := [] |}
    no_image_answers no_book_answers.

End Samples.


(** *** Sessions on the small book *)
Module Sessions.
Import Js BookState Cli Samples.

(** The small book with its introduction written and accepted. *)
Definition introduction_accepted : BookState :=
  match chapters new_book with
  | c :: rest =>
      with_chapters (with_status accepted (with_text "Luna's story." c) :: rest) new_book
  | [] => new_book
  end.

Definition no_chapter_answers : ChapterAnswers :=
  {| chapter_menu := []; prompt_reviews := []; chat_replies := [];
     content_reviews := [] |}.

(** Open the accepted introduction from the book menu, mark it as work in
    progress, go back and leave. *)
Definition reopen_introduction : World :=
  session introduction_accepted
    {| chapter_menu := [2; 4]; prompt_reviews := []; chat_replies := [];
       content_reviews := [] |}
    no_image_answers
    {| book_menu := [select_chapter; exit_menu]; chapter_picks := [0];
       story_answers := []; config_answers := [] |}.

(** Change the story variables and the configuration, then write the next
    chapter and put it aside. *)
Definition busy_session : World :=
  session new_book
    {| chapter_menu := [0; 4]; prompt_reviews := [use_prompt];
       chat_replies := [chat_content "A draft."; chat_content "Luna's story."];
       content_reviews := [wip_content] |}
    no_image_answers
    {| book_menu := [modify_variables; update_config; next_chapter; exit_menu];
       chapter_picks := [];
       story_answers := [VObj [("characters", VObj [("protagonistName", VStr "Max")])]];
       config_answers := [{| chatModel := "gpt-4o"; temperature := 1 # 2 |}] |}.

(** Ask for an image of a chapter that has not been written. *)
Definition image_too_early : World :=
  session new_book no_chapter_answers
    {| style_picks := [3]; preset_picks := [1]; scene_replies := [];
       scene_actions := []; image_prompt_reviews := []; image_replies := [];
       image_actions := [] |}
    no_book_answers.

(** Pick an entry of the chapter list by moving up from the first one. *)
Definition pick_from_the_end : World :=
  session new_book no_chapter_answers no_image_answers
    {| book_menu := []; chapter_picks := [7]; story_answers := [];
       config_answers := [] |}.


(** The introduction, written and accepted, is generated again; the reply
    to the personalization request is empty, and the user puts the chapter
    aside. *)
Definition blank_regeneration : World :=
  session introduction_accepted
    {| chapter_menu := []; prompt_reviews := [modify_prompt "Write about dragons."];
       chat_replies := [chat_content "A draft."; chat_content ""];
       content_reviews := [wip_content] |}
    no_image_answers no_book_answers.

(** An image of the introduction is generated and accepted in a book
    directory that holds an accepted image of it already. *)
Definition image_accepted_again : World :=
  with_disk
    {| book_state_json := Some introduction_accepted; content_md := "";
       image_files := [("images/chapter_introduction_image.png", "the old image")] |}
    (session introduction_accepted no_chapter_answers
       {| style_picks := [0]; preset_picks := [0];
          scene_replies :=
            [scene_selected (Some "Luna opens her jar.") (Some "Luna counts her coins.")];
          scene_actions := [use_scene];
          image_prompt_reviews := [use_image_prompt];
          image_replies := [image_saved "the new image"];
          image_actions := [accept_image] |}
       no_book_answers).

(** Story variables as the configuration dialogue builds them. *)
Definition answered : value :=
  VObj [ ("characters",
          VObj [ ("protagonistName", VStr "Luna"); ("petName", VStr "");
                 ("friendsNames", VArr [VStr "Ana"; VStr "Leo"]);
                 ("siblingsNamesAges", VArr []) ]);
         ("places", VObj [ ("cityName", VStr "") ]) ].

(** A task that is done at the second poll, and a connection that breaks
    at the second poll. *)
Definition plain_reply (r : Mystic.reply) : string := "{}".
Definition ready_at_second (k : nat) : Mystic.reply :=
  match k with
  | 0 => Mystic.Resolved "CREATED" None
  | _ =>
      Mystic.Resolved "COMPLETED"
        (Some ["https://cdn.example/1.png"; "https://cdn.example/2.png"])
  end.
Definition breaks_at_second (k : nat) : Mystic.reply :=
  match k with
  | 0 => Mystic.Resolved "IN_PROGRESS" (Some [])
  | _ => Mystic.Rejected "socket hang up"
  end.

(** Services that work: the Mystic task is done at the second poll. *)
Definition services : ImageGenerator.Outside :=
  {| ImageGenerator.new_OpenAI := Returned tt;
     ImageGenerator.FREEPIK_API_KEY := Some "fpk-123";
     ImageGenerator.images_generate :=
       fun _ _ _ => Returned ["https://cdn.example/openai.png"];
     ImageGenerator.create_task := fun _ => Returned (Some "task-1");
     ImageGenerator.task_status := fun _ => ready_at_second;
     ImageGenerator.fetch := fun _ => Returned tt |}.

(** The same, without a Freepik key in the environment. *)
Definition no_key : ImageGenerator.Outside :=
  {| ImageGenerator.new_OpenAI := Returned tt;
     ImageGenerator.FREEPIK_API_KEY := None;
     ImageGenerator.images_generate :=
       fun _ _ _ => Returned ["https://cdn.example/openai.png"];
     ImageGenerator.create_task := fun _ => Returned (Some "task-1");
     ImageGenerator.task_status := fun _ => ready_at_second;
     ImageGenerator.fetch := fun _ => Returned tt |}.

(** Mystic is chosen; 150 is refused as creative detailing, 0 is accepted. *)
Definition detailing_zero : ImageConfig.Answers :=
  {| ImageConfig.provider_pick := 1; ImageConfig.model_pick := 0;
     ImageConfig.engine_pick := 0; ImageConfig.resolution_pick := 1;
     ImageConfig.creative_detailing_entered := [150%Z; 0%Z];
     ImageConfig.style_pick := 2 |}.

Definition mystic_configuration : value :=
  match ImageConfig.configureImageGenerator detailing_zero with
  | Some config => config
  | None => VUndefined
  end.

(** A books directory with a hidden file and one book. *)
Definition shelf : Library.Shelf :=
  [ {| Library.entry_name := ".DS_Store"; Library.is_directory := false;
       Library.files := {| book_state_json := None; content_md := "";
                           image_files := [] |} |};
    {| Library.entry_name := "luna"; Library.is_directory := true;
       Library.files := {| book_state_json := Some new_book; content_md := "";
                           image_files := [] |} |} ].

Definition configuration : Library.Configuration :=
  {| Library.configured_chat := {| chatModel := "gpt-4"; temperature := 7 # 10 |};
     Library.configured_image := mystic_configuration;
     Library.configured_story := story |}.

(** A prompt of two parts. *)
Definition two_parts : string :=
  ("Essential Context:" ++ Cli.LF ++ "- Protagonist: Luna" ++ Cli.LF ++ Cli.LF
   ++ "Specific Instructions:" ++ Cli.LF ++ "- Keep it short")%string.

End Sessions.
(** ** Part II: properties *)

(** *** Pruning of the story variables *)
Module PromptBuilderFacts.
Import Js PromptBuilder.

Definition clean_items (items : list value) : list value :=
  map cleanObject (filter (fun item => negb (nullish item)) items).

Definition clean_step (acc : list (string * value)) (kv : string * value) :=
  let cleanValue := cleanObject (snd kv) in
  if keeps cleanValue then obj_set acc (fst kv) cleanValue else acc.

Lemma cleanObject_arr items :
  cleanObject (VArr items) =
  if (List.length (clean_items items) =? 0) then VUndefined else VArr (clean_items items).
Proof.
  unfold clean_items. cbn [cleanObject falsy typeof_object orb negb].
  match goal with |- (if List.length ?a =? 0 then _ else _) = (if List.length ?b =? 0 then _ else _) =>
    assert (E : a = b) end.
  { induction items as [|x r IH]; [reflexivity|].
    cbn [filter]. destruct (negb (nullish x)); cbn [map]; now rewrite IH. }
  now rewrite E.
Qed.

Lemma cleanObject_obj entries :
  cleanObject (VObj entries) =
  if (List.length (fold_left clean_step entries []) =? 0) then VUndefined
  else VObj (fold_left clean_step entries []).
Proof.
  cbn [cleanObject falsy typeof_object orb negb].
  match goal with |- (if List.length ?a =? 0 then _ else _) = (if List.length ?b =? 0 then _ else _) =>
    assert (E : a = b) end.
  { generalize (@nil (string * value)).
    induction entries as [|[k v] r IH]; intros acc; [reflexivity|].
    cbn [fold_left]. rewrite IH. reflexivity. }
  now rewrite E.
Qed.


Definition good_entry (kv : string * value) : bool :=
  negb (empty_leaf (snd kv)) && no_empty_keys (snd kv).

Lemma obj_set_good acc k v :
  forallb good_entry acc = true -> good_entry (k, v) = true ->
  forallb good_entry (obj_set acc k v) = true.
Proof.
  intros Ha Hv. induction acc as [|[k' v'] r IH]; cbn.
  - now rewrite Hv.
  - cbn in Ha. apply andb_true_iff in Ha as [H1 H2].
    destruct (k' =? k)%string; cbn.
    + unfold good_entry in Hv. cbn in Hv. unfold good_entry at 1. cbn. now rewrite Hv, H2.
    + rewrite H1. cbn. auto.
Qed.

Lemma keeps_not_empty_leaf v : keeps v = true -> empty_leaf v = false.
Proof.
  destruct v; cbn; try reflexivity.
  - unfold keeps. cbn. destruct (s =? "")%string; cbn; auto.
  - unfold keeps. cbn. destruct items; cbn; auto.
  - unfold keeps. cbn. destruct entries; cbn; auto.
Qed.

Lemma cleanObject_no_empty_keys x : no_empty_keys (cleanObject x) = true.
Proof.
  induction x as [| |b|n|s|items IH|entries IH] using value_ind; try reflexivity.
  - destruct b; reflexivity.
  - cbn. destruct (n =? 0)%Z; reflexivity.
  - cbn. destruct (s =? "")%string; reflexivity.
  - rewrite cleanObject_arr.
    destruct (List.length (clean_items items) =? 0); [reflexivity|].
    cbn [no_empty_keys]. unfold clean_items.
    induction IH as [|y r Hy Hr IHr]; [reflexivity|].
    cbn [filter]. destruct (negb (nullish y)); cbn [map forallb]; [rewrite Hy|]; auto.
  - rewrite cleanObject_obj.
    destruct (List.length (fold_left clean_step entries []) =? 0); [reflexivity|].
    cbn [no_empty_keys]. fold good_entry.
    assert (G : forall acc, forallb good_entry acc = true ->
                forallb good_entry (fold_left clean_step entries acc) = true).
    { induction IH as [|[k v] r Hv Hr IHr]; intros acc Hacc; [exact Hacc|].
      cbn [fold_left]. apply IHr. unfold clean_step. cbn [fst snd] in *.
      destruct (keeps (cleanObject v)) eqn:K; [|exact Hacc].
      apply obj_set_good; [exact Hacc|].
      unfold good_entry. cbn [snd]. rewrite (keeps_not_empty_leaf _ K), Hv. reflexivity. }
    apply G. reflexivity.
Qed.

(** C6: the context that [personalizeChapterContent] serializes, and more
    generally every output of [cleanObject], has no object key, at any
    depth, whose value is the empty string, the empty array or the empty
    object. *)
Theorem pruned_context_has_no_empty_keys :
  (forall storyVariables, no_empty_keys (context storyVariables) = true)
  /\ (forall x, no_empty_keys (cleanObject x) = true).
Proof.
  split.
  - intros storyVariables. apply cleanObject_no_empty_keys.
  - exact cleanObject_no_empty_keys.
Qed.

(** **** Pruning twice *)

(** C2: pruning is not idempotent.  An array element that is itself an
    empty array is kept by the filter and then cleaned to [undefined]; the
    first pass leaves that [undefined] in the array and only a second pass
    drops it, and with it the enclosing keys. *)
Theorem cleanObject_twice_differs :
  let x := VObj [("characters", VObj [("siblingsNamesAges", VArr [VArr []])])] in
  cleanObject x = VObj [("characters", VObj [("siblingsNamesAges", VArr [VUndefined])])]
  /\ cleanObject (cleanObject x) = VUndefined
  /\ cleanObject (cleanObject x) <> cleanObject x.
Proof. cbv zeta. split; [reflexivity|]. split; [reflexivity|]. discriminate. Qed.

(** The trees on which one pass is enough: no array, at any depth, has an
    element that cleaning turns into [undefined]. *)
Fixpoint settled (v : value) : bool :=
  match v with
  | VArr items =>
      forallb (fun item =>
                 nullish item || (negb (nullish (cleanObject item)) && settled item))
              items
  | VObj entries => forallb (fun kv => settled (snd kv)) entries
  | _ => true
  end.


Lemma clean_items_twice items :
  Forall (fun item => settled item = true ->
                      cleanObject (cleanObject item) = cleanObject item) items ->
  settled (VArr items) = true ->
  clean_items (clean_items items) = clean_items items.
Proof.
  unfold clean_items. cbn [settled].
  induction 1 as [|item rest Hitem _ IH]; intros Hs; [reflexivity|].
  cbn [forallb] in Hs. apply andb_true_iff in Hs as [Hi Hrest].
  cbn [filter]. destruct (nullish item) eqn:Hn; cbn [negb].
  - now apply IH.
  - cbn [orb] in Hi. apply andb_true_iff in Hi as [Hc Hset].
    cbn [map filter]. rewrite Hc. cbn [map].
    rewrite (Hitem Hset), (IH Hrest). reflexivity.
Qed.

(** The entries that a first pass has produced. *)
Definition cleaned_entry (kv : string * value) : Prop :=
  keeps (snd kv) = true /\ cleanObject (snd kv) = snd kv.

Lemma in_keys_obj_set acc k v x :
  In x (map fst (obj_set acc k v)) -> In x (map fst acc) \/ x = k.
Proof.
  induction acc as [|[k' v'] r IH]; cbn.
  - intros [H|[]]; auto.
  - destruct (k' =? k)%string; cbn; [tauto|].
    intros [H|H]; [auto|]. destruct (IH H); auto.
Qed.

Lemma obj_set_cleaned acc k v :
  NoDup (map fst acc) -> Forall cleaned_entry acc -> cleaned_entry (k, v) ->
  NoDup (map fst (obj_set acc k v)) /\ Forall cleaned_entry (obj_set acc k v).
Proof.
  intros Hnd Hall Hkv. induction acc as [|[k' v'] r IH]; cbn.
  - split; [constructor; [intros []|constructor]|now constructor].
  - cbn in Hnd. inversion Hnd as [|? ? Hnotin Hnd']; subst.
    inversion Hall as [|? ? Hhead Hall']; subst.
    destruct (k' =? k)%string eqn:E; cbn.
    + split; [now constructor|]. constructor; [exact Hkv|exact Hall'].
    + destruct (IH Hnd' Hall') as [IH1 IH2]. split.
      * constructor; [|exact IH1]. intros Hin.
        apply in_keys_obj_set in Hin as [Hin|Hin]; [contradiction|].
        subst k'. now rewrite String.eqb_refl in E.
      * now constructor.
Qed.

Lemma obj_set_fresh acc k v :
  ~ In k (map fst acc) -> obj_set acc k v = acc ++ [(k, v)].
Proof.
  induction acc as [|[k' v'] r IH]; cbn; intros Hn; [reflexivity|].
  destruct (k' =? k)%string eqn:E.
  - apply String.eqb_eq in E. tauto.
  - rewrite IH by tauto. reflexivity.
Qed.

Lemma fold_clean_step_cleaned entries :
  Forall (fun kv => settled (snd kv) = true ->
                    cleanObject (cleanObject (snd kv)) = cleanObject (snd kv)) entries ->
  settled (VObj entries) = true ->
  forall acc,
    NoDup (map fst acc) -> Forall cleaned_entry acc ->
    NoDup (map fst (fold_left clean_step entries acc))
    /\ Forall cleaned_entry (fold_left clean_step entries acc).
Proof.
  cbn [settled].
  induction 1 as [|[k v] rest Hkv _ IH]; intros Hs acc Hnd Hall; [now split|].
  cbn [forallb snd] in Hs. apply andb_true_iff in Hs as [Hv Hrest].
  cbn [fold_left]. unfold clean_step at 2 4. cbn [fst snd] in *.
  destruct (keeps (cleanObject v)) eqn:K.
  - destruct (obj_set_cleaned acc k (cleanObject v) Hnd Hall) as [H1 H2].
    { split; cbn; auto. }
    now apply IH.
  - now apply IH.
Qed.

Lemma fold_clean_step_rebuilds l :
  Forall cleaned_entry l ->
  forall acc, NoDup (map fst (acc ++ l)) -> fold_left clean_step l acc = acc ++ l.
Proof.
  induction 1 as [|[k v] rest [Hk Hv] _ IH]; intros acc Hnd.
  - now rewrite app_nil_r.
  - cbn [fold_left]. unfold clean_step at 2. cbn [fst snd] in *.
    rewrite Hv, Hk.
    assert (~ In k (map fst acc)) as Hfresh.
    { rewrite map_app in Hnd. cbn in Hnd.
      apply NoDup_remove_2 in Hnd. intros Hin. apply Hnd.
      apply in_or_app. now left. }
    rewrite (obj_set_fresh _ _ _ Hfresh).
    rewrite IH; rewrite <- app_assoc; [reflexivity|exact Hnd].
Qed.

(** On settled trees a second pass changes nothing. *)
Lemma cleanObject_idempotent_on_settled x :
  settled x = true -> cleanObject (cleanObject x) = cleanObject x.
Proof.
  induction x as [| |b|n|s|items IH|entries IH] using value_ind; intros Hs;
    try reflexivity.
  - destruct b; reflexivity.
  - cbn. destruct (n =? 0)%Z eqn:E; cbn; now rewrite ?E.
  - cbn. destruct (s =? "")%string eqn:E; cbn; now rewrite ?E.
  - rewrite cleanObject_arr.
    destruct (List.length (clean_items items) =? 0) eqn:E; [reflexivity|].
    rewrite cleanObject_arr, (clean_items_twice items IH Hs), E. reflexivity.
  - rewrite cleanObject_obj.
    destruct (List.length (fold_left clean_step entries []) =? 0) eqn:E; [reflexivity|].
    rewrite cleanObject_obj.
    destruct (fold_clean_step_cleaned entries IH Hs [] (NoDup_nil _) (Forall_nil _))
      as [Hnd Hall].
    rewrite (fold_clean_step_rebuilds _ Hall []) by exact Hnd.
    cbn [app]. rewrite E. reflexivity.
Qed.

End PromptBuilderFacts.

(** *** Illustration prompts *)
Module ImageStylesFacts.
Import ImageStyles.

Definition recognized_style (style : string) : bool :=
  existsb (fun s => (name s =? style)%string) DEFAULT_IMAGE_STYLE_PROMPT.
Definition recognized_preset (preset : string) : bool :=
  existsb (fun kv => (fst kv =? preset)%string) IMAGE_STYLE_PRESETS.

Definition first_style_prompt : string :=
  match DEFAULT_IMAGE_STYLE_PROMPT with s :: _ => prompt s | [] => "" end.

Lemma find_none_of_existsb {A} (f : A -> bool) l : existsb f l = false -> find f l = None.
Proof.
  induction l as [|a l IH]; cbn; [reflexivity|].
  destruct (f a); cbn; [discriminate|exact IH].
Qed.

Lemma append_assoc (a b c : string) : ((a ++ b) ++ c = a ++ (b ++ c))%string.
Proof. induction a as [|ch a IH]; cbn; [reflexivity|now rewrite IH]. Qed.

Lemma scene_suffix (base addon x : string) :
  ((base ++ " " ++ addon ++ " ") ++ "Scene: " ++ x
   = base ++ " " ++ addon ++ " Scene: " ++ x)%string.
Proof.
  rewrite append_assoc. f_equal. cbn. f_equal.
  rewrite append_assoc. reflexivity.
Qed.

(** Every style of the table is the one that its name selects and has a
    prompt, and every preset of the table is the one that its key selects. *)
Definition style_is_selected (s : Style) : bool :=
  match find (fun s' => (name s' =? name s)%string) DEFAULT_IMAGE_STYLE_PROMPT with
  | Some s' => (prompt s' =? prompt s)%string && negb (prompt s =? "")%string
  | None => false
  end.

Definition preset_is_selected (kv : string * Preset) : bool :=
  match lookup_preset IMAGE_STYLE_PRESETS (fst kv) with
  | Some p => (promptAddon p =? promptAddon (snd kv))%string
  | None => false
  end.

Lemma styles_are_selected : forallb style_is_selected DEFAULT_IMAGE_STYLE_PROMPT = true.
Proof. vm_compute. reflexivity. Qed.

Lemma presets_are_selected : forallb preset_is_selected IMAGE_STYLE_PRESETS = true.
Proof. vm_compute. reflexivity. Qed.

Lemma or_else_empty (a : string) : or_else a "" = a.
Proof.
  unfold or_else. destruct (a =? "")%string eqn:E; [|reflexivity].
  apply String.eqb_eq in E. now rewrite E.
Qed.

(** C8: for a non-empty description [x], an unrecognized style name gets
    the prompt of the first style of the table, whatever the preset, and an
    unrecognized preset name gets an empty addendum, whatever the style:
    - with an unrecognized style and a preset of the table, the result is
      the first style's prompt, the addendum of that preset and the scene;
    - with a style of the table and an unrecognized preset, the result is
      the prompt of that style, an empty addendum and the scene;
    - with both unrecognized, it is the first style's prompt, an empty
      addendum and the scene;
    - a style or a preset that is left out stands for "storybook" and for
      "emotionalCloseUp";
    and whatever the style and the preset the result ends with "Scene: "
    followed by [x]; so it does for style "unknown", preset "unknown" and
    description "x". *)
Theorem getIllustrationPrompt_fallbacks :
  (forall x style preset p,
      x <> "" -> recognized_style style = false ->
      In (preset, p) IMAGE_STYLE_PRESETS ->
      getIllustrationPrompt (Some x) (Some style) (Some preset)
      = Returned (first_style_prompt ++ " " ++ promptAddon p ++ " Scene: " ++ x)%string)
  /\ (forall x s preset,
      x <> "" -> In s DEFAULT_IMAGE_STYLE_PROMPT ->
      recognized_preset preset = false ->
      getIllustrationPrompt (Some x) (Some (name s)) (Some preset)
      = Returned (prompt s ++ " " ++ "" ++ " Scene: " ++ x)%string)
  /\ (forall x style preset,
      x <> "" -> recognized_style style = false -> recognized_preset preset = false ->
      getIllustrationPrompt (Some x) (Some style) (Some preset)
      = Returned (first_style_prompt ++ " " ++ "" ++ " Scene: " ++ x)%string)
  /\ (forall description style preset,
      getIllustrationPrompt description (Some style) None
      = getIllustrationPrompt description (Some style) (Some "emotionalCloseUp")
      /\ getIllustrationPrompt description None (Some preset)
         = getIllustrationPrompt description (Some "storybook") (Some preset))
  /\ (forall x style preset,
      x <> "" ->
      exists before,
        getIllustrationPrompt (Some x) style preset = Returned (before ++ "Scene: " ++ x)%string)
  /\ exists before,
      getIllustrationPrompt (Some "x") (Some "unknown") (Some "unknown")
      = Returned (before ++ "Scene: x")%string.
Proof.
  assert (Hends : forall x style preset, x <> "" -> exists before,
            getIllustrationPrompt (Some x) style preset
            = Returned (before ++ "Scene: " ++ x)%string).
  { intros x style preset Hx.
    unfold getIllustrationPrompt, illustrationPrompt.
    apply String.eqb_neq in Hx. rewrite Hx.
    set (addon := match lookup_preset _ _ with Some p => _ | None => _ end).
    set (found := match find _ _ with Some s => _ | None => _ end).
    destruct (found =? "")%string.
    - cbn [DEFAULT_IMAGE_STYLE_PROMPT].
      eexists. rewrite <- scene_suffix. reflexivity.
    - eexists. rewrite <- scene_suffix. reflexivity. }
  split; [|split; [|split; [|split; [|split]]]].
  - intros x style preset p Hx Hs Hp.
    pose proof (proj1 (forallb_forall _ _) presets_are_selected (preset, p) Hp) as Hp'.
    unfold preset_is_selected in Hp'. cbn [fst snd] in Hp'.
    unfold getIllustrationPrompt, illustrationPrompt.
    apply String.eqb_neq in Hx. rewrite Hx.
    unfold recognized_style in Hs. rewrite (find_none_of_existsb _ _ Hs).
    destruct (lookup_preset IMAGE_STYLE_PRESETS preset) as [p'|]; [|discriminate].
    apply String.eqb_eq in Hp'. rewrite Hp', or_else_empty. reflexivity.
  - intros x s preset Hx Hs Hp.
    pose proof (proj1 (forallb_forall _ _) styles_are_selected s Hs) as Hs'.
    unfold style_is_selected in Hs'.
    unfold getIllustrationPrompt, illustrationPrompt.
    apply String.eqb_neq in Hx. rewrite Hx.
    destruct (find _ DEFAULT_IMAGE_STYLE_PROMPT) as [s'|]; [|discriminate].
    apply andb_true_iff in Hs' as [E1 E2]. apply String.eqb_eq in E1.
    rewrite E1. apply negb_true_iff in E2. rewrite E2.
    unfold recognized_preset in Hp. unfold lookup_preset.
    rewrite (find_none_of_existsb _ _ Hp). reflexivity.
  - intros x style preset Hx Hs Hp.
    unfold getIllustrationPrompt, illustrationPrompt.
    apply String.eqb_neq in Hx. rewrite Hx.
    unfold recognized_style in Hs. rewrite (find_none_of_existsb _ _ Hs).
    unfold recognized_preset in Hp. unfold lookup_preset.
    rewrite (find_none_of_existsb _ _ Hp).
    reflexivity.
  - intros description style preset. split; reflexivity.
  - exact Hends.
  - apply (Hends "x" (Some "unknown") (Some "unknown")). discriminate.
Qed.

Lemma getIllustrationPrompt_fallbacks_witness :
  getIllustrationPrompt (Some "a fox") (Some "unknown") (Some "unknown")
  = Returned (first_style_prompt ++ " " ++ "" ++ " Scene: " ++ "a fox")%string
  /\ getIllustrationPrompt (Some "a fox") (Some "unknown") (Some "nightScene")
     = Returned
         (first_style_prompt ++ " "
          ++ "A nighttime setting with cool tones, stars or soft lighting."
          ++ " Scene: " ++ "a fox")%string
  /\ (exists s,
       name s = "watercolor"
       /\ getIllustrationPrompt (Some "a fox") (Some "watercolor") (Some "unknown")
          = Returned (prompt s ++ " " ++ "" ++ " Scene: " ++ "a fox")%string)
  /\ exists before,
      getIllustrationPrompt (Some "a fox") (Some "watercolor") None
      = Returned (before ++ "Scene: " ++ "a fox")%string.
Proof.
  split; [|split; [|split]].
  - apply (proj1 (proj2 (proj2 getIllustrationPrompt_fallbacks))
             "a fox" "unknown" "unknown").
    + discriminate.
    + vm_compute. reflexivity.
    + vm_compute. reflexivity.
  - apply (proj1 getIllustrationPrompt_fallbacks "a fox" "unknown" "nightScene"
             {| preset_name := "Night Scene";
                description := "Dark palette with light sources like lamps or moon. Calming or thoughtful.";
                promptAddon := "A nighttime setting with cool tones, stars or soft lighting." |}).
    + discriminate.
    + vm_compute. reflexivity.
    + cbn. tauto.
  - destruct (find (fun s => (name s =? "watercolor")%string) DEFAULT_IMAGE_STYLE_PROMPT)
      as [s|] eqn:Es; [|discriminate].
    apply find_some in Es as [Hin Hn]. apply String.eqb_eq in Hn.
    exists s. split; [exact Hn|]. rewrite <- Hn at 1.
    apply (proj1 (proj2 getIllustrationPrompt_fallbacks) "a fox" s "unknown").
    + discriminate.
    + exact Hin.
    + vm_compute. reflexivity.
  - apply (proj1 (proj2 (proj2 (proj2 (proj2 getIllustrationPrompt_fallbacks))))
             "a fox" (Some "watercolor") None).
    discriminate.
Defined.

End ImageStylesFacts.

(** *** Mystic status polling *)
Module MysticFacts.
Import Mystic.

Section PollingFacts.
Variable stringify : reply -> string.
Variable endpoint : nat -> reply.

(** The replies after which the loop goes on to the next poll. *)
Definition falls_through (r : reply) : Prop := attempt_body stringify r = inr tt.

Lemma processing_falls_through g : falls_through (Resolved "PROCESSING" g).
Proof. reflexivity. Qed.

Lemma completed_empty_falls_through g :
  has_generated g = false -> falls_through (Resolved "COMPLETED" g).
Proof. intros H. unfold falls_through. cbn. rewrite H. reflexivity. Qed.

Lemma poll_from_skip maxAttempts n : forall left attempt,
  n <= left ->
  (forall j, attempt <= j < attempt + n -> falls_through (endpoint j)) ->
  poll_from stringify endpoint maxAttempts left attempt =
  poll_from stringify endpoint maxAttempts (left - n) (attempt + n).
Proof.
  induction n as [|n IH]; intros left attempt Hle Hp.
  - now rewrite Nat.sub_0_r, Nat.add_0_r.
  - destruct left as [|left]; [lia|].
    cbn [poll_from]. rewrite (Hp attempt) by lia.
    rewrite IH by (try lia; intros; apply Hp; lia).
    f_equal; lia.
Qed.

Lemma poll_all_fall_through maxAttempts :
  (forall j, j < maxAttempts -> falls_through (endpoint j)) ->
  checkMysticTaskStatus stringify endpoint maxAttempts =
  {| outcome := Raised ("Timeout after " ++ dec maxAttempts ++ " attempts");
     polls := maxAttempts |}.
Proof.
  intros H. unfold checkMysticTaskStatus.
  rewrite (poll_from_skip maxAttempts maxAttempts) by (try lia; intros; apply H; lia).
  rewrite Nat.sub_diag. reflexivity.
Qed.

Lemma poll_ends_at maxAttempts k res :
  k < maxAttempts ->
  (forall j, j < k -> falls_through (endpoint j)) ->
  attempt_body stringify (endpoint k) = inl res ->
  checkMysticTaskStatus stringify endpoint maxAttempts =
  {| outcome := res; polls := S k |}.
Proof.
  intros Hk Hp He. unfold checkMysticTaskStatus.
  rewrite (poll_from_skip maxAttempts k) by (try lia; intros; apply Hp; lia).
  destruct (maxAttempts - k) as [|left] eqn:E; [lia|].
  cbn [poll_from plus]. rewrite He. reflexivity.
Qed.

(** C3: if the first [N - 1] polls answer PROCESSING and poll [N], with
    [N <= maxAttempts], answers COMPLETED with at least one generated
    URL, the function returns the first URL after [N] polls; if a poll
    answers FAILED, the function raises at once, with no further poll; if
    every poll answers PROCESSING, it raises the timeout error after
    exactly [maxAttempts] polls. *)
Theorem mystic_status_sequences maxAttempts :
  (forall N url more,
      1 <= N <= maxAttempts ->
      (forall k, k < N - 1 -> exists g, endpoint k = Resolved "PROCESSING" g) ->
      endpoint (N - 1) = Resolved "COMPLETED" (Some (url :: more)) ->
      checkMysticTaskStatus stringify endpoint maxAttempts =
      {| outcome := Returned url; polls := N |})
  /\ (forall k g,
      k < maxAttempts ->
      (forall j, j < k -> falls_through (endpoint j)) ->
      endpoint k = Resolved "FAILED" g ->
      checkMysticTaskStatus stringify endpoint maxAttempts =
      {| outcome := Raised ("Error checking task status: Task failed: "
                            ++ stringify (Resolved "FAILED" g));
         polls := S k |})
  /\ ((forall k, k < maxAttempts -> exists g, endpoint k = Resolved "PROCESSING" g) ->
      checkMysticTaskStatus stringify endpoint maxAttempts =
      {| outcome := Raised ("Timeout after " ++ dec maxAttempts ++ " attempts");
         polls := maxAttempts |}).
Proof.
  split; [|split].
  - intros N url more HN Hproc Hdone.
    rewrite (poll_ends_at maxAttempts (N - 1) (Returned url)).
    + f_equal. lia.
    + lia.
    + intros j Hj. destruct (Hproc j Hj) as [g ->]. apply processing_falls_through.
    + rewrite Hdone. reflexivity.
  - intros k g Hk Hp Hf.
    apply poll_ends_at; [exact Hk|exact Hp|].
    rewrite Hf. reflexivity.
  - intros Hproc. apply poll_all_fall_through.
    intros j Hj. destruct (Hproc j Hj) as [g ->]. apply processing_falls_through.
Qed.

(** C10: a COMPLETED answer whose list of generated assets is empty or
    missing neither returns nor raises, the loop goes on; and if every
    poll up to [maxAttempts] answers that way, the function raises the
    timeout error and returns no URL. *)
Theorem mystic_completed_without_assets maxAttempts :
  (forall g, has_generated g = false ->
      attempt_body stringify (Resolved "COMPLETED" g) = inr tt)
  /\ ((forall k, k < maxAttempts ->
         exists g, has_generated g = false /\ endpoint k = Resolved "COMPLETED" g) ->
      checkMysticTaskStatus stringify endpoint maxAttempts =
      {| outcome := Raised ("Timeout after " ++ dec maxAttempts ++ " attempts");
         polls := maxAttempts |}).
Proof.
  split.
  - apply completed_empty_falls_through.
  - intros H. apply poll_all_fall_through.
    intros j Hj. destruct (H j Hj) as [g [Hg ->]].
    now apply completed_empty_falls_through.
Qed.
End PollingFacts.

(** Three mocked endpoints: done at the third poll, failed at the second,
    and never done. *)
Definition done_at_third (k : nat) : reply :=
  if k <? 2 then Resolved "PROCESSING" None
  else Resolved "COMPLETED" (Some ["https://cdn.example/one.png"; "https://cdn.example/two.png"]).

Definition failed_at_second (k : nat) : reply :=
  if k <? 1 then Resolved "PROCESSING" None else Resolved "FAILED" None.

Definition never_done (k : nat) : reply := Resolved "PROCESSING" None.

Definition no_assets (k : nat) : reply :=
  if Nat.even k then Resolved "COMPLETED" (Some []) else Resolved "COMPLETED" None.

Definition plain (r : reply) : string := "{}".

Lemma mystic_status_sequences_witness :
  checkMysticTaskStatus plain done_at_third 5
  = {| outcome := Returned "https://cdn.example/one.png"; polls := 3 |}
  /\ checkMysticTaskStatus plain failed_at_second 5
     = {| outcome := Raised "Error checking task status: Task failed: {}"; polls := 2 |}
  /\ checkMysticTaskStatus plain never_done 5
     = {| outcome := Raised "Timeout after 5 attempts"; polls := 5 |}.
Proof.
  split; [|split].
  - apply (proj1 (mystic_status_sequences plain done_at_third 5) 3
             "https://cdn.example/one.png" ["https://cdn.example/two.png"]).
    + lia.
    + intros k Hk. exists None. unfold done_at_third.
      destruct k as [|[|k]]; [reflexivity|reflexivity|lia].
    + reflexivity.
  - apply (proj1 (proj2 (mystic_status_sequences plain failed_at_second 5)) 1 None).
    + lia.
    + intros j Hj. destruct j as [|j]; [reflexivity|lia].
    + reflexivity.
  - apply (proj2 (proj2 (mystic_status_sequences plain never_done 5))).
    intros k Hk. exists None. reflexivity.
Defined.

Lemma mystic_completed_without_assets_witness :
  attempt_body plain (Resolved "COMPLETED" (Some [])) = inr tt
  /\ checkMysticTaskStatus plain no_assets 4
     = {| outcome := Raised "Timeout after 4 attempts"; polls := 4 |}.
Proof.
  split.
  - apply (proj1 (mystic_completed_without_assets plain no_assets 4) (Some [])).
    reflexivity.
  - apply (proj2 (mystic_completed_without_assets plain no_assets 4)).
    intros k Hk. unfold no_assets.
    destruct (Nat.even k); [exists (Some [])|exists None]; split; reflexivity.
Defined.

End MysticFacts.

(** *** Book state initialization *)
Module BookStateFacts.
Import BookState.

Section Lessons.
Variable BOOK_CONTENT : list Lesson.

(** The chapter ids that one lesson contributes, in the order of its topics. *)
Definition lesson_chapter_ids (lesson : Lesson) : list string :=
  map (fun topic => (lesson_id lesson ++ "_" ++ key topic)%string) (topics lesson).

Lemma fold_push {A B : Type} (f : A -> B) (l : list A) (acc : list B) :
  fold_left (fun chapters a => push chapters (f a)) l acc = acc ++ map f l.
Proof.
  revert acc. induction l as [|a l IH]; intros acc; cbn.
  - now rewrite app_nil_r.
  - rewrite IH. unfold push. now rewrite <- app_assoc.
Qed.

Lemma fold_fold_push {A B C : Type} (f : A -> B -> C) (sub : A -> list B)
    (l : list A) (acc : list C) :
  fold_left (fun chapters a =>
               fold_left (fun chapters b => push chapters (f a b)) (sub a) chapters)
            l acc
  = acc ++ flat_map (fun a => map (f a) (sub a)) l.
Proof.
  revert acc. induction l as [|a l IH]; intros acc; cbn.
  - now rewrite app_nil_r.
  - rewrite IH, fold_push. now rewrite <- app_assoc.
Qed.

Lemma initializeChaptersFromLessons_shape :
  exists introduction middle conclusion,
    initializeChaptersFromLessons BOOK_CONTENT
    = introduction :: middle ++ [conclusion]
    /\ id introduction = "introduction"
    /\ id conclusion = "conclusion"
    /\ map id middle = flat_map lesson_chapter_ids BOOK_CONTENT.
Proof.
  unfold initializeChaptersFromLessons.
  rewrite fold_fold_push. unfold push. cbn [app].
  do 3 eexists. split; [reflexivity|].
  split; [reflexivity|]. split; [reflexivity|].
  induction BOOK_CONTENT as [|lesson rest IH]; [reflexivity|].
  cbn [flat_map]. rewrite map_app, IH. f_equal.
  unfold lesson_chapter_ids. rewrite map_map. reflexivity.
Qed.

(** C5: with the lesson table fixed, the chapters of a new book do not
    depend on the title or on the time of the call, so two calls give the
    same sequence of chapter ids; the sequence starts with "introduction",
    ends with "conclusion", and has in between one id
    "<lessonId>_<topicKey>" per lesson and topic, in the order of the
    table. *)
Theorem initializeBookState_chapter_ids :
  (forall title1 now1 title2 now2,
      map id (chapters (initializeBookState BOOK_CONTENT title1 now1))
      = map id (chapters (initializeBookState BOOK_CONTENT title2 now2)))
  /\ (forall title now,
      exists introduction middle conclusion,
        chapters (initializeBookState BOOK_CONTENT title now)
        = introduction :: middle ++ [conclusion]
        /\ id introduction = "introduction"
        /\ id conclusion = "conclusion"
        /\ map id middle = flat_map lesson_chapter_ids BOOK_CONTENT
        /\ List.length middle
           = list_sum (map (fun lesson => List.length (topics lesson)) BOOK_CONTENT)).
Proof.
  split; [reflexivity|].
  intros title now. cbn [initializeBookState chapters].
  destruct initializeChaptersFromLessons_shape
    as (introduction & middle & conclusion & Heq & Hi & Hc & Hm).
  exists introduction, middle, conclusion.
  repeat split; try assumption.
  rewrite <- (length_map id middle), Hm.
  clear. induction BOOK_CONTENT as [|lesson rest IH]; [reflexivity|].
  cbn [flat_map map list_sum]. rewrite length_app, IH.
  unfold lesson_chapter_ids. now rewrite length_map.
Qed.
End Lessons.

End BookStateFacts.

(** *** Next chapter needing attention *)
Module NextChapterFacts.
Import BookState Cli.

(** The position that the book menu hands to [handleChapter] is that of the
    element [find] returns. *)
Lemma find_index_find {A : Type} (f : A -> bool) (l : list A) :
  match find_index f l with
  | Some ix => nth_error l ix = find f l
  | None => find f l = None
  end.
Proof.
  induction l as [|x r IH]; cbn; [reflexivity|].
  destruct (f x); cbn; [reflexivity|].
  destruct (find_index f r); cbn; exact IH.
Qed.

Lemma status_eqb_eq a b : status_eqb a b = true <-> a = b.
Proof. destruct a, b; cbn; split; congruence. Qed.

(** C9: [getNextChapter] never returns an accepted chapter; it returns the
    first chapter, in book order, whose status is not "accepted", and
    nothing when every chapter is accepted. *)
Theorem getNextChapter_first_unaccepted (chapters : list Chapter) :
  match getNextChapter chapters with
  | Some chapter =>
      status chapter <> accepted
      /\ exists before after,
          chapters = before ++ chapter :: after
          /\ Forall (fun earlier => status earlier = accepted) before
  | None => Forall (fun chapter => status chapter = accepted) chapters
  end
  /\ (Forall (fun chapter => status chapter = accepted) chapters ->
      getNextChapter chapters = None).
Proof.
  unfold getNextChapter. split.
  - induction chapters as [|c r IH]; cbn; [constructor|].
    destruct (status_eqb (status c) accepted) eqn:E; cbn.
    + apply status_eqb_eq in E.
      destruct (find _ r) as [found|].
      * destruct IH as [Hn (before & after & Heq & Hall)].
        split; [exact Hn|].
        exists (c :: before), after. split; [now rewrite Heq|].
        now constructor.
      * now constructor.
    + split.
      * intros H. apply status_eqb_eq in H. congruence.
      * exists [], r. split; [reflexivity|constructor].
  - induction 1 as [|c r Hc Hr IH]; cbn; [reflexivity|].
    apply status_eqb_eq in Hc. now rewrite Hc.
Qed.

Lemma getNextChapter_first_unaccepted_witness :
  getNextChapter
    (map (with_status accepted) (chapters Samples.new_book)) = None.
Proof.
  apply (proj2 (getNextChapter_first_unaccepted
                  (map (with_status accepted) (chapters Samples.new_book)))).
  vm_compute. repeat constructor.
Defined.

End NextChapterFacts.
(** *** The chapter workflow *)
Module CliFacts.
Import Js BookState Cli.

(** A status write is in order when it does not take a chapter from
    "not_generated" straight to "accepted". *)
Definition good_write (sw : StatusWrite) : Prop :=
  status_after sw = accepted -> status_before sw <> not_generated.

(** [w'] is [w] after some more status writes, all of them in order. *)
Definition extends_well (w w' : World) : Prop :=
  exists news,
    status_writes w' = status_writes w ++ news /\ Forall good_write news.

Lemma extends_well_refl w : extends_well w w.
Proof. exists []. split; [now rewrite app_nil_r|constructor]. Qed.

Lemma extends_well_trans w1 w2 w3 :
  extends_well w1 w2 -> extends_well w2 w3 -> extends_well w1 w3.
Proof.
  intros (n1 & E1 & G1) (n2 & E2 & G2). exists (n1 ++ n2). split.
  - now rewrite E2, E1, app_assoc.
  - apply Forall_app. now split.
Qed.

Lemma extends_well_same w w' :
  status_writes w' = status_writes w -> extends_well w w'.
Proof. intros E. exists []. split; [now rewrite app_nil_r|constructor]. Qed.

Lemma nth_error_replace_at {A : Type} (l : list A) ix a old :
  nth_error l ix = Some old -> nth_error (replace_at ix a l) ix = Some a.
Proof.
  revert ix. induction l as [|x r IH]; intros [|ix] H; cbn in *; try discriminate.
  - reflexivity.
  - now apply IH.
Qed.

Ltac break_match :=
  match goal with
  | |- context [match ?x with _ => _ end] => destruct x eqn:?
  end.

Section Workflow.
Variable trim : string -> string.
Variable to_string : value -> string.
Variable stringify : value -> string.
Variable buildChapterPrompt : string -> list string -> value -> string.
Variable buildIntroductionPrompt : value -> string.

#[local] Abbreviation generateChapter := (generateChapter trim buildChapterPrompt).
#[local] Abbreviation handleImageGeneration_from := (handleImageGeneration_from to_string).
#[local] Abbreviation handleImageGeneration := (handleImageGeneration to_string).
#[local] Abbreviation generation_loop := (generation_loop trim to_string stringify buildChapterPrompt).
#[local] Abbreviation generateChapterContent :=
  (generateChapterContent trim to_string stringify buildChapterPrompt buildIntroductionPrompt).
#[local] Abbreviation handleChapter_from :=
  (handleChapter_from trim to_string stringify buildChapterPrompt buildIntroductionPrompt).
#[local] Abbreviation handleChapter :=
  (handleChapter trim to_string stringify buildChapterPrompt buildIntroductionPrompt).
#[local] Abbreviation book_menu_loop :=
  (book_menu_loop trim to_string stringify buildChapterPrompt buildIntroductionPrompt).
#[local] Abbreviation manageBook :=
  (manageBook trim to_string stringify buildChapterPrompt buildIntroductionPrompt).

(** The statuses of the chapters, in book order. *)
Definition statuses (w : World) : list Status := map status (chapters (memory w)).

(** Commands that change no chapter status and leave the history of
    status writes alone. *)
Definition calm {A : Type} (m : M A) : Prop :=
  forall w, statuses (snd (m w)) = statuses w
            /\ status_writes (snd (m w)) = status_writes w.

Lemma calm_bind {A B : Type} (m : M A) (k : A -> M B) :
  calm m -> (forall a, calm (k a)) -> calm (bind m k).
Proof.
  intros Hm Hk w. unfold bind. specialize (Hm w).
  destruct (m w) as [[a|e|] w']; cbn in *; try exact Hm.
  destruct (Hk a w') as [H1 H2]. destruct Hm as [H3 H4].
  split; congruence.
Qed.

Lemma calm_try_catch {A : Type} (m : M A) (h : string -> M A) :
  calm m -> (forall e, calm (h e)) -> calm (try_catch m h).
Proof.
  intros Hm Hh w. unfold try_catch. specialize (Hm w).
  destruct (m w) as [[a|e|] w']; cbn in *; try exact Hm.
  destruct (Hh e w') as [H1 H2]. destruct Hm as [H3 H4].
  split; congruence.
Qed.

Lemma calm_ret {A : Type} (a : A) : calm (ret a).
Proof. intros w. split; reflexivity. Qed.
Lemma calm_throw {A : Type} e : calm (@throw A e).
Proof. intros w. split; reflexivity. Qed.
Lemma calm_halt {A : Type} : calm (@halt A).
Proof. intros w. split; reflexivity. Qed.

Ltac calm_prim :=
  let w := fresh "w" in
  intros w; cbv beta zeta delta [get_memory get_chapter now saveBookState
    loadBookState append_content write_image_file copy_image_file log_openai
    ask_prompt_review ask_chapter_menu await_chat ask_content_review ask_style
    ask_preset await_scene ask_scene_action ask_image_prompt_review await_image
    ask_image_action ask_book_menu ask_chapter_pick configureStoryVariables
    configureOpenAI];
  repeat break_match; split; reflexivity.

Create HintDb calm.
#[local] Hint Resolve calm_ret calm_throw calm_halt : calm.

Lemma calm_get_memory : calm get_memory. Proof. calm_prim. Qed.
Lemma calm_get_chapter ix : calm (get_chapter ix). Proof. calm_prim. Qed.
Lemma calm_now : calm now. Proof. calm_prim. Qed.
Lemma calm_saveBookState : calm saveBookState. Proof. calm_prim. Qed.
Lemma calm_loadBookState : calm loadBookState. Proof. calm_prim. Qed.
Lemma calm_append_content s : calm (append_content s). Proof. calm_prim. Qed.
Lemma calm_write_image_file s d : calm (write_image_file s d). Proof. calm_prim. Qed.
Lemma calm_copy_image_file s t : calm (copy_image_file s t). Proof. calm_prim. Qed.
Lemma calm_log_openai e : calm (log_openai e). Proof. calm_prim. Qed.
Lemma calm_ask_prompt_review : calm ask_prompt_review. Proof. calm_prim. Qed.
Lemma calm_ask_chapter_menu : calm ask_chapter_menu. Proof. calm_prim. Qed.
Lemma calm_await_chat : calm await_chat. Proof. calm_prim. Qed.
Lemma calm_ask_content_review : calm ask_content_review. Proof. calm_prim. Qed.
Lemma calm_ask_style : calm ask_style. Proof. calm_prim. Qed.
Lemma calm_ask_preset : calm ask_preset. Proof. calm_prim. Qed.
Lemma calm_await_scene : calm await_scene. Proof. calm_prim. Qed.
Lemma calm_ask_scene_action : calm ask_scene_action. Proof. calm_prim. Qed.
Lemma calm_ask_image_prompt_review : calm ask_image_prompt_review. Proof. calm_prim. Qed.
Lemma calm_await_image : calm await_image. Proof. calm_prim. Qed.
Lemma calm_ask_image_action : calm ask_image_action. Proof. calm_prim. Qed.
Lemma calm_ask_book_menu : calm ask_book_menu. Proof. calm_prim. Qed.
Lemma calm_ask_chapter_pick : calm ask_chapter_pick. Proof. calm_prim. Qed.
Lemma calm_configureStoryVariables : calm configureStoryVariables. Proof. calm_prim. Qed.
Lemma calm_configureOpenAI : calm configureOpenAI. Proof. calm_prim. Qed.

#[local] Hint Resolve calm_get_memory calm_get_chapter calm_now
  calm_saveBookState calm_loadBookState calm_append_content
  calm_write_image_file calm_copy_image_file calm_log_openai calm_ask_prompt_review
  calm_ask_chapter_menu calm_await_chat calm_ask_content_review
  calm_ask_style calm_ask_preset calm_await_scene calm_ask_scene_action
  calm_ask_image_prompt_review calm_await_image calm_ask_image_action
  calm_ask_book_menu calm_ask_chapter_pick calm_configureStoryVariables
  calm_configureOpenAI : calm.

Lemma map_replace_at {A B : Type} (f : A -> B) ix a l :
  map f (replace_at ix a l) = replace_at ix (f a) (map f l).
Proof.
  revert ix. induction l as [|x r IH]; intros [|ix]; cbn; try reflexivity.
  now rewrite IH.
Qed.

Lemma replace_at_same {A : Type} (l : list A) ix a :
  nth_error l ix = Some a -> replace_at ix a l = l.
Proof.
  revert ix. induction l as [|x r IH]; intros [|ix] H; cbn in *; try discriminate.
  - now inversion H.
  - now rewrite IH.
Qed.

(** An update of a chapter that leaves its [status] alone. *)
Lemma calm_update_chapter ix f :
  (forall c, status (f c) = status c) -> calm (update_chapter ix f).
Proof.
  intros Hf w. unfold update_chapter, get_chapter, get_memory, put_memory, bind.
  destruct (nth_error (chapters (memory w)) ix) as [c|] eqn:Hc; cbn;
    [|split; reflexivity].
  split; [|reflexivity]. unfold statuses. cbn.
  rewrite map_replace_at, Hf. apply replace_at_same.
  now rewrite nth_error_map, Hc.
Qed.

(** [bookState.field = value] for a field other than [chapters]. *)
Lemma calm_assign {A : Type} (f : BookState -> BookState) (k : unit -> M A) :
  (forall b, chapters (f b) = chapters b) -> (forall u, calm (k u)) ->
  calm (bind get_memory (fun bookState => bind (put_memory (f bookState)) k)).
Proof.
  intros Hf Hk w. unfold bind, get_memory, put_memory.
  destruct (Hk tt (with_memory (f (memory w)) w)) as [H1 H2].
  rewrite H1, H2. unfold statuses. cbn. now rewrite Hf.
Qed.

(** Splits a command into its parts, down to the primitive ones. *)
Ltac calm_step :=
  match goal with
  | |- calm (bind get_memory (fun b => bind (put_memory _) _)) =>
      apply calm_assign; [intros ?; reflexivity|intros ?]
  | |- calm (bind _ _) => apply calm_bind; [|intros ?]
  | |- calm (try_catch _ _) => apply calm_try_catch; [|intros ?]
  | |- calm (update_chapter _ _) =>
      apply calm_update_chapter;
      let c := fresh "c" in intros c; try destruct (image c); reflexivity
  | |- calm (match ?x with _ => _ end) => destruct x
  | |- calm (if ?x then _ else _) => destruct x
  | |- calm (let _ := _ in _) => cbv zeta
  | |- calm _ => solve [auto with calm]
  end.

Lemma calm_member v k : calm (member v k).
Proof. unfold member. repeat calm_step. Qed.

Lemma calm_the_chatConfig : calm the_chatConfig.
Proof. unfold the_chatConfig. repeat calm_step. Qed.

Lemma calm_lift {A : Type} (r : result A) : calm (lift r).
Proof. unfold lift. repeat calm_step. Qed.

#[local] Hint Resolve calm_member calm_the_chatConfig calm_lift : calm.

Lemma calm_generateChapter t s v p m q : calm (generateChapter t s v p m q).
Proof. unfold Cli.generateChapter. repeat calm_step. Qed.

Lemma calm_selectSceneForImage t p c : calm (selectSceneForImage t p c).
Proof. unfold selectSceneForImage. repeat calm_step. Qed.

Lemma calm_generateImage c p o : calm (generateImage c p o).
Proof. unfold generateImage. repeat calm_step. Qed.

Lemma calm_first_value v : calm (first_value v).
Proof. unfold first_value. repeat calm_step. Qed.

Lemma calm_minimalVariables : calm minimalVariables.
Proof. unfold minimalVariables. repeat calm_step. Qed.

Lemma calm_reviewPrompt p : calm (reviewPrompt p).
Proof. unfold reviewPrompt. repeat calm_step. Qed.

Lemma calm_reviewContent c : calm (reviewContent c).
Proof. unfold reviewContent. auto with calm. Qed.

Lemma calm_selectChapter : calm selectChapter.
Proof. unfold selectChapter. repeat calm_step. Qed.

#[local] Hint Resolve calm_generateChapter calm_selectSceneForImage calm_generateImage
  calm_first_value calm_minimalVariables calm_reviewPrompt calm_reviewContent
  calm_selectChapter : calm.

(** The image workflow changes the image of a chapter, never its status. *)
Lemma calm_handleImageGeneration_from picks ix :
  calm (handleImageGeneration_from picks ix).
Proof.
  induction picks as [|p picks IH]; cbn [Cli.handleImageGeneration_from];
    repeat calm_step.
Qed.

Lemma calm_handleImageGeneration ix : calm (handleImageGeneration ix).
Proof. intros w. apply calm_handleImageGeneration_from. Qed.

#[local] Hint Resolve calm_handleImageGeneration : calm.

(** Commands that leave the history of status writes alone. *)
Definition quiet {A : Type} (m : M A) : Prop :=
  forall w, status_writes (snd (m w)) = status_writes w.

Lemma calm_quiet {A : Type} (m : M A) : calm m -> quiet m.
Proof. intros H w. apply H. Qed.

Lemma quiet_put_memory b : quiet (put_memory b).
Proof. intros w. reflexivity. Qed.

Lemma quiet_update_chapter ix f : quiet (update_chapter ix f).
Proof.
  intros w. unfold update_chapter, get_chapter, get_memory, put_memory, bind.
  destruct (nth_error (chapters (memory w)) ix); reflexivity.
Qed.

(** **** Status writes along the workflow *)

(** [m] started in a world with [P] returns in one with [Q], or stops
    (throwing or waiting for an answer) in one with [E]. *)
Definition triple {A : Type} (P : World -> Prop) (m : M A)
    (Q : A -> World -> Prop) (E : World -> Prop) : Prop :=
  forall w, P w ->
    match m w with
    | (Ret a, w') => Q a w'
    | (_, w') => E w'
    end.

Lemma triple_bind {A B : Type} P (m : M A) (k : A -> M B) Q R E :
  triple P m Q E -> (forall a, triple (Q a) (k a) R E) -> triple P (bind m k) R E.
Proof.
  intros Hm Hk w HP. unfold bind. specialize (Hm w HP).
  destruct (m w) as [[a|e|] w']; try exact Hm.
  apply Hk, Hm.
Qed.

Lemma triple_try_catch {A : Type} P (m : M A) (h : string -> M A) Q E :
  triple P m Q E -> (forall e, triple E (h e) Q E) -> triple P (try_catch m h) Q E.
Proof.
  intros Hm Hh w HP. unfold try_catch. specialize (Hm w HP).
  destruct (m w) as [[a|e|] w']; try exact Hm.
  apply Hh, Hm.
Qed.

Lemma triple_ret {A : Type} (P : World -> Prop) (a : A) (Q : A -> World -> Prop) E :
  (forall w, P w -> Q a w) -> triple P (ret a) Q E.
Proof. intros H w HP. cbn. auto. Qed.

Lemma triple_weaken {A : Type} (P P' : World -> Prop) (m : M A) Q E :
  (forall w, P' w -> P w) -> triple P m Q E -> triple P' m Q E.
Proof. intros H Hm w HP. apply Hm, H, HP. Qed.

(** A command that is given something read from the world it starts in. *)
Lemma triple_call {A B : Type} P (g : World -> B) (f : B -> M A) Q E :
  (forall b, triple P (f b) Q E) -> triple P (fun w => f (g w) w) Q E.
Proof. intros H w HP. exact (H (g w) w HP). Qed.

Section From.
(** The world in which the command under study starts. *)
Variable w0 : World.

Definition inv (w : World) : Prop := extends_well w0 w.

Lemma triple_quiet {A : Type} (m : M A) :
  quiet m -> triple inv m (fun _ => inv) inv.
Proof.
  intros Hq w HI. specialize (Hq w).
  assert (inv (snd (m w))) as H
    by (eapply extends_well_trans; [exact HI|now apply extends_well_same]).
  destruct (m w) as [[a|e|] w']; exact H.
Qed.

(** A write that cannot be out of order. *)
Lemma triple_set_status ix s (P : World -> Prop) :
  (forall w c, P w -> nth_error (chapters (memory w)) ix = Some c ->
               s = accepted -> status c <> not_generated) ->
  (forall w, P w -> inv w) ->
  triple P (set_status ix s)
    (fun _ w => inv w /\ exists c, nth_error (chapters (memory w)) ix = Some c
                                   /\ status c = s)
    inv.
Proof.
  intros Hgood HI w HP. specialize (Hgood w). specialize (HI w HP).
  unfold set_status, update_chapter, get_chapter, get_memory, put_memory,
    record_status_write, bind.
  destruct (nth_error (chapters (memory w)) ix) as [c|] eqn:Hc; [|exact HI].
  cbn. rewrite Hc. cbn. split.
  - eapply extends_well_trans; [exact HI|].
    eexists. split; [reflexivity|].
    constructor; [|constructor].
    intros Hs. cbn in *. now apply (Hgood c).
  - exists (with_status s c). split; [|reflexivity].
    now apply nth_error_replace_at with (old := c).
Qed.

Lemma triple_set_status_other ix s :
  s <> accepted -> triple inv (set_status ix s) (fun _ => inv) inv.
Proof.
  intros Hs w HP.
  pose proof (triple_set_status ix s inv) as H.
  specialize (H (fun _ _ _ _ Hacc => False_ind _ (Hs Hacc)) (fun _ HI => HI) w HP).
  destruct (set_status ix s w) as [[a|e|] w']; [apply H|exact H|exact H].
Qed.

(** The status of chapter [ix] is [s]. *)
Definition status_is (ix : nat) (s : Status) (w : World) : Prop :=
  exists c, nth_error (chapters (memory w)) ix = Some c /\ status c = s.

(** Commands that touch neither the book state in memory nor the
    history of status writes. *)
Definition silent {A : Type} (m : M A) : Prop :=
  forall w, memory (snd (m w)) = memory w
            /\ status_writes (snd (m w)) = status_writes w.

Lemma triple_silent {A : Type} (m : M A) ix s :
  silent m ->
  triple (fun w => inv w /\ status_is ix s w) m
    (fun _ w => inv w /\ status_is ix s w) inv.
Proof.
  intros Hs w [HI HS]. destruct (Hs w) as [Hm Hw].
  assert (inv (snd (m w))) as H1
    by (eapply extends_well_trans; [exact HI|now apply extends_well_same]).
  assert (status_is ix s (snd (m w))) as H2
    by (unfold status_is; now rewrite Hm).
  destruct (m w) as [[a|e|] w']; auto.
Qed.

Lemma silent_now : silent now.
Proof. intros w. split; reflexivity. Qed.
Lemma silent_saveBookState : silent saveBookState.
Proof. intros w. split; reflexivity. Qed.
Lemma silent_ask_content_review : silent ask_content_review.
Proof.
  intros w. unfold ask_content_review. cbv zeta.
  destruct (content_reviews (chapter_answers w)); split; reflexivity.
Qed.
Lemma silent_ask_chapter_menu : silent ask_chapter_menu.
Proof.
  intros w. unfold ask_chapter_menu. cbv zeta.
  destruct (chapter_menu (chapter_answers w)); split; reflexivity.
Qed.

(** An update that leaves [status] alone. *)
Lemma triple_update_chapter ix f s :
  (forall c, status (f c) = status c) ->
  triple (fun w => inv w /\ status_is ix s w) (update_chapter ix f)
    (fun _ w => inv w /\ status_is ix s w) inv.
Proof.
  intros Hf w [HI (c & Hc & Hs)].
  unfold update_chapter, get_chapter, get_memory, put_memory, bind.
  rewrite Hc. cbn. split.
  - eapply extends_well_trans; [exact HI|now apply extends_well_same].
  - exists (f c). split; [now apply nth_error_replace_at with (old := c)|].
    now rewrite Hf.
Qed.

Lemma triple_get_chapter ix (P : World -> Prop) E :
  (forall w, P w -> E w) ->
  triple P (get_chapter ix)
    (fun c w => P w /\ nth_error (chapters (memory w)) ix = Some c) E.
Proof.
  intros HE w HP. unfold get_chapter.
  destruct (nth_error (chapters (memory w)) ix) eqn:Hc; auto.
Qed.

(** Splits a command whose parts all keep [inv]. *)
Ltac inv_step :=
  match goal with
  | |- triple _ (bind (set_status _ accepted) _) _ _ => fail 1
  | |- triple _ (bind (set_status _ generated) _) _ _ => fail 1
  | |- triple inv (bind _ _) _ inv =>
      apply triple_bind with (Q := fun _ => inv); [|intros ?]
  | |- triple inv (try_catch _ _) _ inv => apply triple_try_catch; [|intros ?]
  | |- triple inv (set_status _ wip) _ inv =>
      apply triple_set_status_other; discriminate
  | |- triple inv (ret _) _ inv => apply triple_ret; intros ? H; exact H
  | |- triple inv (match ?x with _ => _ end) _ inv => destruct x
  | |- triple inv (if ?x then _ else _) _ inv => destruct x
  | |- triple inv (let _ := _ in _) _ inv => cbv zeta
  | |- triple inv _ _ inv => assumption
  | H : forall _, triple inv _ _ inv |- triple inv _ _ inv => apply H
  | |- triple inv _ _ inv =>
      solve [apply triple_quiet;
             first [apply quiet_put_memory | apply quiet_update_chapter
                   | apply calm_quiet; auto with calm]]
  end.

Lemma generation_loop_inv reviews ix isIntroduction :
  forall prompt,
    triple inv (generation_loop reviews ix isIntroduction prompt) (fun _ => inv) inv.
Proof.
  induction reviews as [|r reviews IH]; intros prompt;
    cbn [Cli.generation_loop]; repeat inv_step.
  (* the chapter is written as generated, then reviewed *)
  eapply triple_bind.
  { apply (triple_set_status ix generated inv); [discriminate|auto]. }
  intros ?. fold (status_is ix generated).
  eapply triple_bind; [apply triple_silent, silent_now|]. intros stamp.
  eapply triple_bind; [apply triple_update_chapter; reflexivity|]. intros ?.
  eapply triple_bind; [apply triple_silent, silent_saveBookState|]. intros ?.
  eapply triple_bind; [apply triple_silent, silent_ask_content_review|].
  intros action.
  assert (Hinv : forall w, inv w /\ status_is ix generated w -> inv w) by tauto.
  destruct action.
  - eapply triple_bind.
    + apply (triple_set_status ix accepted
               (fun w => inv w /\ status_is ix generated w)); [|exact Hinv].
      intros w c [_ (c' & Hc' & Hs)] Hc _. congruence.
    + intros ?. eapply triple_weaken; [intros w H; exact (proj1 H)|].
      repeat inv_step.
  - eapply triple_weaken; [exact Hinv|]. repeat inv_step.
  - eapply triple_weaken; [exact Hinv|]. repeat inv_step.
  - eapply triple_weaken; [exact Hinv|]. repeat inv_step.
Qed.

Lemma generateChapterContent_inv ix :
  triple inv (generateChapterContent ix) (fun _ => inv) inv.
Proof.
  unfold Cli.generateChapterContent. repeat inv_step.
  match goal with
  | |- triple _ (fun w => _ _ _ ?i ?p w) _ _ =>
      apply (triple_call inv (fun w => prompt_reviews (chapter_answers w))
               (fun reviews => generation_loop reviews ix i p))
  end.
  intros reviews. apply generation_loop_inv.
Qed.

Lemma select_enabled {A : Type} (choices : list (A * bool)) moves a :
  select choices moves = Some a -> In (a, false) choices.
Proof.
  unfold select. intros H. apply nth_error_In in H.
  apply in_map_iff in H as [[a' d] [Ha Hin]]. cbn in Ha. subst a'.
  apply filter_In in Hin as [Hin Hd]. cbn in Hd.
  destruct d; [discriminate|exact Hin].
Qed.

Lemma mark_accepted_enabled chapter moves :
  select (chapter_choices chapter) moves = Some mark_accepted ->
  status chapter <> not_generated.
Proof.
  intros H. apply select_enabled in H. unfold chapter_choices in H.
  cbn in H. intros Hs. rewrite Hs in H. cbn in H.
  repeat (destruct H as [H|H]; [discriminate H|]). exact H.
Qed.

Lemma handleChapter_from_inv menu ix :
  triple inv (handleChapter_from menu ix) (fun _ => inv) inv.
Proof.
  induction menu as [|m menu IH]; cbn [Cli.handleChapter_from].
  - repeat inv_step.
  - eapply triple_bind; [apply triple_get_chapter; auto|]. intros chapter.
    eapply triple_bind.
    { instantiate (1 := fun _ w =>
        inv w /\ nth_error (chapters (memory w)) ix = Some chapter).
      intros w [HI Hc]. destruct (silent_ask_chapter_menu w) as [Hm Hw].
      assert (inv (snd (ask_chapter_menu w))) as H1
        by (eapply extends_well_trans; [exact HI|now apply extends_well_same]).
      rewrite <- Hm in Hc.
      destruct (ask_chapter_menu w) as [[a|e|] w']; auto. }
    intros moves.
    assert (Hinv : forall w,
               inv w /\ nth_error (chapters (memory w)) ix = Some chapter -> inv w)
      by tauto.
    destruct (select (chapter_choices chapter) moves) as [[| | | |]|] eqn:Hsel.
    + eapply triple_weaken; [exact Hinv|]. repeat inv_step.
      apply generateChapterContent_inv.
    + eapply triple_weaken; [exact Hinv|]. repeat inv_step.
    + eapply triple_weaken; [exact Hinv|]. repeat inv_step.
    + apply mark_accepted_enabled in Hsel.
      eapply triple_bind.
      * apply (triple_set_status ix accepted
                 (fun w => inv w /\ nth_error (chapters (memory w)) ix = Some chapter));
          [|exact Hinv].
        intros w c [_ Hc'] Hc _. congruence.
      * intros ?. eapply triple_weaken; [intros w H; exact (proj1 H)|].
        repeat inv_step.
    + eapply triple_weaken; [exact Hinv|]. repeat inv_step.
    + eapply triple_weaken; [exact Hinv|]. repeat inv_step.
Qed.

Lemma handleChapter_inv ix : triple inv (handleChapter ix) (fun _ => inv) inv.
Proof.
  unfold Cli.handleChapter.
  apply (triple_call inv (fun w => chapter_menu (chapter_answers w))
           (fun menu => handleChapter_from menu ix)).
  intros menu. apply handleChapter_from_inv.
Qed.

Lemma book_menu_loop_inv menu :
  triple inv (book_menu_loop menu) (fun _ => inv) inv.
Proof.
  pose proof handleChapter_inv as Hh.
  induction menu as [|a menu IH]; cbn [Cli.book_menu_loop]; repeat inv_step;
    try apply Hh.
Qed.

Lemma manageBook_inv : triple inv manageBook (fun _ => inv) inv.
Proof.
  unfold Cli.manageBook. repeat inv_step.
  apply (triple_call inv (fun w => book_menu (book_answers w)) book_menu_loop).
  intros menu. apply book_menu_loop_inv.
Qed.

(** ***** The history accounts for every change of status *)

Definition apply_write (sts : list Status) (sw : StatusWrite) : list Status :=
  replace_at (written_chapter sw) (status_after sw) sts.

(** Starting from the statuses [sts], the writes [news], each one
    replacing the status it says it replaces, lead to [final]. *)
Fixpoint explains (news : list StatusWrite) (sts final : list Status) : Prop :=
  match news with
  | [] => final = sts
  | sw :: later =>
      nth_error sts (written_chapter sw) = Some (status_before sw)
      /\ explains later (apply_write sts sw) final
  end.

Definition told (w : World) : Prop :=
  exists news,
    status_writes w = status_writes w0 ++ news
    /\ explains news (statuses w0) (statuses w).

Lemma explains_snoc news : forall sts mid ix before after,
  explains news sts mid ->
  nth_error mid ix = Some before ->
  explains
    (news ++ [{| written_chapter := ix; status_before := before;
                 status_after := after |}])
    sts (replace_at ix after mid).
Proof.
  induction news as [|sw later IH]; intros sts mid ix before after He Hn; cbn in *.
  - subst mid. split; [exact Hn|reflexivity].
  - destruct He as [H1 H2]. split; [exact H1|]. now apply IH with (before := before).
Qed.

Lemma triple_calm_told {A : Type} (m : M A) :
  calm m -> triple told m (fun _ => told) told.
Proof.
  intros Hc w (news & Hw & He). destruct (Hc w) as [Hs Hq].
  assert (told (snd (m w))) as H
    by (exists news; split; [now rewrite Hq|now rewrite Hs]).
  destruct (m w) as [[a|e|] w']; exact H.
Qed.

Lemma triple_set_status_told ix s :
  triple told (set_status ix s) (fun _ => told) told.
Proof.
  intros w (news & Hw & He).
  unfold set_status, update_chapter, get_chapter, get_memory, put_memory,
    record_status_write, bind.
  destruct (nth_error (chapters (memory w)) ix) as [c|] eqn:Hc;
    [|exists news; now split].
  cbn. rewrite Hc. cbn. eexists. split.
  - rewrite Hw, <- app_assoc. reflexivity.
  - unfold statuses. cbn. rewrite map_replace_at. cbn.
    apply explains_snoc; [exact He|].
    unfold statuses. now rewrite nth_error_map, Hc.
Qed.

Lemma triple_assign_told {A : Type} (f : BookState -> BookState)
    (k : unit -> M A) Q :
  (forall b, chapters (f b) = chapters b) ->
  (forall u, triple told (k u) Q told) ->
  triple told (bind get_memory (fun bookState => bind (put_memory (f bookState)) k))
    Q told.
Proof.
  intros Hf Hk w (news & Hw & He). unfold bind, get_memory, put_memory.
  apply Hk. exists news. split; [exact Hw|].
  unfold statuses. cbn. now rewrite Hf.
Qed.

Ltac told_step :=
  match goal with
  | |- triple told (bind get_memory (fun b => bind (put_memory _) _)) _ told =>
      apply triple_assign_told; [intros ?; reflexivity|intros ?]
  | |- triple told (bind _ _) _ told =>
      apply triple_bind with (Q := fun _ => told); [|intros ?]
  | |- triple told (try_catch _ _) _ told => apply triple_try_catch; [|intros ?]
  | |- triple told (set_status _ _) _ told => apply triple_set_status_told
  | |- triple told (update_chapter _ _) _ told =>
      apply triple_calm_told, calm_update_chapter; reflexivity
  | |- triple told (ret _) _ told => apply triple_ret; intros ? H; exact H
  | |- triple told (match ?x with _ => _ end) _ told => destruct x
  | |- triple told (if ?x then _ else _) _ told => destruct x
  | |- triple told (let _ := _ in _) _ told => cbv zeta
  | |- triple told _ _ told => assumption
  | H : forall _, triple told _ _ told |- triple told _ _ told => apply H
  | |- triple told _ _ told => solve [apply triple_calm_told; auto with calm]
  end.

Lemma generation_loop_told reviews ix isIntroduction :
  forall prompt,
    triple told (generation_loop reviews ix isIntroduction prompt)
      (fun _ => told) told.
Proof.
  induction reviews as [|r reviews IH]; intros prompt;
    cbn [Cli.generation_loop]; repeat told_step.
Qed.

Lemma generateChapterContent_told ix :
  triple told (generateChapterContent ix) (fun _ => told) told.
Proof.
  unfold Cli.generateChapterContent. repeat told_step.
  match goal with
  | |- triple _ (fun w => _ _ _ ?i ?p w) _ _ =>
      apply (triple_call told (fun w => prompt_reviews (chapter_answers w))
               (fun reviews => generation_loop reviews ix i p))
  end.
  intros reviews. apply generation_loop_told.
Qed.

Lemma handleChapter_told ix : triple told (handleChapter ix) (fun _ => told) told.
Proof.
  unfold Cli.handleChapter.
  apply (triple_call told (fun w => chapter_menu (chapter_answers w))
           (fun menu => handleChapter_from menu ix)).
  pose proof (generateChapterContent_told ix) as Hg.
  intros menu. induction menu as [|m menu IH]; cbn [Cli.handleChapter_from];
    repeat told_step.
Qed.

Lemma book_menu_loop_told menu :
  triple told (book_menu_loop menu) (fun _ => told) told.
Proof.
  pose proof handleChapter_told as Hh.
  induction menu as [|a menu IH]; cbn [Cli.book_menu_loop]; repeat told_step;
    try apply Hh.
Qed.
End From.

(** **** The claims on the workflow *)

(** C4: along every run of the chapter workflow (the book menu, the
    chapter menu, a chapter generation), whatever the answers, no status
    write takes a chapter from "not_generated" to "accepted": a chapter
    that becomes accepted was generated or work in progress. *)
Theorem accepted_only_after_generation (w : World) :
  let in_order news :=
    Forall (fun sw =>
              status_after sw = accepted ->
              status_before sw <> not_generated
              /\ (status_before sw <> accepted ->
                  status_before sw = generated \/ status_before sw = wip)) news in
  (exists news,
      status_writes (snd (manageBook w)) = status_writes w ++ news /\ in_order news)
  /\ (forall ix, exists news,
        status_writes (snd (handleChapter ix w)) = status_writes w ++ news
        /\ in_order news)
  /\ (forall ix, exists news,
        status_writes (snd (generateChapterContent ix w)) = status_writes w ++ news
        /\ in_order news).
Proof.
  cbv zeta.
  assert (Hweak : forall news, Forall good_write news ->
            Forall (fun sw =>
              status_after sw = accepted ->
              status_before sw <> not_generated
              /\ (status_before sw <> accepted ->
                  status_before sw = generated \/ status_before sw = wip)) news).
  { intros news H. eapply Forall_impl; [|exact H].
    intros sw Hg Ha. split; [now apply Hg|].
    specialize (Hg Ha). destruct (status_before sw); tauto. }
  assert (Hrun : forall A (m : M A),
            triple (inv w) m (fun _ => inv w) (inv w) ->
            exists news, status_writes (snd (m w)) = status_writes w ++ news
                         /\ Forall good_write news).
  { intros A m H. specialize (H w (extends_well_refl w)).
    destruct (m w) as [[a|e|] w']; exact H. }
  split; [|split].
  - destruct (Hrun _ _ (manageBook_inv w)) as (news & E & G). eauto.
  - intros ix. destruct (Hrun _ _ (handleChapter_inv w ix)) as (news & E & G). eauto.
  - intros ix.
    destruct (Hrun _ _ (generateChapterContent_inv w ix)) as (news & E & G). eauto.
Qed.

(** The recorded writes are all there is: replayed on the statuses the
    chapters had when a command started, they give the statuses the
    chapters have when it stops. *)
Lemma status_writes_tell_all (w : World) :
  (forall ix, told w (snd (handleChapter ix w)))
  /\ (forall ix, told w (snd (generateChapterContent ix w)))
  /\ told w (snd (book_menu_loop (book_menu (book_answers w)) w)).
Proof.
  assert (Hstart : told w w) by (exists []; split; [now rewrite app_nil_r|reflexivity]).
  assert (Hrun : forall A (m : M A),
            triple (told w) m (fun _ => told w) (told w) -> told w (snd (m w))).
  { intros A m H. specialize (H w Hstart). destruct (m w) as [[a|e|] w']; exact H. }
  split; [|split].
  - intros ix. apply Hrun, handleChapter_told.
  - intros ix. apply Hrun, generateChapterContent_told.
  - apply Hrun, book_menu_loop_told.
Qed.

(** **** A generation call that fails *)

(** What [reviewPrompt] returns on an answer. *)
Definition accepted_prompt (prompt : string) (r : PromptReview) : option string :=
  match r with
  | use_prompt => Some prompt
  | modify_prompt edited => Some edited
  | cancel_prompt => None
  end.

(** In world [w], at the top of the loop of [generateChapterContent] for
    chapter [ix], the user lets a prompt through and the chat completion
    request of the initial generation, or the one of the personalization
    after it, fails with [message]. *)
Definition generation_call_fails (ix : nat) (prompt : string) (w : World)
    (message : string) : Prop :=
  (exists r rs p,
      prompt_reviews (chapter_answers w) = r :: rs
      /\ accepted_prompt prompt r = Some p /\ p <> "")
  /\ (exists c, nth_error (chapters (memory w)) ix = Some c)
  /\ (exists minimal, fst (minimalVariables w) = Ret minimal)
  /\ (exists config, chatConfig (memory w) = Some config)
  /\ (exists later,
        chat_replies (chapter_answers w) = chat_failed message :: later
        \/ exists content,
            chat_replies (chapter_answers w)
            = chat_content content :: chat_failed message :: later).

(** The loop of [generateChapterContent], inside its [try]. *)
Definition guarded_loop (ix : nat) (isIntroduction : bool) (prompt : string) : M bool :=
  try_catch
    (fun w =>
       generation_loop (prompt_reviews (chapter_answers w)) ix isIntroduction prompt w)
    (fun error => ret false).

(** The prompt that [generateChapterContent] builds before its loop. *)
Definition built_prompt (c : Chapter) (b : BookState) (minimal : value) : string :=
  if (id c =? "introduction")%string then buildIntroductionPrompt minimal
  else buildChapterPrompt (topic c) (subtopics_of c) (storyVariables b).

Lemma bind_ret_run {A B : Type} (m : M A) (k : A -> M B) w a w' :
  m w = (Ret a, w') -> bind m k w = k a w'.
Proof. intros H. unfold bind. now rewrite H. Qed.


(** Commands whose outcome is read off the book state in memory and
    that change nothing. *)
Definition reads_memory {A : Type} (m : M A) : Prop :=
  forall w, exists r, forall w', memory w' = memory w -> m w' = (r, w').

Lemma reads_memory_bind {A B : Type} (m : M A) (k : A -> M B) :
  reads_memory m -> (forall a, reads_memory (k a)) -> reads_memory (bind m k).
Proof.
  intros Hm Hk w. destruct (Hm w) as [[a|e|] Hr].
  - destruct (Hk a w) as [r' Hr']. exists r'. intros w' Hw.
    unfold bind. rewrite (Hr w' Hw). now apply Hr'.
  - exists (Throw e). intros w' Hw. unfold bind. now rewrite (Hr w' Hw).
  - exists Halt. intros w' Hw. unfold bind. now rewrite (Hr w' Hw).
Qed.

Lemma reads_memory_const {A : Type} (r : Res A) : reads_memory (fun w => (r, w)).
Proof. intros w. exists r. reflexivity. Qed.

Lemma reads_memory_member v k : reads_memory (member v k).
Proof.
  unfold member. destruct v; try apply reads_memory_const.
  destruct (find _ entries); apply reads_memory_const.
Qed.

Lemma reads_memory_get_memory : reads_memory get_memory.
Proof. intros w. exists (Ret (memory w)). intros w' Hw. unfold get_memory. now rewrite Hw. Qed.

Lemma minimalVariables_reads_memory : reads_memory minimalVariables.
Proof.
  unfold minimalVariables.
  repeat (apply reads_memory_bind;
          [first [apply reads_memory_get_memory | apply reads_memory_member]|intros ?]).
  apply reads_memory_const.
Qed.

Lemma minimalVariables_run w w' minimal :
  fst (minimalVariables w) = Ret minimal -> memory w' = memory w ->
  minimalVariables w' = (Ret minimal, w').
Proof.
  intros H Hm. destruct (minimalVariables_reads_memory w) as [r Hr].
  rewrite (Hr w eq_refl) in H. cbn in H. subst r. now apply Hr.
Qed.

(** What is left of a world after a failed attempt: the answers are used
    up and the requests are in the log. *)
Definition unchanged_but_for_answers (w w' : World) : Prop :=
  memory w' = memory w /\ disk w' = disk w /\ status_writes w' = status_writes w.

Lemma failed_attempt ix isIntroduction prompt w message :
  generation_call_fails ix prompt w message ->
  exists w',
    guarded_loop ix isIntroduction prompt w = (Ret false, w')
    /\ unchanged_but_for_answers w w'
    /\ last (openai_log w') (LogError "chat" "") = LogError "chat" message.
Proof.
  intros ((r & rs & p & Hr & Hp & Hne) & (c & Hc) & (minimal & Hmin)
          & (config & Hcfg) & (later & Hchat)).
  unfold guarded_loop, try_catch. rewrite Hr. cbn [Cli.generation_loop].
  destruct w as [mem dsk [cm pr cr cv] ia ba clk sw log].
  cbn in Hr, Hc, Hcfg, Hchat. subst pr.
  assert (Hrev : reviewPrompt prompt
            {| memory := mem; disk := dsk;
               chapter_answers := {| chapter_menu := cm; prompt_reviews := r :: rs;
                                     chat_replies := cr; content_reviews := cv |};
               image_answers := ia; book_answers := ba; clock := clk;
               status_writes := sw; openai_log := log |}
            = (Ret (Some p),
               {| memory := mem; disk := dsk;
                  chapter_answers := {| chapter_menu := cm; prompt_reviews := rs;
                                        chat_replies := cr; content_reviews := cv |};
                  image_answers := ia; book_answers := ba; clock := clk;
                  status_writes := sw; openai_log := log |})).
  { unfold reviewPrompt, bind, ask_prompt_review. cbn.
    destruct r; cbn in Hp; inversion Hp; subst; reflexivity. }
  rewrite (bind_ret_run _ _ _ _ _ Hrev).
  destruct p as [|ch p]; [congruence|].
  unfold get_chapter at 1. unfold bind at 1. cbn [memory]. rewrite Hc.
  unfold bind at 1. unfold get_memory at 1.
  erewrite (bind_ret_run minimalVariables)
    by (eapply minimalVariables_run; [exact Hmin|reflexivity]).
  unfold the_chatConfig at 1. unfold bind at 1. unfold bind at 1.
  unfold get_memory at 1. cbn [memory]. rewrite Hcfg. unfold ret at 1.
  destruct Hchat as [Hchat|[content Hchat]]; subst cr.
  - unfold bind at 1. unfold Cli.generateChapter at 1.
    unfold bind, log_openai, await_chat, throw. cbn.
    eexists. split; [reflexivity|]. split; [repeat split|].
    cbn. now rewrite last_last.
  - unfold bind at 1. unfold Cli.generateChapter at 1.
    unfold bind at 1 2. unfold log_openai at 1. unfold await_chat at 1.
    cbn [chapter_answers chat_replies with_openai_log with_chapter_answers
         memory disk image_answers book_answers clock status_writes openai_log
         chapter_menu prompt_reviews content_reviews].
    unfold bind at 1. unfold log_openai at 1. unfold ret at 1.
    cbn [chapter_answers chat_replies with_openai_log with_chapter_answers
         memory disk image_answers book_answers clock status_writes openai_log
         chapter_menu prompt_reviews content_reviews].
    unfold bind at 1. unfold Cli.generateChapter at 1.
    unfold bind, log_openai, await_chat, throw. cbn.
    eexists. split; [reflexivity|]. split; [repeat split|].
    cbn. now rewrite last_last.
Qed.

Lemma generateChapterContent_enters_loop ix w c minimal :
  nth_error (chapters (memory w)) ix = Some c ->
  fst (minimalVariables w) = Ret minimal ->
  generateChapterContent ix w
  = guarded_loop ix (id c =? "introduction")%string
      (built_prompt c (memory w) minimal) w.
Proof.
  intros Hc Hmin.
  unfold Cli.generateChapterContent, guarded_loop, try_catch, built_prompt.
  unfold bind at 1. unfold get_chapter at 1. rewrite Hc.
  unfold bind at 1. unfold get_memory at 1.
  destruct (id c =? "introduction")%string.
  - unfold bind at 1.
    erewrite (bind_ret_run minimalVariables)
      by (eapply minimalVariables_run; [exact Hmin|reflexivity]).
    reflexivity.
  - reflexivity.
Qed.

(** C7: when a chat completion request of a generation fails, be it in
    the first pass of [generateChapterContent] or in a later pass of its
    loop, the command returns false, the book state in memory, and so the
    status of the chapter, is what it was before the pass, and nothing
    was written to book-state.json or content.md. *)
Theorem failed_generation_changes_nothing ix w message :
  (forall c minimal,
      nth_error (chapters (memory w)) ix = Some c ->
      fst (minimalVariables w) = Ret minimal ->
      generation_call_fails ix (built_prompt c (memory w) minimal) w message ->
      exists w',
        generateChapterContent ix w = (Ret false, w')
        /\ option_map status (nth_error (chapters (memory w')) ix) = Some (status c)
        /\ memory w' = memory w
        /\ disk w' = disk w
        /\ status_writes w' = status_writes w)
  /\ (forall isIntroduction prompt,
      generation_call_fails ix prompt w message ->
      exists w',
        guarded_loop ix isIntroduction prompt w = (Ret false, w')
        /\ nth_error (chapters (memory w')) ix = nth_error (chapters (memory w)) ix
        /\ memory w' = memory w
        /\ disk w' = disk w
        /\ status_writes w' = status_writes w).
Proof.
  split.
  - intros c minimal Hc Hmin Hfail.
    rewrite (generateChapterContent_enters_loop ix w c minimal Hc Hmin).
    destruct (failed_attempt ix (id c =? "introduction")%string _ w message Hfail)
      as (w' & Hrun & (Hm & Hd & Hs) & _).
    exists w'. rewrite Hm, Hc. auto.
  - intros isIntroduction prompt Hfail.
    destruct (failed_attempt ix isIntroduction prompt w message Hfail)
      as (w' & Hrun & (Hm & Hd & Hs) & _).
    exists w'. rewrite Hm. auto.
Qed.

End Workflow.

(** **** Acceptance and content.md *)

(** The section that an acceptance at the review appends. *)
Definition section_of (topic text : string) : string :=
  (LF ++ LF ++ "## " ++ topic ++ LF ++ LF ++ text ++ LF)%string.

Definition sample_handleChapter : nat -> M unit :=
  handleChapter Samples.plain_trim Samples.plain_to_string Samples.plain_stringify
    Samples.plain_chapter_prompt Samples.plain_introduction_prompt.

(** C1, as the code has it: a chapter marked as accepted from the chapter
    menu gets the status "accepted", in memory and in book-state.json, and
    nothing is appended to content.md; accepted at the review of a
    generation it gets one section, and accepted there twice it gets the
    section twice. *)
Theorem mark_accepted_appends_nothing :
  let marked := snd (sample_handleChapter 0 Samples.deferred_then_marked) in
  let reviewed := snd (sample_handleChapter 0 Samples.accepted_at_review) in
  let twice := snd (sample_handleChapter 0 Samples.accepted_twice) in
  (Samples.status_at 0 (memory marked) = Some accepted
   /\ option_map (Samples.status_at 0) (book_state_json (disk marked))
      = Some (Some accepted)
   /\ content_md (disk marked) = "")
  /\ (Samples.status_at 0 (memory reviewed) = Some accepted
      /\ content_md (disk reviewed) = section_of "Introduction" "Luna's story.")
  /\ content_md (disk twice)
     = (section_of "Introduction" "Luna's story."
        ++ section_of "Introduction" "Luna's story.")%string.
Proof. cbv zeta. repeat split; vm_compute; reflexivity. Qed.

(** The status writes of a generation accepted at the review. *)
Example accepted_at_review_writes :
  status_writes (snd (sample_handleChapter 0 Samples.accepted_at_review))
  = [ {| written_chapter := 0; status_before := not_generated;
         status_after := generated |};
      {| written_chapter := 0; status_before := generated;
         status_after := accepted |} ].
Proof. vm_compute. reflexivity. Qed.

Lemma failed_generation_changes_nothing_witness :
  exists w',
    generateChapterContent Samples.plain_trim Samples.plain_to_string
      Samples.plain_stringify Samples.plain_chapter_prompt
      Samples.plain_introduction_prompt 1 Samples.service_down = (Ret false, w')
    /\ option_map status (nth_error (chapters (memory w')) 1) = Some not_generated
    /\ memory w' = memory Samples.service_down
    /\ disk w' = disk Samples.service_down
    /\ status_writes w' = status_writes Samples.service_down.
Proof.
  refine (proj1 (failed_generation_changes_nothing Samples.plain_trim
                   Samples.plain_to_string Samples.plain_stringify
                   Samples.plain_chapter_prompt Samples.plain_introduction_prompt
                   1 Samples.service_down "429 Too Many Requests")
            _ _ eq_refl eq_refl _).
  unfold generation_call_fails. split; [|split; [|split; [|split]]].
  - eexists _, _, _. split; [reflexivity|]. split; [reflexivity|]. discriminate.
  - eexists. reflexivity.
  - eexists. reflexivity.
  - eexists. reflexivity.
  - eexists. left. reflexivity.
Defined.

End CliFacts.


(** *** What the chapter workflow keeps *)
Module WorkflowFacts.
Import Js BookState Cli.

Ltac break_match :=
  match goal with
  | |- context [match ?x with _ => _ end] => destruct x eqn:?
  end.

(** Commands that only use up answers, read the clock or add to the history
    of status writes. *)
Definition frame_only (w w' : World) : Prop :=
  memory w' = memory w /\ disk w' = disk w /\ openai_log w' = openai_log w.

(** The relations between the world before and the world after a command
    that the lemmas below are about. *)
Record relation_ok (R : World -> World -> Prop) : Prop := {
  ok_trans : forall w1 w2 w3, R w1 w2 -> R w2 w3 -> R w1 w3;
  ok_frame : forall w w', frame_only w w' -> R w w'
}.

Lemma ok_refl R : relation_ok R -> forall w, R w w.
Proof. intros H w. apply (ok_frame R H). repeat split. Qed.

(** Every run of [m] relates the world it starts in to the one it stops in. *)
Definition keeps (R : World -> World -> Prop) {A : Type} (m : M A) : Prop :=
  forall w, R w (snd (m w)).

Section Keeps.
Variable R : World -> World -> Prop.
Hypothesis HR : relation_ok R.

Lemma keeps_bind {A B : Type} (m : M A) (k : A -> M B) :
keeps R m -> (forall a, keeps R (k a)) -> keeps R (bind m k).
Proof.
intros Hm Hk w. unfold bind. specialize (Hm w).
destruct (m w) as [[a|e|] w']; cbn in *; try exact Hm.
eapply (ok_trans R HR); [exact Hm|apply Hk].
Qed.

Lemma keeps_try_catch {A : Type} (m : M A) (h : string -> M A) :
keeps R m -> (forall e, keeps R (h e)) -> keeps R (try_catch m h).
Proof.
intros Hm Hh w. unfold try_catch. specialize (Hm w).
destruct (m w) as [[a|e|] w']; cbn in *; try exact Hm.
eapply (ok_trans R HR); [exact Hm|apply Hh].
Qed.

Lemma keeps_call {A B : Type} (g : World -> B) (f : B -> M A) :
(forall b, keeps R (f b)) -> keeps R (fun w => f (g w) w).
Proof. intros H w. apply H. Qed.

(** [bookState.field = value] *)
Lemma keeps_assign {A : Type} (f : BookState -> BookState) (k : unit -> M A) :
(forall w, R w (with_memory (f (memory w)) w)) -> (forall u, keeps R (k u)) ->
keeps R (bind get_memory (fun bookState => bind (put_memory (f bookState)) k)).
Proof.
intros Hf Hk w. unfold bind, get_memory, put_memory.
eapply (ok_trans R HR); [apply Hf|apply Hk].
Qed.

Lemma keeps_ret {A : Type} (a : A) : keeps R (ret a).
Proof. intros w. apply (ok_refl R HR). Qed.
Lemma keeps_throw {A : Type} e : keeps R (@throw A e).
Proof. intros w. apply (ok_refl R HR). Qed.
Lemma keeps_halt {A : Type} : keeps R (@halt A).
Proof. intros w. apply (ok_refl R HR). Qed.

Ltac framed :=
let w := fresh "w" in
intros w; apply (ok_frame R HR);
cbv beta zeta delta [get_memory get_chapter now record_status_write loadBookState
  ask_prompt_review ask_chapter_menu await_chat ask_content_review ask_style
  ask_preset await_scene ask_scene_action ask_image_prompt_review await_image
  ask_image_action ask_book_menu ask_chapter_pick configureStoryVariables
  configureOpenAI];
repeat break_match; repeat split.

Lemma keeps_get_memory : keeps R get_memory. Proof. framed. Qed.
Lemma keeps_get_chapter ix : keeps R (get_chapter ix). Proof. framed. Qed.
Lemma keeps_now : keeps R now. Proof. framed. Qed.
Lemma keeps_record_status_write ix a b : keeps R (record_status_write ix a b).
Proof. framed. Qed.
Lemma keeps_loadBookState : keeps R loadBookState. Proof. framed. Qed.
Lemma keeps_ask_prompt_review : keeps R ask_prompt_review. Proof. framed. Qed.
Lemma keeps_ask_chapter_menu : keeps R ask_chapter_menu. Proof. framed. Qed.
Lemma keeps_await_chat : keeps R await_chat. Proof. framed. Qed.
Lemma keeps_ask_content_review : keeps R ask_content_review. Proof. framed. Qed.
Lemma keeps_ask_style : keeps R ask_style. Proof. framed. Qed.
Lemma keeps_ask_preset : keeps R ask_preset. Proof. framed. Qed.
Lemma keeps_await_scene : keeps R await_scene. Proof. framed. Qed.
Lemma keeps_ask_scene_action : keeps R ask_scene_action. Proof. framed. Qed.
Lemma keeps_ask_image_prompt_review : keeps R ask_image_prompt_review. Proof. framed. Qed.
Lemma keeps_await_image : keeps R await_image. Proof. framed. Qed.
Lemma keeps_ask_image_action : keeps R ask_image_action. Proof. framed. Qed.
Lemma keeps_ask_book_menu : keeps R ask_book_menu. Proof. framed. Qed.
Lemma keeps_ask_chapter_pick : keeps R ask_chapter_pick. Proof. framed. Qed.
Lemma keeps_configureStoryVariables : keeps R configureStoryVariables. Proof. framed. Qed.
Lemma keeps_configureOpenAI : keeps R configureOpenAI. Proof. framed. Qed.
End Keeps.

Create HintDb keeps.
#[export] Hint Resolve keeps_ret keeps_throw keeps_halt keeps_get_memory
  keeps_get_chapter keeps_now keeps_record_status_write keeps_loadBookState
  keeps_ask_prompt_review keeps_ask_chapter_menu keeps_await_chat
  keeps_ask_content_review keeps_ask_style keeps_ask_preset keeps_await_scene
  keeps_ask_scene_action keeps_ask_image_prompt_review keeps_await_image
  keeps_ask_image_action keeps_ask_book_menu keeps_ask_chapter_pick
  keeps_configureStoryVariables keeps_configureOpenAI : keeps.

(** Splits a command into its parts.  [side] closes the condition on the
    function of a chapter update. *)
Ltac keeps_step side :=
  match goal with
  | |- keeps _ (bind get_memory (fun b => bind (put_memory _) _)) =>
      eapply keeps_assign; [solve [auto with keeps]|solve [auto with keeps]|intros ?]
  | |- keeps _ (bind _ _) => eapply keeps_bind; [solve [auto with keeps]| |intros ?]
  | |- keeps _ (try_catch _ _) =>
      eapply keeps_try_catch; [solve [auto with keeps]| |intros ?]
  | |- keeps _ (match ?x with _ => _ end) => destruct x
  | |- keeps _ (if ?x then _ else _) => destruct x
  | |- keeps _ (let _ := _ in _) => cbv zeta
  | |- keeps _ _ => assumption
  | H : forall _, keeps _ _ |- keeps _ _ => apply H
  | |- keeps _ _ => solve [auto with keeps]
  | |- keeps _ (update_chapter _ _) => solve [side]
  | |- keeps _ _ =>
      progress unfold member, the_chatConfig, lift, generateChapter,
        selectSceneForImage, generateImage, first_value, minimalVariables,
        reviewPrompt, reviewContent, selectChapter, set_status
  end.

(** **** The chapters stay what they are *)

(** A chapter keeps its id, topic and lesson context, and a chapter that
    had a text is not left without one ([None]); the text can have been
    replaced, by the empty text too. *)
Definition same_chapter (c c' : Chapter) : Prop :=
  id c' = id c /\ topic c' = topic c /\ lessonContext c' = lessonContext c
  /\ (text c <> None -> text c' <> None).

(** Two states of a book with the same chapters, in the same order, and the
    same settings, the story variables and [openAIConfig] apart. *)
Definition same_book (b b' : BookState) : Prop :=
  Forall2 same_chapter (chapters b) (chapters b')
  /\ title b' = title b
  /\ createdAt b' = createdAt b
  /\ chatConfig b' = chatConfig b
  /\ imageConfig b' = imageConfig b
  /\ currentContext b' = currentContext b.

(** The paths of the image files, in the order of their creation. *)
Definition image_paths (w : World) : list string := map fst (image_files (disk w)).

(** Between [w] and [w'] the book in memory stayed the same book, what was
    saved since is that book too, content.md and the log were only added
    to, and no image file went away (what a file holds can have been
    replaced). *)
Definition steady (w w' : World) : Prop :=
  same_book (memory w) (memory w')
  /\ (book_state_json (disk w') = book_state_json (disk w)
      \/ exists saved, book_state_json (disk w') = Some saved
                       /\ same_book (memory w) saved)
  /\ (exists more, content_md (disk w') = (content_md (disk w) ++ more)%string)
  /\ (exists more, image_paths w' = image_paths w ++ more)
  /\ (exists more, openai_log w' = openai_log w ++ more).

Lemma same_chapter_refl c : same_chapter c c.
Proof. repeat split; auto. Qed.

Lemma same_chapter_trans a b c : same_chapter a b -> same_chapter b c -> same_chapter a c.
Proof.
  intros (H1 & H2 & H3 & H4) (G1 & G2 & G3 & G4).
  repeat split; try congruence. auto.
Qed.

Lemma Forall2_refl {A : Type} (P : A -> A -> Prop) (l : list A) :
  (forall a, P a a) -> Forall2 P l l.
Proof. intros H. induction l; constructor; auto. Qed.

Lemma Forall2_trans {A : Type} (P : A -> A -> Prop) :
  (forall a b c, P a b -> P b c -> P a c) ->
  forall l1 l2 l3, Forall2 P l1 l2 -> Forall2 P l2 l3 -> Forall2 P l1 l3.
Proof.
  intros HP l1 l2 l3 H. revert l3.
  induction H; intros l3 H3; inversion H3; subst; constructor; eauto.
Qed.

Lemma Forall2_replace_at {A : Type} (P : A -> A -> Prop) (l : list A) ix a b :
  (forall x, P x x) -> nth_error l ix = Some a -> P a b ->
  Forall2 P l (replace_at ix b l).
Proof.
  intros Hrefl. revert ix.
  induction l as [|x r IH]; intros [|ix] Hn Hab; cbn in *; try discriminate.
  - inversion Hn; subst. constructor; [exact Hab|now apply Forall2_refl].
  - constructor; [apply Hrefl|now apply IH].
Qed.

Lemma append_empty (s : string) : (s ++ "")%string = s.
Proof. induction s as [|c s IH]; cbn; [reflexivity|now rewrite IH]. Qed.

Lemma string_append_assoc (a b c : string) : ((a ++ b) ++ c = a ++ (b ++ c))%string.
Proof. induction a as [|ch a IH]; cbn; [reflexivity|now rewrite IH]. Qed.

Lemma same_book_refl b : same_book b b.
Proof. repeat split. apply Forall2_refl, same_chapter_refl. Qed.

Lemma same_book_trans a b c : same_book a b -> same_book b c -> same_book a c.
Proof.
  intros (A1 & A2 & A3 & A4 & A5 & A6) (B1 & B2 & B3 & B4 & B5 & B6).
  repeat split; try congruence.
  eapply Forall2_trans; [exact same_chapter_trans|exact A1|exact B1].
Qed.

Lemma steady_ok : relation_ok steady.
Proof.
  split.
  - intros w1 w2 w3 (A1 & A2 & [c1 A3] & [f1 A4] & [l1 A5])
                    (B1 & B2 & [c2 B3] & [f2 B4] & [l2 B5]).
    split; [eapply same_book_trans; eassumption|]. split; [|repeat split].
    + destruct B2 as [B2|(saved & B2 & B2')].
      * rewrite B2. exact A2.
      * right. exists saved. split; [exact B2|].
        eapply same_book_trans; eassumption.
    + exists (c1 ++ c2)%string. now rewrite B3, A3, string_append_assoc.
    + exists (f1 ++ f2). now rewrite B4, A4, app_assoc.
    + exists (l1 ++ l2). now rewrite B5, A5, app_assoc.
  - intros w w' (Hm & Hd & Hl). unfold steady, image_paths. rewrite Hm, Hd, Hl.
    split; [apply same_book_refl|]. split; [now left|]. repeat split.
    + exists ""%string. now rewrite append_empty.
    + exists []. now rewrite app_nil_r.
    + exists []. now rewrite app_nil_r.
Qed.

Ltac steady_same :=
  split; [try apply same_book_refl|];
  (split; [try (left; reflexivity)|]);
  repeat split;
  try (exists ""%string; now rewrite append_empty);
  try (exists []; now rewrite app_nil_r).

Lemma steady_log_openai e : keeps steady (log_openai e).
Proof. intros w. steady_same. cbn. eexists. reflexivity. Qed.

Lemma steady_saveBookState : keeps steady saveBookState.
Proof.
  intros w. steady_same. right. eexists. split; [reflexivity|apply same_book_refl].
Qed.

Lemma steady_append_content s : keeps steady (append_content s).
Proof. intros w. steady_same. cbn. eexists. reflexivity. Qed.

(** Writing a file leaves the paths there were and adds at most its own. *)
Lemma put_file_paths path data files :
  exists more, map fst (put_file path data files) = map fst files ++ more.
Proof.
  induction files as [|[p d] rest [more IH]]; cbn.
  - now exists [path].
  - destruct (p =? path)%string eqn:E; cbn.
    + apply String.eqb_eq in E. subst p. exists []. now rewrite app_nil_r.
    + exists more. now rewrite IH.
Qed.

(** A file holds what was written to it last. *)
Lemma read_file_put_file path data files q :
  read_file q (put_file path data files)
  = if (path =? q)%string then Some data else read_file q files.
Proof.
  unfold read_file. induction files as [|[p d] rest IH]; cbn.
  - destruct (path =? q)%string; reflexivity.
  - destruct (p =? path)%string eqn:E; cbn.
    + apply String.eqb_eq in E. subst p.
      destruct (path =? q)%string; reflexivity.
    + destruct (p =? q)%string eqn:E'; cbn; [|exact IH].
      apply String.eqb_eq in E'. subst q.
      rewrite String.eqb_sym, E. reflexivity.
Qed.

Lemma steady_write_image_file p d : keeps steady (write_image_file p d).
Proof. intros w. steady_same. apply put_file_paths. Qed.

Lemma steady_copy_image_file s t : keeps steady (copy_image_file s t).
Proof.
  intros w. unfold copy_image_file.
  destruct (read_file s (image_files (disk w))) as [data|].
  - apply steady_write_image_file.
  - apply (ok_refl steady steady_ok).
Qed.

Lemma steady_update_chapter ix f :
  (forall c, same_chapter c (f c)) -> keeps steady (update_chapter ix f).
Proof.
  intros Hf w. unfold update_chapter, get_chapter, get_memory, put_memory, bind.
  destruct (nth_error (chapters (memory w)) ix) as [c|] eqn:Hc; cbn.
  - steady_same. repeat split. cbn.
    apply Forall2_replace_at with (a := c); auto using same_chapter_refl.
  - steady_same.
Qed.

Lemma steady_assign_storyVariables v w :
  steady w (with_memory (with_storyVariables v (memory w)) w).
Proof. steady_same. repeat split. apply Forall2_refl, same_chapter_refl. Qed.

Lemma steady_assign_openAIConfig c w :
  steady w (with_memory (with_openAIConfig c (memory w)) w).
Proof. steady_same. repeat split. apply Forall2_refl, same_chapter_refl. Qed.

#[export] Hint Resolve steady_ok steady_log_openai steady_saveBookState
  steady_append_content steady_write_image_file steady_copy_image_file
  steady_assign_storyVariables
  steady_assign_openAIConfig : keeps.

Ltac steady_side :=
  apply steady_update_chapter;
  let c := fresh "c" in
  intros c; try destruct (image c); repeat split; cbn; congruence.

Lemma same_chapters_lists l l' :
  Forall2 same_chapter l l' ->
  map id l' = map id l /\ map topic l' = map topic l
  /\ map lessonContext l' = map lessonContext l.
Proof.
  induction 1 as [|c c' l l' (H1 & H2 & H3 & _) _ (I1 & I2 & I3)]; cbn;
    [repeat split|].
  now rewrite H1, H2, H3, I1, I2, I3.
Qed.

Lemma same_chapters_text l l' :
  Forall2 same_chapter l l' ->
  forall j c, nth_error l j = Some c -> text c <> None ->
  exists c', nth_error l' j = Some c' /\ text c' <> None.
Proof.
  induction 1 as [|c0 c0' l l' (_ & _ & _ & H4) _ IH]; intros [|j] c Hj Ht;
    cbn in *; try discriminate.
  - injection Hj as <-. eauto.
  - eauto.
Qed.

Section Workflow.
Variable trim : string -> string.
Variable to_string : value -> string.
Variable stringify : value -> string.
Variable buildChapterPrompt : string -> list string -> value -> string.
Variable buildIntroductionPrompt : value -> string.

Lemma steady_handleImageGeneration_from picks ix :
keeps steady (handleImageGeneration_from to_string picks ix).
Proof.
induction picks as [|p picks IH]; cbn [handleImageGeneration_from];
  repeat keeps_step steady_side.
Qed.

Lemma steady_handleImageGeneration ix : keeps steady (handleImageGeneration to_string ix).
Proof. intros w. apply steady_handleImageGeneration_from. Qed.

Lemma steady_generation_loop reviews ix isIntroduction : forall prompt,
keeps steady
  (generation_loop trim to_string stringify buildChapterPrompt reviews ix
     isIntroduction prompt).
Proof.
pose proof steady_handleImageGeneration as Hh.
induction reviews as [|r reviews IH]; intros prompt; cbn [generation_loop];
  repeat keeps_step steady_side.
Qed.

Lemma steady_generateChapterContent ix :
keeps steady
  (generateChapterContent trim to_string stringify buildChapterPrompt
     buildIntroductionPrompt ix).
Proof.
unfold generateChapterContent. repeat keeps_step steady_side.
intros w. apply steady_generation_loop.
Qed.

Lemma steady_handleChapter ix :
keeps steady
  (handleChapter trim to_string stringify buildChapterPrompt
     buildIntroductionPrompt ix).
Proof.
pose proof steady_generateChapterContent as Hg.
assert (H : forall menu,
           keeps steady
             (handleChapter_from trim to_string stringify buildChapterPrompt
                buildIntroductionPrompt menu ix)).
{ induction menu as [|m menu IH]; cbn [handleChapter_from];
    repeat keeps_step steady_side. }
intros w. apply H.
Qed.

Lemma steady_book_menu_loop menu :
keeps steady
  (book_menu_loop trim to_string stringify buildChapterPrompt
     buildIntroductionPrompt menu).
Proof.
pose proof steady_handleChapter as Hh.
induction menu as [|a menu IH]; cbn [book_menu_loop];
  repeat keeps_step steady_side.
Qed.

Lemma manageBook_loaded w b :
book_state_json (disk w) = Some b ->
snd (manageBook trim to_string stringify buildChapterPrompt
       buildIntroductionPrompt w)
= snd (book_menu_loop trim to_string stringify buildChapterPrompt
         buildIntroductionPrompt (book_menu (book_answers w)) (with_memory b w)).
Proof.
intros H. unfold manageBook, try_catch, bind, loadBookState, put_memory.
rewrite H. cbn.
destruct (book_menu_loop _ _ _ _ _ _ _) as [[u|e|] w']; reflexivity.
Qed.

Lemma manageBook_not_loaded w :
book_state_json (disk w) = None ->
snd (manageBook trim to_string stringify buildChapterPrompt
       buildIntroductionPrompt w) = w.
Proof.
intros H. unfold manageBook, try_catch, bind, loadBookState.
rewrite H. reflexivity.
Qed.

(** X1: Whatever is answered at the book menu and in the menus below it
  (chapter menu, generation, reviews, image generation, updates of the
  story variables and of the configuration), the book in memory stays the
  same book.  No chapter is added, removed or moved, and every chapter
  keeps its id, its topic and its lesson context.  The title, the creation
  date, the [chatConfig] that the generation reads its model and
  temperature from, the image configuration and [currentContext] stay
  what they are: [update_config] stores what [configureOpenAI] returns
  in [openAIConfig] only, and nothing ever assigns [currentContext]. *)
Theorem book_menu_keeps_the_book menu w :
let b := memory w in
let b' :=
  memory (snd (book_menu_loop trim to_string stringify buildChapterPrompt
                 buildIntroductionPrompt menu w)) in
map id (chapters b') = map id (chapters b)
/\ map topic (chapters b') = map topic (chapters b)
/\ map lessonContext (chapters b') = map lessonContext (chapters b)
/\ title b' = title b
/\ createdAt b' = createdAt b
/\ chatConfig b' = chatConfig b
/\ imageConfig b' = imageConfig b
/\ currentContext b' = currentContext b.
Proof.
cbv zeta. destruct (steady_book_menu_loop menu w) as ((H & Hs) & _).
destruct (same_chapters_lists _ _ H) as (H1 & H2 & H3).
repeat split; try assumption; apply Hs.
Qed.

(** A session only adds to content.md, and the image files that were there
  are there afterwards, in their order, before the new ones. *)
Lemma manageBook_adds_files w :
let w' :=
  snd (manageBook trim to_string stringify buildChapterPrompt
         buildIntroductionPrompt w) in
(exists more, content_md (disk w') = (content_md (disk w) ++ more)%string)
/\ (exists more,
      map fst (image_files (disk w')) = map fst (image_files (disk w)) ++ more).
Proof.
cbv zeta. destruct (book_state_json (disk w)) as [b|] eqn:Hb.
- rewrite (manageBook_loaded w b Hb).
  destruct (steady_book_menu_loop (book_menu (book_answers w)) (with_memory b w))
    as (_ & _ & Hc & Hf & _).
  split; assumption.
- rewrite (manageBook_not_loaded w Hb). split.
  + exists ""%string. now rewrite append_empty.
  + exists []. now rewrite app_nil_r.
Qed.

(** X4: The book-state.json that a session of [manageBook] leaves behind
  describes the book it found there: the same chapters in the same order
  (ids, topics, lesson contexts), the same title, creation date,
  [chatConfig], image configuration and [currentContext]. *)
Theorem manageBook_saves_the_same_book w b :
book_state_json (disk w) = Some b ->
exists b',
  book_state_json
    (disk (snd (manageBook trim to_string stringify buildChapterPrompt
                  buildIntroductionPrompt w))) = Some b'
  /\ map id (chapters b') = map id (chapters b)
  /\ map topic (chapters b') = map topic (chapters b)
  /\ map lessonContext (chapters b') = map lessonContext (chapters b)
  /\ title b' = title b
  /\ createdAt b' = createdAt b
  /\ chatConfig b' = chatConfig b
  /\ imageConfig b' = imageConfig b
  /\ currentContext b' = currentContext b.
Proof.
intros Hb. rewrite (manageBook_loaded w b Hb).
destruct (steady_book_menu_loop (book_menu (book_answers w)) (with_memory b w))
  as (_ & [Hd|(saved & Hd & Hs & Hrest)] & _).
- exists b. rewrite Hd. cbn. split; [exact Hb|]. repeat split.
- exists saved. split; [exact Hd|]. cbn in Hs, Hrest.
  destruct (same_chapters_lists _ _ Hs) as (H1 & H2 & H3).
  repeat split; try assumption; apply Hrest.
Qed.
End Workflow.


(** **** One chapter at a time *)

(** Between [w] and [w'] only chapter [ix] of the book in memory changed. *)
Definition others_kept (ix : nat) (w w' : World) : Prop :=
  (forall j, j <> ix ->
     nth_error (chapters (memory w')) j = nth_error (chapters (memory w)) j)
  /\ with_chapters [] (memory w') = with_chapters [] (memory w).

Lemma nth_error_replace_at_other {A : Type} (l : list A) ix j a :
  j <> ix -> nth_error (replace_at ix a l) j = nth_error l j.
Proof.
  revert ix j. induction l as [|x l IH]; intros [|ix] [|j] H; cbn; auto;
    try congruence.
Qed.

Lemma others_kept_ok ix : relation_ok (others_kept ix).
Proof.
  split.
  - intros w1 w2 w3 [A1 A2] [B1 B2]. split; [|congruence].
    intros j Hj. now rewrite B1, A1.
  - intros w w' (Hm & _). unfold others_kept. now rewrite Hm.
Qed.

Lemma others_kept_log_openai ix e : keeps (others_kept ix) (log_openai e).
Proof. intros w. now split. Qed.
Lemma others_kept_saveBookState ix : keeps (others_kept ix) saveBookState.
Proof. intros w. now split. Qed.
Lemma others_kept_append_content ix s : keeps (others_kept ix) (append_content s).
Proof. intros w. now split. Qed.
Lemma others_kept_write_image_file ix p d :
  keeps (others_kept ix) (write_image_file p d).
Proof. intros w. now split. Qed.
Lemma others_kept_copy_image_file ix s t :
  keeps (others_kept ix) (copy_image_file s t).
Proof. intros w. unfold copy_image_file. break_match; now split. Qed.

Lemma others_kept_update_chapter ix f : keeps (others_kept ix) (update_chapter ix f).
Proof.
  intros w. unfold update_chapter, get_chapter, get_memory, put_memory, bind.
  destruct (nth_error (chapters (memory w)) ix) as [c|]; cbn; [|now split].
  split; [|reflexivity]. intros j Hj. cbn. now apply nth_error_replace_at_other.
Qed.

#[export] Hint Resolve others_kept_ok others_kept_log_openai
  others_kept_saveBookState others_kept_append_content
  others_kept_write_image_file others_kept_copy_image_file
  others_kept_update_chapter : keeps.

(** **** Image generation and the text *)

(** The chapter without what image generation writes. *)
Definition without_image (c : Chapter) : Chapter :=
  {| id := id c; topic := topic c; status := status c; text := text c;
     lessonContext := lessonContext c; image := None;
     generationConfig := generationConfig c |}.

(** Between [w] and [w'] nothing changed in the book in memory but the
    [image] of its chapters, and content.md is as it was. *)
Definition image_only (w w' : World) : Prop :=
  map without_image (chapters (memory w')) = map without_image (chapters (memory w))
  /\ with_chapters [] (memory w') = with_chapters [] (memory w)
  /\ content_md (disk w') = content_md (disk w).

Lemma map_replace_at_same {A B : Type} (g : A -> B) (l : list A) ix a c :
  nth_error l ix = Some c -> g a = g c -> map g (replace_at ix a l) = map g l.
Proof.
  revert ix. induction l as [|x l IH]; intros [|ix] H E; cbn in *; try discriminate.
  - injection H as <-. now rewrite E.
  - now rewrite (IH ix H E).
Qed.

Lemma image_only_ok : relation_ok image_only.
Proof.
  split.
  - intros w1 w2 w3 (A1 & A2 & A3) (B1 & B2 & B3). repeat split; congruence.
  - intros w w' (Hm & Hd & _). unfold image_only. now rewrite Hm, Hd.
Qed.

Lemma image_only_log_openai e : keeps image_only (log_openai e).
Proof. intros w. now repeat split. Qed.
Lemma image_only_saveBookState : keeps image_only saveBookState.
Proof. intros w. now repeat split. Qed.
Lemma image_only_write_image_file p d : keeps image_only (write_image_file p d).
Proof. intros w. now repeat split. Qed.
Lemma image_only_copy_image_file s t : keeps image_only (copy_image_file s t).
Proof. intros w. unfold copy_image_file. break_match; now repeat split. Qed.

Lemma image_only_update_chapter ix f :
  (forall c, without_image (f c) = without_image c) ->
  keeps image_only (update_chapter ix f).
Proof.
  intros Hf w. unfold update_chapter, get_chapter, get_memory, put_memory, bind.
  destruct (nth_error (chapters (memory w)) ix) as [c|] eqn:Hc; cbn;
    [|now repeat split].
  repeat split. cbn. now apply map_replace_at_same with (c := c).
Qed.

#[export] Hint Resolve image_only_ok image_only_log_openai
  image_only_saveBookState image_only_write_image_file
  image_only_copy_image_file : keeps.

Ltac image_only_side :=
  apply image_only_update_chapter;
  let c := fresh "c" in
  intros c; try destruct (image c); reflexivity.

Lemma without_image_fields l l' :
  map without_image l' = map without_image l ->
  map status l' = map status l /\ map text l' = map text l
  /\ map generationConfig l' = map generationConfig l.
Proof.
  intros H. repeat split.
  - apply (f_equal (map status)) in H. now rewrite !map_map in H.
  - apply (f_equal (map text)) in H. now rewrite !map_map in H.
  - apply (f_equal (map generationConfig)) in H. now rewrite !map_map in H.
Qed.

Section OneChapter.
Variable trim : string -> string.
Variable to_string : value -> string.
Variable stringify : value -> string.
Variable buildChapterPrompt : string -> list string -> value -> string.
Variable buildIntroductionPrompt : value -> string.

Lemma others_kept_handleImageGeneration ix :
keeps (others_kept ix) (handleImageGeneration to_string ix).
Proof.
assert (H : forall picks,
           keeps (others_kept ix) (handleImageGeneration_from to_string picks ix)).
{ induction picks as [|p picks IH]; cbn [handleImageGeneration_from];
    repeat keeps_step fail. }
intros w. apply H.
Qed.

Lemma others_kept_generateChapterContent ix :
keeps (others_kept ix)
  (generateChapterContent trim to_string stringify buildChapterPrompt
     buildIntroductionPrompt ix).
Proof.
pose proof (others_kept_handleImageGeneration ix) as Hh.
assert (H : forall reviews isIntroduction prompt,
           keeps (others_kept ix)
             (generation_loop trim to_string stringify buildChapterPrompt reviews
                ix isIntroduction prompt)).
{ induction reviews as [|r reviews IH]; intros isIntroduction prompt;
    cbn [generation_loop]; repeat keeps_step fail. }
unfold generateChapterContent. repeat keeps_step fail.
intros w. apply H.
Qed.

Lemma others_kept_handleChapter ix :
keeps (others_kept ix)
  (handleChapter trim to_string stringify buildChapterPrompt
     buildIntroductionPrompt ix).
Proof.
pose proof (others_kept_generateChapterContent ix) as Hg.
assert (H : forall menu,
           keeps (others_kept ix)
             (handleChapter_from trim to_string stringify buildChapterPrompt
                buildIntroductionPrompt menu ix)).
{ induction menu as [|m menu IH]; cbn [handleChapter_from];
    repeat keeps_step fail. }
intros w. apply H.
Qed.

Lemma image_only_handleImageGeneration ix :
keeps image_only (handleImageGeneration to_string ix).
Proof.
assert (H : forall picks,
           keeps image_only (handleImageGeneration_from to_string picks ix)).
{ induction picks as [|p picks IH]; cbn [handleImageGeneration_from];
    repeat keeps_step image_only_side. }
intros w. apply H.
Qed.

(** X5: Working on one chapter (its menu, generation, reviews, image
  generation) changes nothing else in the book in memory: every other
  chapter, the story variables and all settings are what they were. *)
Theorem handleChapter_touches_one_chapter ix w j :
j <> ix ->
let b := memory w in
let b' :=
  memory (snd (handleChapter trim to_string stringify buildChapterPrompt
                 buildIntroductionPrompt ix w)) in
nth_error (chapters b') j = nth_error (chapters b) j
/\ storyVariables b' = storyVariables b
/\ openAIConfig b' = openAIConfig b
/\ chatConfig b' = chatConfig b
/\ imageConfig b' = imageConfig b.
Proof.
intros Hj. cbv zeta. destruct (others_kept_handleChapter ix w) as [H1 H2].
split; [now apply H1|].
unfold with_chapters in H2. now injection H2.
Qed.

(** X6: Image generation never touches the written book: every chapter's
  status, text and generation record, the story variables and content.md
  are the same after [handleImageGeneration], however it ends. *)
Theorem handleImageGeneration_keeps_the_text ix w :
let w' := snd (handleImageGeneration to_string ix w) in
map status (chapters (memory w')) = map status (chapters (memory w))
/\ map text (chapters (memory w')) = map text (chapters (memory w))
/\ map generationConfig (chapters (memory w'))
   = map generationConfig (chapters (memory w))
/\ storyVariables (memory w') = storyVariables (memory w)
/\ content_md (disk w') = content_md (disk w).
Proof.
cbv zeta. destruct (image_only_handleImageGeneration ix w) as (H1 & H2 & H3).
destruct (without_image_fields _ _ H1) as (S1 & S2 & S3).
repeat split; try assumption.
unfold with_chapters in H2. now injection H2.
Qed.
End OneChapter.


(** **** Runs that end early *)

Lemma select_some {A : Type} (choices : list (A * bool)) moves :
  filter (fun c => negb (snd c)) choices <> [] ->
  exists a, select choices moves = Some a.
Proof.
  intros H. unfold select.
  set (l := map fst (filter (fun c => negb (snd c)) choices)).
  assert (Hl : List.length l <> 0).
  { subst l. rewrite length_map. destruct (filter _ choices); [congruence|discriminate]. }
  destruct (nth_error l (moves mod List.length l)) eqn:E; [eauto|].
  apply nth_error_None in E. pose proof (Nat.mod_upper_bound moves _ Hl). lia.
Qed.

Section WithoutText.
Variable to_string : value -> string.
(** X7: For a chapter without text (none, or the empty text), image
  generation asks for the style and the composition and then gives up:
  it returns [false] after [selectSceneForImage] has returned [null],
  with no request to the chat or image service, and with the book in
  memory, book-state.json, content.md and the image files as they were. *)
Theorem image_needs_a_text ix c w s ss p ps :
nth_error (chapters (memory w)) ix = Some c ->
nonempty (text c) = false ->
style_picks (image_answers w) = s :: ss ->
preset_picks (image_answers w) = p :: ps ->
exists w',
  handleImageGeneration to_string ix w = (Ret (Some false), w')
  /\ memory w' = memory w /\ disk w' = disk w /\ openai_log w' = openai_log w
  /\ scene_replies (image_answers w') = scene_replies (image_answers w)
  /\ image_replies (image_answers w') = image_replies (image_answers w).
Proof.
intros Hc Ht Hs Hp.
destruct (select_some style_choices s) as [style Hstyle]; [discriminate|].
destruct (select_some preset_choices p) as [preset Hpreset]; [discriminate|].
unfold handleImageGeneration. rewrite Hs. cbn [handleImageGeneration_from].
unfold try_catch, bind, get_chapter. rewrite Hc.
unfold ask_style. cbv zeta. rewrite Hs, Hstyle.
unfold ask_preset. cbn [image_answers with_image_answers preset_picks]. rewrite Hp, Hpreset.
unfold get_memory, the_chatConfig, bind. cbn.
destruct (chatConfig (memory w)); cbn.
- destruct (text c) as [[|a t]|]; try discriminate; cbn; eexists; repeat split.
- eexists; repeat split.
Qed.
End WithoutText.

Lemma nth_error_replace_at_here {A : Type} (l : list A) ix a c :
  nth_error l ix = Some c -> nth_error (replace_at ix a l) ix = Some a.
Proof.
  revert ix. induction l as [|x l IH]; intros [|ix] H; cbn in *; try discriminate; eauto.
Qed.

Lemma find_index_first {A : Type} (f : A -> bool) (l : list A) k ck :
  nth_error l k = Some ck -> f ck = true ->
  exists ix c,
    find_index f l = Some ix /\ ix <= k /\ nth_error l ix = Some c /\ f c = true
    /\ (forall j cj, j < ix -> nth_error l j = Some cj -> f cj = false).
Proof.
  revert k. induction l as [|x l IH]; intros [|k] Hk Hf; cbn in *; try discriminate.
  - injection Hk as ->. rewrite Hf. exists 0, ck. repeat split; auto. intros; lia.
  - destruct (f x) eqn:Hx.
    + exists 0, x. repeat split; auto with arith. intros; lia.
    + destruct (IH k Hk Hf) as (ix & c & H1 & H2 & H3 & H4 & H5).
      exists (S ix), c. rewrite H1. cbn. repeat split; auto with arith.
      intros [|j] cj Hj Hn; cbn in Hn; [congruence|]. apply (H5 j); auto with arith.
Qed.

Lemma select_all_enabled {A B : Type} (g : A -> B) (l : list A) moves :
  select (map (fun a => (g a, false)) l) moves
  = nth_error (map g l) (moves mod List.length l).
Proof.
  unfold select.
  assert (E : map fst (filter (fun c : B * bool => negb (snd c))
                         (map (fun a => (g a, false)) l)) = map g l).
  { induction l as [|a l IH]; cbn; [reflexivity|now rewrite IH]. }
  rewrite E, length_map. reflexivity.
Qed.

(** X8: [selectChapter] returns the first chapter that bears the id of
    the entry chosen: never a later one, so with two chapters of the same id
    the second cannot be opened, and the chosen one itself when the ids are
    all different. *)
Theorem selectChapter_returns_first_with_id w m ms :
  chapters (memory w) <> [] ->
  chapter_picks (book_answers w) = m :: ms ->
  let l := chapters (memory w) in
  let k := m mod List.length l in
  exists ix,
    fst (selectChapter w) = Ret ix
    /\ ix <= k
    /\ option_map id (nth_error l ix) = option_map id (nth_error l k)
    /\ (forall j, j < ix ->
          option_map id (nth_error l j) <> option_map id (nth_error l k))
    /\ (NoDup (map id l) -> ix = k).
Proof.
  intros Hne Hm l k.
  assert (Hk : k < List.length l).
  { apply Nat.mod_upper_bound. subst l. destruct (chapters (memory w)); [congruence|discriminate]. }
  destruct (nth_error l k) as [ck|] eqn:Hck; [|apply nth_error_None in Hck; lia].
  destruct (find_index_first (fun ch => (id ch =? id ck)%string) l k ck Hck
              (String.eqb_refl _)) as (ix & c & H1 & H2 & H3 & H4 & H5).
  exists ix. unfold selectChapter, bind, get_memory, ask_chapter_pick.
  cbv zeta. rewrite Hm. cbn [memory with_book_answers].
  rewrite select_all_enabled. fold l. fold k.
  rewrite nth_error_map, Hck. cbn [option_map]. rewrite H1. cbn.
  apply String.eqb_eq in H4.
  split; [reflexivity|]. split; [exact H2|]. rewrite H3. cbn.
  split; [congruence|]. split.
  - intros j Hj. destruct (nth_error l j) as [cj|] eqn:Hcj; [|discriminate].
    cbn. intros E. idtac. injection E as E. apply String.eqb_eq in E.
    rewrite (H5 j cj Hj Hcj) in E. discriminate.
  - intros Hnd. apply (proj1 (NoDup_nth_error (map id l))); [exact Hnd| |].
    + rewrite length_map. lia.
    + rewrite !nth_error_map, H3, Hck. cbn. congruence.
Qed.

Lemma set_status_run ix s w c :
  nth_error (chapters (memory w)) ix = Some c ->
  set_status ix s w
  = (Ret tt,
     with_status_writes
       (status_writes w
        ++ [{| written_chapter := ix; status_before := status c; status_after := s |}])
       (with_memory
          (with_chapters (replace_at ix (with_status s c) (chapters (memory w)))
             (memory w)) w)).
Proof.
  intros H. unfold set_status, update_chapter, bind, get_chapter, get_memory,
    put_memory, record_status_write. rewrite H. cbn. rewrite H. reflexivity.
Qed.

Section Reopen.
Variable trim : string -> string.
Variable to_string : value -> string.
Variable stringify : value -> string.
Variable buildChapterPrompt : string -> list string -> value -> string.
Variable buildIntroductionPrompt : value -> string.

(** X9: Acceptance is not final.  In the menu of an accepted chapter,
  [mark_wip] followed by [back] sets the chapter to [wip] in memory and in
  book-state.json, and leaves content.md, with the section appended when
  the chapter was accepted, as it is. *)
Theorem accepted_chapter_can_be_reopened ix c w m m' rest :
nth_error (chapters (memory w)) ix = Some c ->
status c = accepted ->
chapter_menu (chapter_answers w) = m :: m' :: rest ->
m mod 5 = 2 -> m' mod 5 = 4 ->
exists w',
  handleChapter trim to_string stringify buildChapterPrompt
    buildIntroductionPrompt ix w = (Ret tt, w')
  /\ nth_error (chapters (memory w')) ix = Some (with_status wip c)
  /\ book_state_json (disk w') = Some (memory w')
  /\ content_md (disk w') = content_md (disk w).
Proof.
intros Hc Hs Hmenu Hm Hm'.
unfold handleChapter. rewrite Hmenu. cbn [handleChapter_from].
unfold bind at 1. unfold get_chapter at 1. rewrite Hc.
unfold bind at 1. unfold ask_chapter_menu at 1. cbv zeta. rewrite Hmenu.
unfold select, chapter_choices. rewrite Hs.
cbn [status_eqb filter map negb snd fst List.length].
rewrite Hm. cbn [nth_error].
match goal with |- context [bind (set_status ix wip) _ ?w1] => set (w1' := w1) end.
assert (Hc1 : nth_error (chapters (memory w1')) ix = Some c) by exact Hc.
unfold bind at 1. rewrite (set_status_run ix wip w1' c Hc1).
unfold bind at 1. unfold saveBookState at 1.
unfold bind at 1. unfold get_chapter at 1.
cbn [memory with_disk with_status_writes with_memory chapters with_chapters].
rewrite (nth_error_replace_at_here _ ix _ c Hc1).
unfold bind at 1. unfold ask_chapter_menu at 1. cbv zeta.
cbn [chapter_answers with_disk with_status_writes with_memory with_chapter_answers
     chapter_menu w1'].
unfold select, chapter_choices.
cbn [status with_status status_eqb filter map negb snd fst List.length].
rewrite Hm'. cbn [nth_error].
eexists. split; [reflexivity|]. cbn.
split; [apply (nth_error_replace_at_here _ ix _ c Hc)|]. split; reflexivity.
Qed.
End Reopen.

(** **** What is on disk is what is in memory *)

(** book-state.json holds the book in memory. *)
Definition saved (w : World) : Prop := book_state_json (disk w) = Some (memory w).

(** Chapter [ix] exists: the state of the world between an assignment to
    the chapter and the next [saveBookState]. *)
Definition open_at (ix : nat) (w : World) : Prop :=
  nth_error (chapters (memory w)) ix <> None.

(** Started in a world with [P], [m] returns in one with [Q] or stops, by
    an error or for want of an answer, in one that is [saved]. *)
Definition lands {A : Type} (P : World -> Prop) (m : M A) (Q : World -> Prop) : Prop :=
  forall w, P w ->
    match m w with
    | (Ret _, w') => Q w'
    | (_, w') => saved w'
    end.

Lemma lands_bind {A B : Type} P Q R (m : M A) (k : A -> M B) :
  lands P m Q -> (forall a, lands Q (k a) R) -> lands P (bind m k) R.
Proof.
  intros Hm Hk w HP. unfold bind. specialize (Hm w HP).
  destruct (m w) as [[a|e|] w']; try exact Hm. now apply Hk.
Qed.

Lemma lands_try_catch {A : Type} P Q (m : M A) (h : string -> M A) :
  lands P m Q -> (forall e, lands saved (h e) Q) -> lands P (try_catch m h) Q.
Proof.
  intros Hm Hh w HP. unfold try_catch. specialize (Hm w HP).
  destruct (m w) as [[a|e|] w']; try exact Hm. now apply Hh.
Qed.

Lemma lands_weaken {A : Type} (P P' Q Q' : World -> Prop) (m : M A) :
  lands P' m Q' -> (forall w, P w -> P' w) -> (forall w, Q' w -> Q w) -> lands P m Q.
Proof.
  intros H HP HQ w Hw. specialize (H w (HP w Hw)).
  destruct (m w) as [[a|e|] w']; auto.
Qed.

(** The commands that leave the book in memory and book-state.json alone. *)
Definition same_store (w w' : World) : Prop :=
  memory w' = memory w /\ book_state_json (disk w') = book_state_json (disk w).

Lemma same_store_ok : relation_ok same_store.
Proof.
  split.
  - intros w1 w2 w3 [A1 A2] [B1 B2]. split; congruence.
  - intros w w' (Hm & Hd & _). split; congruence.
Qed.

Lemma same_store_log_openai e : keeps same_store (log_openai e).
Proof. intros w. now split. Qed.
Lemma same_store_append_content s : keeps same_store (append_content s).
Proof. intros w. now split. Qed.
Lemma same_store_write_image_file p d : keeps same_store (write_image_file p d).
Proof. intros w. now split. Qed.
Lemma same_store_copy_image_file s t : keeps same_store (copy_image_file s t).
Proof. intros w. unfold copy_image_file. break_match; now split. Qed.

#[export] Hint Resolve same_store_ok same_store_log_openai same_store_append_content
  same_store_write_image_file same_store_copy_image_file : keeps.

Lemma lands_same_store {A : Type} (m : M A) :
  keeps same_store m -> lands saved m saved.
Proof.
  intros H w Hw. specialize (H w). destruct H as [H1 H2].
  assert (saved (snd (m w))) by (unfold saved in *; congruence).
  destruct (m w) as [[a|e|] w']; assumption.
Qed.

Lemma lands_same_store_open {A : Type} ix (m : M A) :
  keeps same_store m -> lands (fun w => saved w /\ open_at ix w) m
                          (fun w => saved w /\ open_at ix w).
Proof.
  intros H w [Hw Ho]. specialize (H w). destruct H as [H1 H2].
  assert (saved (snd (m w)) /\ open_at ix (snd (m w)))
    by (unfold saved, open_at in *; split; congruence).
  destruct (m w) as [[a|e|] w']; tauto.
Qed.

Lemma lands_get_chapter ix :
  lands saved (get_chapter ix) (fun w => saved w /\ open_at ix w).
Proof.
  intros w Hw. unfold get_chapter, open_at.
  destruct (nth_error (chapters (memory w)) ix) eqn:E; [|exact Hw].
  split; [exact Hw|congruence].
Qed.

Lemma lands_update_chapter ix f (P : World -> Prop) :
  (forall w, P w -> open_at ix w) ->
  lands P (update_chapter ix f) (open_at ix).
Proof.
  intros HP w Hw. apply HP in Hw. unfold open_at in *.
  unfold update_chapter, bind, get_chapter, get_memory, put_memory.
  destruct (nth_error (chapters (memory w)) ix) as [c|] eqn:E; [|congruence].
  cbn. now rewrite (nth_error_replace_at_here _ ix _ c E).
Qed.

Lemma lands_set_status ix s (P : World -> Prop) :
  (forall w, P w -> open_at ix w) ->
  lands P (set_status ix s) (open_at ix).
Proof.
  intros HP w Hw. apply HP in Hw. unfold open_at in *.
  unfold set_status, update_chapter, bind, get_chapter, get_memory, put_memory,
    record_status_write.
  destruct (nth_error (chapters (memory w)) ix) as [c|] eqn:E; [|congruence].
  cbn. rewrite E. cbn. now rewrite (nth_error_replace_at_here _ ix _ c E).
Qed.

Lemma lands_now_open ix : lands (open_at ix) now (open_at ix).
Proof. intros w Hw. exact Hw. Qed.

Lemma lands_append_content_open ix s : lands (open_at ix) (append_content s) (open_at ix).
Proof. intros w Hw. exact Hw. Qed.

Lemma lands_write_image_file_open ix s d :
  lands (open_at ix) (write_image_file s d) (open_at ix).
Proof. intros w Hw. exact Hw. Qed.

Lemma lands_saveBookState ix :
  lands (open_at ix) saveBookState (fun w => saved w /\ open_at ix w).
Proof. intros w Hw. split; [reflexivity|exact Hw]. Qed.

Lemma lands_assign_save {A : Type} (f : BookState -> BookState) (k : unit -> M A) Q :
  (forall u, lands saved (k u) Q) ->
  lands saved
    (bind get_memory (fun bookState =>
       bind (put_memory (f bookState)) (fun _ => bind saveBookState k))) Q.
Proof.
  intros Hk w Hw. unfold bind at 1 2 3. unfold get_memory, put_memory, saveBookState.
  apply Hk. reflexivity.
Qed.

Lemma lands_call {A B : Type} P Q (g : World -> B) (f : B -> M A) :
  (forall b, lands P (f b) Q) -> lands P (fun w => f (g w) w) Q.
Proof. intros H w. apply H. Qed.

Ltac lands_side :=
  let w := fresh "w" in
  let H := fresh "H" in
  intros w H; cbv beta in *; try (cbn; tauto); try exact H.

Ltac lands_step :=
  match goal with
  | |- lands _ (bind get_memory (fun b => bind (put_memory _) (fun _ => bind saveBookState _))) _ =>
      apply lands_assign_save; intros ?
  | |- lands _ (match ?x with _ => _ end) _ => destruct x
  | |- lands _ (if ?x then _ else _) _ => destruct x
  | |- lands _ (let _ := _ in _) _ => cbv zeta
  | |- lands _ (try_catch _ _) _ => eapply lands_try_catch; [|intros ?]
  | |- lands _ (ret _) _ => solve [lands_side]
  | |- lands _ (throw _) _ => solve [lands_side]
  | |- lands _ halt _ => solve [lands_side]
  | H : lands saved ?m saved |- lands _ (bind ?m _) _ =>
      eapply lands_bind;
      [eapply lands_weaken; [exact H|lands_side|lands_side]|intros ?]
  | H : lands saved ?m saved |- lands _ ?m _ =>
      eapply lands_weaken; [exact H|lands_side|lands_side]
  | H : forall a, lands saved (@?m a) saved |- lands _ (bind ?n _) _ =>
      eapply lands_bind;
      [eapply lands_weaken; [simple apply H|lands_side|lands_side]|intros ?]
  | H : forall a, lands saved _ saved |- lands _ _ _ =>
      eapply lands_weaken; [simple apply H|lands_side|lands_side]
  | H : forall a b, lands saved _ saved |- lands _ _ _ =>
      eapply lands_weaken; [simple apply H|lands_side|lands_side]
  | |- lands _ (bind (match ?x with _ => _ end) _) _ =>
      eapply lands_bind; [destruct x|intros ?]
  | |- lands _ (bind (get_chapter ?ix) _) _ =>
      eapply lands_bind;
      [eapply lands_weaken; [apply (lands_get_chapter ix)|lands_side|lands_side]
      |intros ?]
  | |- lands _ (bind (update_chapter ?ix _) _) _ =>
      eapply lands_bind; [apply lands_update_chapter; lands_side|intros ?]
  | |- lands _ (bind (set_status ?ix _) _) _ =>
      eapply lands_bind; [apply lands_set_status; lands_side|intros ?]
  | |- lands (open_at _) (bind now _) _ =>
      eapply lands_bind; [apply lands_now_open|intros ?]
  | |- lands (open_at _) (bind (append_content _) _) _ =>
      eapply lands_bind; [apply lands_append_content_open|intros ?]
  | |- lands (open_at _) (bind (write_image_file _ _) _) _ =>
      eapply lands_bind; [apply lands_write_image_file_open|intros ?]
  | |- lands (open_at _) (bind saveBookState _) _ =>
      eapply lands_bind; [apply lands_saveBookState|intros ?]
  | |- lands saved (bind _ _) _ =>
      eapply lands_bind;
      [apply lands_same_store; solve [repeat keeps_step fail]|intros ?]
  | |- lands (fun w => saved w /\ open_at _ w) (bind _ _) _ =>
      eapply lands_bind;
      [apply lands_same_store_open; solve [repeat keeps_step fail]|intros ?]
  end.

Section Saved.
Variable trim : string -> string.
Variable to_string : value -> string.
Variable stringify : value -> string.
Variable buildChapterPrompt : string -> list string -> value -> string.
Variable buildIntroductionPrompt : value -> string.

Lemma lands_handleImageGeneration ix :
lands saved (handleImageGeneration to_string ix) saved.
Proof.
assert (H : forall picks,
           lands saved (handleImageGeneration_from to_string picks ix) saved).
{ induction picks as [|p picks IH]; cbn [handleImageGeneration_from];
    repeat lands_step. }
intros w. apply H.
Qed.

Lemma lands_generation_loop ix reviews : forall isIntroduction prompt,
lands saved
  (generation_loop trim to_string stringify buildChapterPrompt reviews ix
     isIntroduction prompt) saved.
Proof.
pose proof (lands_handleImageGeneration ix) as Hh.
induction reviews as [|r reviews IH]; intros isIntroduction prompt;
  cbn [generation_loop]; repeat lands_step.
Qed.

Lemma lands_generateChapterContent ix :
lands saved
  (generateChapterContent trim to_string stringify buildChapterPrompt
     buildIntroductionPrompt ix) saved.
Proof.
pose proof (lands_generation_loop ix) as Hl.
unfold generateChapterContent. repeat lands_step.
all: intros w Hw; apply (Hl _ _ _ w); cbv beta in Hw; tauto.
Qed.

Lemma lands_handleChapter ix :
lands saved
  (handleChapter trim to_string stringify buildChapterPrompt
     buildIntroductionPrompt ix) saved.
Proof.
pose proof (lands_generateChapterContent ix) as Hg.
assert (H : forall menu,
           lands saved
             (handleChapter_from trim to_string stringify buildChapterPrompt
                buildIntroductionPrompt menu ix) saved).
{ induction menu as [|m menu IH]; cbn [handleChapter_from]; repeat lands_step. }
intros w. apply H.
Qed.

Lemma lands_book_menu_loop menu :
lands saved
  (book_menu_loop trim to_string stringify buildChapterPrompt
     buildIntroductionPrompt menu) saved.
Proof.
pose proof lands_handleChapter as Hh.
induction menu as [|a menu IH]; cbn [book_menu_loop]; repeat lands_step.
Qed.

(** X10: Whenever [manageBook] stops (it returns, an error ends it, or it is
  left waiting at a question), book-state.json holds the book as it is in
  memory: every change of the book in memory is saved before the next
  question is asked. *)
Theorem manageBook_leaves_the_book_saved w :
book_state_json (disk w) <> None ->
saved (snd (manageBook trim to_string stringify buildChapterPrompt
              buildIntroductionPrompt w)).
Proof.
intros Hb. destruct (book_state_json (disk w)) as [b|] eqn:E; [|congruence].
rewrite (manageBook_loaded _ _ _ _ _ w b E).
pose proof (lands_book_menu_loop (book_menu (book_answers w)) (with_memory b w) E) as H.
destruct (book_menu_loop _ _ _ _ _ _ _) as [[u|e|] w']; exact H.
Qed.
End Saved.

(** **** What the accepted image is *)

(** Runs of [m] that start where [P] holds and return [a] stop where
    [Q a] holds. *)
Definition yields {A : Type} (P : World -> Prop) (m : M A)
    (Q : A -> World -> Prop) : Prop :=
  forall w, P w -> match m w with (Ret a, w') => Q a w' | _ => True end.

Lemma yields_bind {A B : Type} P Q R (m : M A) (k : A -> M B) :
  yields P m Q -> (forall a, yields (Q a) (k a) R) -> yields P (bind m k) R.
Proof.
  intros Hm Hk w HP. unfold bind. specialize (Hm w HP).
  destruct (m w) as [[a|e|] w']; try exact I. now apply Hk.
Qed.

Lemma yields_try_catch {A : Type} P Q (m : M A) (h : string -> M A) :
  yields P m Q -> (forall e, yields (fun _ => True) (h e) Q) ->
  yields P (try_catch m h) Q.
Proof.
  intros Hm Hh w HP. unfold try_catch. specialize (Hm w HP).
  destruct (m w) as [[a|e|] w']; try exact I; [exact Hm|now apply Hh].
Qed.

Lemma yields_ret {A : Type} (P : World -> Prop) (a : A) (Q : A -> World -> Prop) :
  (forall w, P w -> Q a w) -> yields P (ret a) Q.
Proof. intros H w Hw. now apply H. Qed.

Lemma yields_from_anywhere {A : Type} (P : World -> Prop) (m : M A) Q :
  yields (fun _ => True) m Q -> yields P m Q.
Proof. intros H w _. now apply H. Qed.

Lemma yields_throw {A : Type} P e (Q : A -> World -> Prop) : yields P (throw e) Q.
Proof. intros w _. exact I. Qed.

Lemma yields_halt {A : Type} P (Q : A -> World -> Prop) : yields P halt Q.
Proof. intros w _. exact I. Qed.

Lemma yields_kept {A : Type} R (P : World -> Prop) (m : M A) :
  keeps R m -> (forall w w', R w w' -> P w -> P w') ->
  yields P m (fun _ => P).
Proof.
  intros Hm HP w Hw. specialize (Hm w).
  destruct (m w) as [[a|e|] w']; try exact I. now apply (HP w).
Qed.

(** The commands that leave the book in memory and the image files alone. *)
Definition same_files (w w' : World) : Prop :=
  memory w' = memory w /\ image_files (disk w') = image_files (disk w).

Lemma same_files_ok : relation_ok same_files.
Proof.
  split.
  - intros w1 w2 w3 [A1 A2] [B1 B2]. split; congruence.
  - intros w w' (Hm & Hd & _). split; congruence.
Qed.

Lemma same_files_log_openai e : keeps same_files (log_openai e).
Proof. intros w. now split. Qed.
Lemma same_files_saveBookState : keeps same_files saveBookState.
Proof. intros w. now split. Qed.

#[export] Hint Resolve same_files_ok same_files_log_openai
  same_files_saveBookState : keeps.

(** Chapter [ix] of the book in memory is [c]. *)
Definition holds_at (ix : nat) (c : Chapter) (w : World) : Prop :=
  nth_error (chapters (memory w)) ix = Some c.

(** The files at [a] and at [b] are there and hold the same image. *)
Definition same_image (a b : string) (w : World) : Prop :=
  exists data,
    read_file a (image_files (disk w)) = Some data
    /\ read_file b (image_files (disk w)) = Some data.

Definition final_path (c : Chapter) : string :=
  "images/chapter_" ++ id c ++ "_image.png".

(** The image of chapter [ix] is accepted, and the file it names as its
    final one is a copy of the temporary file it names. *)
Definition accepted_file (ix : nat) (w : World) : Prop :=
  exists c i temp,
    holds_at ix c w
    /\ image c = Some i
    /\ image_status i = accepted
    /\ tempPath i = Some temp
    /\ localPath i = Some (final_path c)
    /\ same_image temp (final_path c) w.

Lemma yields_get_chapter ix :
  yields (fun _ => True) (get_chapter ix) (fun c w => holds_at ix c w).
Proof.
  intros w _. unfold get_chapter, holds_at.
  destruct (nth_error (chapters (memory w)) ix) eqn:E; [exact E|exact I].
Qed.

Lemma yields_generateImage ix c config prompt path :
  yields (holds_at ix c) (generateImage config prompt path)
    (fun out w => holds_at ix c w /\ same_image out out w).
Proof.
  intros w Hw. unfold generateImage, bind, await_image.
  destruct (image_replies (image_answers w)) as [|[message|data] rest]; cbn;
    try exact I.
  split; [exact Hw|]. exists data. cbn. rewrite read_file_put_file.
  rewrite String.eqb_refl. now split.
Qed.

Lemma yields_update_chapter ix c f (F : World -> Prop) :
  (forall w b, F w -> F (with_memory b w)) ->
  yields (fun w => holds_at ix c w /\ F w) (update_chapter ix f)
    (fun _ w => holds_at ix (f c) w /\ F w).
Proof.
  intros HF w [Hw HFw]. unfold holds_at in *.
  unfold update_chapter, bind, get_chapter, get_memory, put_memory.
  rewrite Hw. cbn. split.
  - now apply nth_error_replace_at_here with (c := c).
  - now apply HF.
Qed.

Lemma yields_copy_image_file ix c source target :
  yields (fun w => holds_at ix c w /\ same_image source source w)
    (copy_image_file source target)
    (fun _ w => holds_at ix c w /\ same_image source target w).
Proof.
  intros w [Hw (data & Hs & _)]. unfold copy_image_file. rewrite Hs. cbn.
  split; [exact Hw|]. exists data. cbn. rewrite !read_file_put_file.
  rewrite String.eqb_refl. destruct (target =? source)%string; now split.
Qed.

Section Accepted.
Variable to_string : value -> string.

Ltac kept_side :=
let w := fresh "w" in
let w' := fresh "w" in
let Hm := fresh "Hm" in
let Hf := fresh "Hf" in
let H := fresh "H" in
intros w w' [Hm Hf] H; cbv beta in *; unfold holds_at, same_image in *;
rewrite ?Hm, ?Hf; exact H.

Ltac yields_step :=
match goal with
| |- yields _ (match ?x with _ => _ end) _ => destruct x
| |- yields _ (let _ := _ in _) _ => cbv zeta
| |- yields _ (throw _) _ => apply yields_throw
| |- yields _ halt _ => apply yields_halt
| |- yields _ (ret (Some false)) _ => apply yields_ret; intros ? _; discriminate
| |- yields _ (ret None) _ => apply yields_ret; intros ? _; discriminate
| |- yields _ (bind (generateImage _ _ _) _) _ =>
    eapply yields_bind; [apply yields_generateImage|intros ?]
| |- yields _ (bind (copy_image_file _ _) _) _ =>
    eapply yields_bind; [apply yields_copy_image_file|intros ?]
| |- yields _ (bind (update_chapter _ _) _) _ =>
    eapply yields_bind;
    [apply yields_update_chapter; intros ? ? H; exact H|intros ?]
| |- yields _ (bind _ _) _ =>
    eapply yields_bind;
    [apply yields_kept with (R := same_files);
     [solve [repeat keeps_step fail]|kept_side]|intros ?]
end.

Lemma accepted_image_is_the_copy picks ix :
yields (fun _ => True) (handleImageGeneration_from to_string picks ix)
  (fun r w => r = Some true -> accepted_file ix w).
Proof.
induction picks as [|p picks IH]; cbn [handleImageGeneration_from];
  (apply yields_try_catch; [|intros e; apply yields_ret; intros ? _; discriminate]);
  (eapply yields_bind; [apply yields_get_chapter|intros chapter]).
- repeat yields_step.
- repeat yields_step; try (apply yields_from_anywhere; exact IH).
  all: apply yields_ret; intros w [Hc Hs] _; cbn in Hc;
    eexists _, _, _; split; [exact Hc|]; cbn; repeat split; exact Hs.
Qed.

Lemma accepted_image_is_copied ix w :
fst (handleImageGeneration to_string ix w) = Ret (Some true) ->
accepted_file ix (snd (handleImageGeneration to_string ix w)).
Proof.
unfold handleImageGeneration. intros H.
pose proof (accepted_image_is_the_copy (style_picks (image_answers w)) ix w I) as Hy.
destruct (handleImageGeneration_from _ _ _ _) as [[r|e|] w']; cbn in *;
  try discriminate.
apply Hy. congruence.
Qed.
End Accepted.

Section Files.
Variable trim : string -> string.
Variable to_string : value -> string.
Variable stringify : value -> string.
Variable buildChapterPrompt : string -> list string -> value -> string.
Variable buildIntroductionPrompt : value -> string.

(** X3: What a session does to the files of the book.  [manageBook] only
  ever adds to content.md, and it takes no image file away: the paths of
  the image files that were there are still there, in their order, and
  new paths come after them, whatever happens in the session (errors and
  a session that is cut short included).  What an image file holds is
  not kept: when [handleImageGeneration] returns [true], the image of the
  chapter is accepted and images/chapter_<id>_image.png holds a copy of
  the temporary file that [chapter.image.tempPath] names, whatever it
  held before ([fs.copyFile] writes over the image accepted earlier). *)
Theorem manageBook_keeps_files_and_replaces_images :
(forall w,
   let w' :=
     snd (manageBook trim to_string stringify buildChapterPrompt
            buildIntroductionPrompt w) in
   (exists more, content_md (disk w') = (content_md (disk w) ++ more)%string)
   /\ (exists more,
         map fst (image_files (disk w')) = map fst (image_files (disk w)) ++ more))
/\ (forall ix w,
      fst (handleImageGeneration to_string ix w) = Ret (Some true) ->
      accepted_file ix (snd (handleImageGeneration to_string ix w))).
Proof.
split.
- intros w. apply manageBook_adds_files.
- intros ix w. apply accepted_image_is_copied.
Qed.
End Files.

(** **** The theorems at work on the small book *)

#[local] Abbreviation sample_book_menu_loop :=
  (book_menu_loop Samples.plain_trim Samples.plain_to_string Samples.plain_stringify
     Samples.plain_chapter_prompt Samples.plain_introduction_prompt).
#[local] Abbreviation sample_manageBook :=
  (manageBook Samples.plain_trim Samples.plain_to_string Samples.plain_stringify
     Samples.plain_chapter_prompt Samples.plain_introduction_prompt).
#[local] Abbreviation sample_handleChapter :=
  (handleChapter Samples.plain_trim Samples.plain_to_string Samples.plain_stringify
     Samples.plain_chapter_prompt Samples.plain_introduction_prompt).

Lemma manageBook_keeps_files_and_replaces_images_witness :
  let w := Sessions.image_accepted_again in
  let w' := snd (handleImageGeneration Samples.plain_to_string 0 w) in
  read_file "images/chapter_introduction_image.png" (image_files (disk w))
  = Some "the old image"
  /\ accepted_file 0 w'
  /\ read_file "images/chapter_introduction_image.png" (image_files (disk w'))
     = Some "the new image".
Proof.
  cbv zeta. split; [reflexivity|]. split; [|vm_compute; reflexivity].
  apply (proj2 (manageBook_keeps_files_and_replaces_images Samples.plain_trim
                  Samples.plain_to_string Samples.plain_stringify
                  Samples.plain_chapter_prompt Samples.plain_introduction_prompt)
           0 Sessions.image_accepted_again).
  vm_compute. reflexivity.
Defined.

Lemma manageBook_saves_the_same_book_witness :
  exists b',
    book_state_json (disk (snd (sample_manageBook Sessions.busy_session))) = Some b'
    /\ map id (chapters b') = map id (chapters Samples.new_book)
    /\ map topic (chapters b') = map topic (chapters Samples.new_book)
    /\ map lessonContext (chapters b') = map lessonContext (chapters Samples.new_book)
    /\ title b' = title Samples.new_book
    /\ createdAt b' = createdAt Samples.new_book
    /\ chatConfig b' = chatConfig Samples.new_book
    /\ imageConfig b' = imageConfig Samples.new_book
    /\ currentContext b' = currentContext Samples.new_book.
Proof.
  apply (manageBook_saves_the_same_book Samples.plain_trim Samples.plain_to_string
           Samples.plain_stringify Samples.plain_chapter_prompt
           Samples.plain_introduction_prompt Sessions.busy_session Samples.new_book).
  reflexivity.
Defined.

Lemma handleChapter_touches_one_chapter_witness :
  let b := memory Samples.deferred_then_marked in
  let b' := memory (snd (sample_handleChapter 0 Samples.deferred_then_marked)) in
  nth_error (chapters b') 1 = nth_error (chapters b) 1
  /\ storyVariables b' = storyVariables b
  /\ openAIConfig b' = openAIConfig b
  /\ chatConfig b' = chatConfig b
  /\ imageConfig b' = imageConfig b.
Proof.
  apply (handleChapter_touches_one_chapter Samples.plain_trim Samples.plain_to_string
           Samples.plain_stringify Samples.plain_chapter_prompt
           Samples.plain_introduction_prompt 0 Samples.deferred_then_marked 1).
  discriminate.
Defined.

Lemma image_needs_a_text_witness :
  exists w',
    handleImageGeneration Samples.plain_to_string 1 Sessions.image_too_early
    = (Ret (Some false), w')
    /\ memory w' = memory Sessions.image_too_early
    /\ disk w' = disk Sessions.image_too_early
    /\ openai_log w' = openai_log Sessions.image_too_early
    /\ scene_replies (image_answers w')
       = scene_replies (image_answers Sessions.image_too_early)
    /\ image_replies (image_answers w')
       = image_replies (image_answers Sessions.image_too_early).
Proof.
  eapply (image_needs_a_text Samples.plain_to_string 1 _ Sessions.image_too_early
            3 [] 1 []); reflexivity.
Defined.

Lemma accepted_chapter_can_be_reopened_witness :
  exists w',
    sample_handleChapter 0 Sessions.reopen_introduction = (Ret tt, w')
    /\ option_map status (nth_error (chapters (memory w')) 0) = Some wip
    /\ book_state_json (disk w') = Some (memory w')
    /\ content_md (disk w') = content_md (disk Sessions.reopen_introduction).
Proof.
  destruct (accepted_chapter_can_be_reopened Samples.plain_trim
              Samples.plain_to_string Samples.plain_stringify
              Samples.plain_chapter_prompt Samples.plain_introduction_prompt
              0 _ Sessions.reopen_introduction 2 4 []
              eq_refl eq_refl eq_refl eq_refl eq_refl)
    as (w' & H1 & H2 & H3 & H4).
  exists w'. rewrite H2. repeat split; assumption.
Defined.

Lemma selectChapter_returns_first_with_id_witness :
  exists ix,
    fst (selectChapter Sessions.pick_from_the_end) = Ret ix
    /\ ix <= 2
    /\ option_map id (nth_error (chapters Samples.new_book) ix)
       = Some "basicConcepts_distinguishingWantsAndNeeds"
    /\ (NoDup (map id (chapters Samples.new_book)) -> ix = 2).
Proof.
  destruct (selectChapter_returns_first_with_id Sessions.pick_from_the_end 7 [])
    as (ix & H1 & H2 & H3 & _ & H5); [discriminate|reflexivity|].
  exists ix. split; [exact H1|]. split; [exact H2|]. split; [exact H3|exact H5].
Defined.

Lemma manageBook_leaves_the_book_saved_witness :
  saved (snd (sample_manageBook Sessions.busy_session)).
Proof.
  apply (manageBook_leaves_the_book_saved Samples.plain_trim Samples.plain_to_string
           Samples.plain_stringify Samples.plain_chapter_prompt
           Samples.plain_introduction_prompt Sessions.busy_session).
  discriminate.
Defined.

End WorkflowFacts.

(** *** Mystic status polling: every run *)
Module MysticRuns.
Import Mystic.

Lemma checkMysticTaskStatus_polls_bound stringify endpoint maxAttempts :
  polls (checkMysticTaskStatus stringify endpoint maxAttempts) <= maxAttempts.
Proof.
  unfold checkMysticTaskStatus.
  assert (H : forall left attempt,
             polls (poll_from stringify endpoint maxAttempts left attempt)
             <= attempt + left).
  { induction left as [|left IH]; intros attempt; cbn; [lia|].
    destruct (attempt_body stringify (endpoint attempt)) as [res|[]]; cbn; [lia|].
    specialize (IH (S attempt)). lia. }
  apply (H maxAttempts 0).
Qed.

Section Runs.
Variable stringify : reply -> string.
Variable endpoint : nat -> reply.

(** How a run of the loop started at [attempt] with [left] passes to go
  ends: all passes fall through, or one ends the function. *)
Lemma poll_from_cases maxAttempts : forall left attempt,
let r := poll_from stringify endpoint maxAttempts left attempt in
(polls r = attempt + left
 /\ outcome r = Raised ("Timeout after " ++ dec maxAttempts ++ " attempts")
 /\ forall j, attempt <= j < attempt + left ->
              attempt_body stringify (endpoint j) = inr tt)
\/ (exists k res,
      attempt <= k < attempt + left
      /\ polls r = S k
      /\ outcome r = res
      /\ attempt_body stringify (endpoint k) = inl res
      /\ forall j, attempt <= j < k ->
                   attempt_body stringify (endpoint j) = inr tt).
Proof.
induction left as [|left IH]; intros attempt; cbn zeta.
- left. cbn. split; [lia|]. split; [reflexivity|]. intros; lia.
- cbn [poll_from].
  destruct (attempt_body stringify (endpoint attempt)) as [res|[]] eqn:E.
  + right. exists attempt, res. cbn.
    split; [lia|]. split; [reflexivity|]. split; [reflexivity|].
    split; [exact E|]. intros; lia.
  + destruct (IH (S attempt)) as [(H1 & H2 & H3)|(k & res & H1 & H2 & H3 & H4 & H5)].
    * left. split; [lia|]. split; [exact H2|].
      intros j Hj. destruct (Nat.eq_dec j attempt) as [->|]; [exact E|].
      apply H3. lia.
    * right. exists k, res.
      split; [lia|]. split; [exact H2|]. split; [exact H3|]. split; [exact H4|].
      intros j Hj. destruct (Nat.eq_dec j attempt) as [->|]; [exact E|].
      apply H5. lia.
Qed.

Lemma attempt_body_returned r url :
attempt_body stringify r = inl (Returned url) ->
exists more, r = Resolved "COMPLETED" (Some (url :: more)).
Proof.
destruct r as [message|status generated]; cbn; [discriminate|].
destruct (status =? "COMPLETED")%string eqn:Es; cbn.
- destruct generated as [[|u more]|]; cbn.
  + destruct (status =? "FAILED")%string; discriminate.
  + intros H. injection H as <-. apply String.eqb_eq in Es. subst. eauto.
  + destruct (status =? "FAILED")%string; discriminate.
- destruct (status =? "FAILED")%string; discriminate.
Qed.

(** X11: [checkMysticTaskStatus] never issues more than [maxAttempts]
  status requests, and it stops at the first reply that does not send it
  on to the next poll: either all [maxAttempts] replies sent it on and the
  outcome is the timeout error, or the outcome is what the body of the
  loop makes of the reply to the last request issued. *)
Theorem checkMysticTaskStatus_stops_at_first_verdict maxAttempts :
let r := checkMysticTaskStatus stringify endpoint maxAttempts in
polls r <= maxAttempts
/\ ((polls r = maxAttempts
     /\ outcome r = Raised ("Timeout after " ++ dec maxAttempts ++ " attempts")
     /\ forall j, j < maxAttempts -> attempt_body stringify (endpoint j) = inr tt)
    \/ (exists k,
          polls r = S k
          /\ attempt_body stringify (endpoint k) = inl (outcome r)
          /\ forall j, j < k -> attempt_body stringify (endpoint j) = inr tt)).
Proof.
cbv zeta. unfold checkMysticTaskStatus.
destruct (poll_from_cases maxAttempts maxAttempts 0)
  as [(H1 & H2 & H3)|(k & res & H1 & H2 & H3 & H4 & H5)].
- split; [cbn in H1; lia|]. left.
  split; [exact H1|]. split; [exact H2|]. intros j Hj. apply H3. lia.
- split; [lia|]. right. exists k. rewrite H3.
  split; [exact H2|]. split; [exact H4|]. intros j Hj. apply H5. lia.
Qed.

(** X12: A URL that [checkMysticTaskStatus] returns is the first generated
  URL of a COMPLETED reply, that reply is the reply to the last request it
  issued, and no earlier reply was a verdict. *)
Theorem checkMysticTaskStatus_returns_only_completed maxAttempts url :
outcome (checkMysticTaskStatus stringify endpoint maxAttempts) = Returned url ->
exists k more,
  k < maxAttempts
  /\ polls (checkMysticTaskStatus stringify endpoint maxAttempts) = S k
  /\ endpoint k = Resolved "COMPLETED" (Some (url :: more))
  /\ forall j, j < k -> attempt_body stringify (endpoint j) = inr tt.
Proof.
unfold checkMysticTaskStatus. intros Hr.
destruct (poll_from_cases maxAttempts maxAttempts 0)
  as [(H1 & H2 & H3)|(k & res & H1 & H2 & H3 & H4 & H5)].
- rewrite H2 in Hr. discriminate.
- rewrite H3 in Hr. subst res.
  destruct (attempt_body_returned _ _ H4) as [more Hm].
  exists k, more. split; [lia|]. split; [exact H2|]. split; [exact Hm|].
  intros j Hj. apply H5. lia.
Qed.

(** X13: A status request that itself fails is not tried again: the
  function raises "Error checking task status: " followed by the message
  of the failure, after that request. *)
Theorem checkMysticTaskStatus_gives_up_on_a_failed_request maxAttempts k message :
k < maxAttempts ->
(forall j, j < k -> attempt_body stringify (endpoint j) = inr tt) ->
endpoint k = Rejected message ->
checkMysticTaskStatus stringify endpoint maxAttempts
= {| outcome := Raised ("Error checking task status: " ++ message);
     polls := S k |}.
Proof.
intros Hk Hp He. unfold checkMysticTaskStatus.
assert (Hb : attempt_body stringify (endpoint k)
             = inl (Raised ("Error checking task status: " ++ message)))
  by now rewrite He.
destruct (poll_from_cases maxAttempts maxAttempts 0)
  as [(H1 & H2 & H3)|(k' & res & H1 & H2 & H3 & H4 & H5)].
- rewrite H3 in Hb by lia. discriminate.
- assert (k' = k).
  { destruct (Nat.lt_trichotomy k' k) as [Hlt|[Heq|Hgt]]; [|exact Heq|].
    - rewrite (Hp k' Hlt) in H4. discriminate.
    - rewrite H5 in Hb by lia. discriminate. }
  subst k'. rewrite Hb in H4. injection H4 as <-.
  destruct (poll_from _ _ _ _ _) as [o p]. cbn in *. now subst.
Qed.
End Runs.

Lemma checkMysticTaskStatus_returns_only_completed_witness :
  exists k more,
    k < 60
    /\ polls (checkMysticTaskStatus Sessions.plain_reply Sessions.ready_at_second 60) = S k
    /\ Sessions.ready_at_second k
       = Resolved "COMPLETED" (Some ("https://cdn.example/1.png" :: more))
    /\ forall j, j < k -> attempt_body Sessions.plain_reply (Sessions.ready_at_second j) = inr tt.
Proof.
  apply (checkMysticTaskStatus_returns_only_completed Sessions.plain_reply
           Sessions.ready_at_second 60).
  reflexivity.
Defined.

Lemma checkMysticTaskStatus_gives_up_on_a_failed_request_witness :
  checkMysticTaskStatus Sessions.plain_reply Sessions.breaks_at_second 60
  = {| outcome := Raised "Error checking task status: socket hang up"; polls := 2 |}.
Proof.
  apply (checkMysticTaskStatus_gives_up_on_a_failed_request Sessions.plain_reply
           Sessions.breaks_at_second 60 1 "socket hang up").
  - lia.
  - intros [|j] Hj; [reflexivity|lia].
  - reflexivity.
Defined.

End MysticRuns.

(** *** Illustration prompts: the tables *)
Module ImageStylesTables.
Import ImageStyles.

(** X14: [getIllustrationPrompt] throws exactly when the description is
    missing or empty, whatever the style and the preset. *)
Theorem getIllustrationPrompt_throws_iff_no_description description style preset :
  (exists message, getIllustrationPrompt description style preset = Raised message)
  <-> (description = None \/ description = Some "").
Proof.
  unfold getIllustrationPrompt, illustrationPrompt. split.
  - intros [message H]. destruct description as [d|]; [|now left].
    destruct (d =? "")%string eqn:E; [apply String.eqb_eq in E; subst; now right|].
    exfalso. revert H.
    match goal with |- context [if ?c then _ else _] => destruct c end;
      cbn [DEFAULT_IMAGE_STYLE_PROMPT]; discriminate.
  - intros [->| ->]; eexists; reflexivity.
Qed.

(** The entry of the style table that a name selects, and the entry of the
    preset table that a key selects. *)
Definition style_of (name' : string) : option Style :=
  find (fun s => (name s =? name')%string) DEFAULT_IMAGE_STYLE_PROMPT.

Definition style_entry_ok (s : Style) : bool :=
  match style_of (name s) with
  | Some s' => (prompt s' =? prompt s)%string && negb (prompt s =? "")%string
  | None => false
  end.

Definition preset_entry_ok (kv : string * Preset) : bool :=
  match lookup_preset IMAGE_STYLE_PRESETS (fst kv) with
  | Some p => (promptAddon p =? promptAddon (snd kv))%string
  | None => false
  end.

Lemma style_entries_ok : forallb style_entry_ok DEFAULT_IMAGE_STYLE_PROMPT = true.
Proof. vm_compute. reflexivity. Qed.

Lemma preset_entries_ok : forallb preset_entry_ok IMAGE_STYLE_PRESETS = true.
Proof. vm_compute. reflexivity. Qed.

(** X15: Every style and every composition offered in the image menu
    stands for itself: for a style [s] of the style table, a preset [p]
    listed under [key] in the preset table and a non-empty description, the
    prompt is the prompt of [s], the addendum of [p] and the scene, so no
    entry of either table is shadowed by an earlier one or falls back to
    the first style. *)
Theorem getIllustrationPrompt_uses_the_chosen_entries s key p x :
  In s DEFAULT_IMAGE_STYLE_PROMPT ->
  In (key, p) IMAGE_STYLE_PRESETS ->
  x <> "" ->
  getIllustrationPrompt (Some x) (Some (name s)) (Some key)
  = Returned (prompt s ++ " " ++ promptAddon p ++ " Scene: " ++ x)%string.
Proof.
  intros Hs Hp Hx.
  pose proof (proj1 (forallb_forall _ _) style_entries_ok s Hs) as Hs'.
  pose proof (proj1 (forallb_forall _ _) preset_entries_ok (key, p) Hp) as Hp'.
  unfold style_entry_ok, style_of in Hs'. unfold preset_entry_ok in Hp'. cbn [fst snd] in Hp'.
  unfold getIllustrationPrompt, illustrationPrompt.
  apply String.eqb_neq in Hx. rewrite Hx.
  destruct (find _ DEFAULT_IMAGE_STYLE_PROMPT) as [s'|]; [|discriminate].
  apply andb_true_iff in Hs' as [E1 E2]. apply String.eqb_eq in E1.
  rewrite E1. apply negb_true_iff in E2. rewrite E2.
  destruct (lookup_preset IMAGE_STYLE_PRESETS key) as [p'|]; [|discriminate].
  apply String.eqb_eq in Hp'. rewrite Hp'.
  unfold or_else. destruct (promptAddon p =? "")%string eqn:E3; [|reflexivity].
  apply String.eqb_eq in E3. now rewrite E3.
Qed.

Lemma getIllustrationPrompt_uses_the_chosen_entries_witness :
  exists s p,
    name s = "watercolor"
    /\ getIllustrationPrompt (Some "a fox") (Some "watercolor") (Some "metaphorVisual")
       = Returned (prompt s ++ " " ++ promptAddon p ++ " Scene: " ++ "a fox")%string.
Proof.
  destruct (style_of "watercolor") as [s|] eqn:Es; [|discriminate].
  destruct (lookup_preset IMAGE_STYLE_PRESETS "metaphorVisual") as [p|] eqn:Ep;
    [|discriminate].
  exists s, p.
  assert (Hn : name s = "watercolor").
  { apply find_some in Es. apply String.eqb_eq. apply Es. }
  split; [exact Hn|]. rewrite <- Hn at 1.
  apply (getIllustrationPrompt_uses_the_chosen_entries s "metaphorVisual" p "a fox").
  - apply find_some in Es. apply Es.
  - unfold lookup_preset in Ep.
    destruct (find _ IMAGE_STYLE_PRESETS) as [[k q]|] eqn:Ef; [|discriminate].
    cbn in Ep. injection Ep as ->. apply find_some in Ef as [Hin Hk].
    apply String.eqb_eq in Hk. cbn in Hk. now subst k.
  - discriminate.
Defined.
End ImageStylesTables.

(** *** A new book *)
Module NewBookFacts.
Import BookState.

(** No ["_"] in [s]. *)
Fixpoint underscore_free (s : string) : bool :=
  match s with
  | EmptyString => true
  | String c r => negb (Ascii.eqb c "_"%char) && underscore_free r
  end.

Lemma joined_injective a b a' b' :
  underscore_free a = true -> underscore_free a' = true ->
  (a ++ "_" ++ b = a' ++ "_" ++ b')%string -> a = a' /\ b = b'.
Proof.
  revert a'. induction a as [|c a IH]; intros [|c' a'] Ha Ha' H; cbn in *.
  - injection H as H. now split.
  - injection H as Hc H. subst c'. cbn in Ha'. discriminate.
  - injection H as Hc H. subst c. cbn in Ha. discriminate.
  - injection H as Hc H. subst c'.
    apply andb_true_iff in Ha as [_ Ha]. apply andb_true_iff in Ha' as [_ Ha'].
    destruct (IH a' Ha Ha' H) as [-> ->]. now split.
Qed.

Lemma joined_has_underscore a b : underscore_free (a ++ "_" ++ b) = false.
Proof.
  induction a as [|c a IH]; cbn in *; [reflexivity|].
  rewrite IH. apply andb_false_r.
Qed.

Lemma append_cancel (a b b' : string) : (a ++ b = a ++ b')%string -> b = b'.
Proof. induction a as [|c a IH]; cbn; intros H; [exact H|]. injection H as H. auto. Qed.

Lemma NoDup_map_injective {A B : Type} (f : A -> B) (l : list A) :
  (forall x y, f x = f y -> x = y) -> NoDup l -> NoDup (map f l).
Proof.
  intros Hf. induction 1 as [|x l Hx _ IH]; cbn; constructor; [|exact IH].
  intros Hin. apply in_map_iff in Hin as (y & E & Hy). apply Hf in E. now subst.
Qed.

Lemma fold_left_push_all {A B C : Type} (f : A -> B -> C) (sub : A -> list B)
    (l : list A) (acc : list C) :
  fold_left (fun chapters a =>
               fold_left (fun chapters b => push chapters (f a b)) (sub a) chapters)
            l acc
  = acc ++ flat_map (fun a => map (f a) (sub a)) l.
Proof.
  revert acc. induction l as [|a l IH]; intros acc; cbn [fold_left flat_map].
  - now rewrite app_nil_r.
  - rewrite IH, app_assoc. f_equal.
    generalize (sub a). intros bs. revert acc.
    induction bs as [|b bs IHb]; intros acc; cbn; [now rewrite app_nil_r|].
    rewrite IHb. unfold push. now rewrite <- app_assoc.
Qed.

Section Lessons.
Variable BOOK_CONTENT : list Lesson.

Definition lesson_ids (lesson : Lesson) : list string :=
map (fun topic => (lesson_id lesson ++ "_" ++ key topic)%string) (topics lesson).

Lemma chapters_of_lessons :
initializeChaptersFromLessons BOOK_CONTENT
= {| id := "introduction"; topic := "Introduction"; status := not_generated;
     text := None; lessonContext := None; image := Some initial_image;
     generationConfig := None |}
  :: flat_map
       (fun lesson =>
          map (fun topic =>
                 {| id := (lesson_id lesson ++ "_" ++ key topic)%string;
                    topic := topic_title topic;
                    status := not_generated;
                    lessonContext :=
                      Some {| example := topic_example topic;
                              summary := topic_summary topic |};
                    text := None;
                    image := Some initial_image;
                    generationConfig := None |})
              (topics lesson))
       BOOK_CONTENT
  ++ [ {| id := "conclusion"; topic := "Conclusion"; status := not_generated;
          text := None; lessonContext := None; image := Some initial_image;
          generationConfig := None |} ].
Proof.
unfold initializeChaptersFromLessons. rewrite fold_left_push_all. reflexivity.
Qed.

(** X16: In a new book no chapter has been generated: every chapter has
  status [not_generated], no text and no generation record, and an image
  record with status [not_generated]; the chapter that "next chapter"
  opens is the introduction. *)
Theorem new_book_starts_at_the_introduction title now :
let book := initializeBookState BOOK_CONTENT title now in
Forall (fun c => status c = not_generated /\ text c = None
                 /\ generationConfig c = None
                 /\ option_map image_status (image c) = Some not_generated)
       (chapters book)
/\ option_map id (Cli.getNextChapter (chapters book)) = Some "introduction"
/\ currentContext book = "".
Proof.
cbv zeta. cbn [initializeBookState chapters currentContext].
rewrite chapters_of_lessons. split; [|split; reflexivity].
constructor; [now repeat split|].
apply Forall_app. split; [|constructor; [now repeat split|constructor]].
apply Forall_flat_map. apply Forall_forall. intros lesson _.
apply Forall_map. apply Forall_forall. intros t _. now repeat split.
Qed.

(** X17: The chapter ids of a new book are all different when the lesson
  ids are different from one another and contain no ["_"], and the topic
  keys of each lesson are different from one another. *)
Theorem new_book_chapter_ids_differ title now :
NoDup (map lesson_id BOOK_CONTENT) ->
Forall (fun lesson => underscore_free (lesson_id lesson) = true
                      /\ NoDup (map key (topics lesson))) BOOK_CONTENT ->
NoDup (map id (chapters (initializeBookState BOOK_CONTENT title now))).
Proof.
intros Hids Hall. cbn [initializeBookState chapters].
rewrite chapters_of_lessons. cbn [map id]. rewrite map_app. cbn [map id].
match goal with |- context [map id (flat_map ?g BOOK_CONTENT)] =>
  assert (E : map id (flat_map g BOOK_CONTENT) = flat_map lesson_ids BOOK_CONTENT)
end.
{ clear. induction BOOK_CONTENT as [|lesson rest IH]; [reflexivity|].
  cbn [flat_map]. rewrite map_app, IH. f_equal.
  unfold lesson_ids. now rewrite map_map. }
rewrite E. clear E. set (ids := flat_map lesson_ids BOOK_CONTENT).
assert (Hin : forall x, In x ids ->
          exists lesson t, In lesson BOOK_CONTENT
                           /\ x = (lesson_id lesson ++ "_" ++ key t)%string).
{ intros x Hx. subst ids. apply in_flat_map in Hx as (lesson & Hlesson & Hx).
  apply in_map_iff in Hx as (t & <- & Ht). exists lesson, t. now split. }
assert (Hmid : NoDup ids).
{ subst ids. clear Hin. induction BOOK_CONTENT as [|lesson rest IH]; [constructor|].
  cbn [flat_map]. cbn [map] in Hids. inversion Hids as [|? ? Hnotin Hrest]; subst.
  inversion Hall as [|? ? [Hfree Hkeys] Hall']; subst.
  apply NoDup_app.
  - unfold lesson_ids.
    rewrite <- (map_map key (fun k => (lesson_id lesson ++ "_" ++ k)%string)).
    apply NoDup_map_injective; [|exact Hkeys].
    intros x y E. apply append_cancel in E. now injection E.
  - now apply IH.
  - intros x Hx Hx'. apply in_map_iff in Hx as (t & <- & Ht).
    apply in_flat_map in Hx' as (lesson' & Hlesson' & Hx').
    apply in_map_iff in Hx' as (t' & E & Ht').
    assert (Hfree' : underscore_free (lesson_id lesson') = true).
    { apply (proj1 (Forall_forall _ _) Hall' lesson' Hlesson'). }
    apply joined_injective in E as [E _]; [|assumption|assumption].
    apply Hnotin. rewrite <- E. now apply in_map. }
assert (Hfresh : forall x, underscore_free x = true -> ~ In x ids).
{ intros x Hx Hi. apply Hin in Hi as (lesson & t & _ & ->).
  rewrite joined_has_underscore in Hx. discriminate. }
constructor.
- intros Hi. apply in_app_or in Hi as [Hi|[Hi|[]]]; [|discriminate].
  now apply (Hfresh "introduction").
- apply NoDup_app; [exact Hmid|constructor; [intros []|constructor]|].
  intros x Hx [<-|[]]. now apply (Hfresh "conclusion").
Qed.
End Lessons.

Lemma new_book_chapter_ids_differ_witness :
  NoDup (map id (chapters (initializeBookState Samples.lessons "My Book"
                             "2025-01-01T00:00:00.000Z"))).
Proof.
  apply (new_book_chapter_ids_differ Samples.lessons).
  - repeat constructor; cbn; intuition discriminate.
  - repeat constructor; cbn; intuition discriminate.
Defined.
End NewBookFacts.

(** *** Pruning the answers of the configuration dialogue *)
Module PruningFacts.
Import Js PromptBuilder.

(** Neither an array nor an object. *)
Definition plain_item (v : value) : bool :=
  match v with VArr _ | VObj _ => false | _ => true end.

(** The arrays of [v], at any depth below object keys, hold plain items
    only: the shape of what the configuration dialogue builds from
    comma-separated answers. *)
Fixpoint flat_arrays (v : value) : bool :=
  match v with
  | VArr items => forallb plain_item items
  | VObj entries => forallb (fun kv => flat_arrays (snd kv)) entries
  | _ => true
  end.

Lemma flat_arrays_settled v : flat_arrays v = true -> PromptBuilderFacts.settled v = true.
Proof.
  induction v as [| |b|n|s|items IH|entries IH] using value_ind; try reflexivity.
  - cbn. intros H. apply forallb_forall. intros item Hi.
    apply (proj1 (forallb_forall _ _) H) in Hi.
    destruct item as [| |b|n|s|l|l]; try discriminate; try reflexivity; cbn.
    + now destruct b.
    + now destruct (n =? 0)%Z.
    + now destruct (s =? "")%string.
  - cbn. intros H. apply forallb_forall. intros [k v] Hkv.
    pose proof (proj1 (forallb_forall _ _) H _ Hkv) as Hf.
    apply (proj1 (Forall_forall _ _) IH _ Hkv). exact Hf.
Qed.

(** X18: On story variables whose arrays hold only strings, numbers,
    booleans, [null] or [undefined], such as the configuration dialogue
    builds, pruning twice is pruning once. *)
Theorem cleanObject_idempotent_on_flat_arrays storyVariables :
  flat_arrays storyVariables = true ->
  cleanObject (cleanObject storyVariables) = cleanObject storyVariables.
Proof.
  intros H. apply PromptBuilderFacts.cleanObject_idempotent_on_settled.
  now apply flat_arrays_settled.
Qed.

Lemma cleanObject_idempotent_on_flat_arrays_witness :
  cleanObject (cleanObject Sessions.answered) = cleanObject Sessions.answered.
Proof.
  apply (cleanObject_idempotent_on_flat_arrays Sessions.answered). reflexivity.
Defined.
End PruningFacts.

(** *** What is sent to the chat service *)
Module RequestFacts.
Import Js BookState Cli WorkflowFacts.

(** [minimalVariables] reads the book in memory and nothing else. *)
Lemma minimalVariables_reads w w' :
  memory w' = memory w ->
  minimalVariables w' = (fst (minimalVariables w), w').
Proof.
  intros H. unfold minimalVariables, bind, get_memory, member, ret, throw.
  rewrite H.
  repeat match goal with
         | |- context [match storyVariables ?b with _ => _ end] =>
             destruct (storyVariables b); cbn
         | |- context [match find ?f ?l with _ => _ end] =>
             let p := fresh "p" in destruct (find f l) as [p|]; [destruct p|]; cbn
         | |- context [match ?v with VUndefined => _ | _ => _ end] =>
             is_var v; destruct v; cbn
         end; reflexivity.
Qed.



Section Requests.
Variable trim : string -> string.
Variable to_string : value -> string.
Variable stringify : value -> string.
Variable buildChapterPrompt : string -> list string -> value -> string.
Variable buildIntroductionPrompt : value -> string.



End Requests.

End RequestFacts.

(** *** The text of a chapter *)
Module TextFacts.
Import Js BookState Cli WorkflowFacts RequestFacts.

Lemma bind_run {A B : Type} (m : M A) (k : A -> M B) w a w' :
  m w = (Ret a, w') -> bind m k w = k a w'.
Proof. intros H. unfold bind. now rewrite H. Qed.

Lemma update_chapter_run ix f w c :
  nth_error (chapters (memory w)) ix = Some c ->
  update_chapter ix f w
  = (Ret tt,
     with_memory
       (with_chapters (replace_at ix (f c) (chapters (memory w))) (memory w)) w).
Proof.
  intros H. unfold update_chapter, bind, get_chapter, get_memory, put_memory.
  now rewrite H.
Qed.

Section Blank.
Variable trim : string -> string.
Variable to_string : value -> string.
Variable stringify : value -> string.
Variable buildChapterPrompt : string -> list string -> value -> string.
Variable buildIntroductionPrompt : value -> string.

(** A request that is answered: the reply is logged and returned trimmed,
  and nothing else changes but the queue of replies. *)
Lemma generateChapter_run topic subtopics variables context model temperature
  content rest w :
chat_replies (chapter_answers w) = chat_content content :: rest ->
exists w',
  generateChapter trim buildChapterPrompt topic subtopics variables context
    model temperature w = (Ret (trim content), w')
  /\ memory w' = memory w
  /\ chat_replies (chapter_answers w') = rest
  /\ content_reviews (chapter_answers w') = content_reviews (chapter_answers w).
Proof.
intros H. unfold generateChapter. cbv zeta.
unfold bind at 1. unfold log_openai at 1. cbv beta iota.
unfold bind at 1. unfold await_chat at 1. cbv zeta.
cbn [chapter_answers with_openai_log]. rewrite H. cbv beta iota.
unfold bind, log_openai, ret. eexists. split; [reflexivity|]. cbn.
repeat split.
Qed.

Lemma blank_reply_in_the_loop reviews isIntroduction prompt ix c edited rest
  minimal config draft blank replies later w :
nth_error (chapters (memory w)) ix = Some c ->
prompt_reviews (chapter_answers w) = modify_prompt edited :: rest ->
edited <> "" ->
fst (minimalVariables w) = Ret minimal ->
chatConfig (memory w) = Some config ->
chat_replies (chapter_answers w) = chat_content draft :: chat_content blank :: replies ->
trim blank = "" ->
content_reviews (chapter_answers w) = wip_content :: later ->
reviews <> [] ->
exists w',
  generation_loop trim to_string stringify buildChapterPrompt reviews ix
    isIntroduction prompt w = (Ret false, w')
  /\ book_state_json (disk w') = Some (memory w')
  /\ exists c',
       nth_error (chapters (memory w')) ix = Some c'
       /\ text c' = Some "" /\ status c' = wip.
Proof.
intros Hc Hr He Hmin Hconfig Hchat Hblank Hreview Hreviews.
destruct reviews as [|r0 reviews]; [congruence|]. clear Hreviews.
cbn [generation_loop].
unfold bind at 1. unfold reviewPrompt, bind at 1, ask_prompt_review. cbv zeta.
rewrite Hr. cbn [ret]. cbv beta iota.
destruct edited as [|ch edited]; [congruence|].
match goal with |- context [bind (get_chapter ix) _ ?x] => set (w1 := x) end.
assert (Hm1 : memory w1 = memory w) by reflexivity.
assert (Hchat1 : chat_replies (chapter_answers w1) = chat_content draft :: chat_content blank :: replies) by exact Hchat.
assert (Hrev1 : content_reviews (chapter_answers w1) = wip_content :: later) by exact Hreview.
clearbody w1.
unfold bind at 1. unfold get_chapter at 1. rewrite Hm1, Hc. cbv beta iota.
unfold bind at 1. unfold get_memory at 1. cbv beta iota.
unfold bind at 1. rewrite (minimalVariables_reads w w1 Hm1), Hmin. cbv beta iota.
unfold bind at 1. unfold the_chatConfig at 1, bind at 1, get_memory at 1.
cbv beta iota. rewrite Hm1, Hconfig. cbn [ret]. cbv beta iota.
destruct (generateChapter_run
            (if isIntroduction then "Introduction" else topic c)
            (if isIntroduction then [] else subtopics_of c) minimal
            (currentContext (memory w)) (chatModel config) (temperature config)
            draft (chat_content blank :: replies) w1 Hchat1)
  as (w2 & Hrun2 & Hm2 & Hchat2 & Hrev2).
rewrite (bind_run _ _ _ _ _ Hrun2).
match goal with
| |- context [generateChapter trim buildChapterPrompt "Content Personalization" [] ?v ?p ?m ?t] =>
    destruct (generateChapter_run "Content Personalization" [] v p m t
                blank replies w2 Hchat2)
      as (w3 & Hrun3 & Hm3 & Hchat3 & Hrev3)
end.
rewrite (bind_run _ _ _ _ _ Hrun3). rewrite Hblank.
assert (Hc3 : nth_error (chapters (memory w3)) ix = Some c) by congruence.
assert (Hrev3' : content_reviews (chapter_answers w3) = wip_content :: later)
  by congruence.
clear Hrun2 Hrun3 Hm2 Hm3 Hchat2 Hchat3 Hrev2 Hrev3 Hchat1 Hrev1 Hm1.
rewrite (bind_run _ _ _ _ _ (update_chapter_run ix _ w3 c Hc3)).
match goal with |- context [bind (set_status ix generated) _ ?x] => set (w4 := x) end.
assert (Hc4 : nth_error (chapters (memory w4)) ix = Some (with_text "" c))
  by apply (nth_error_replace_at_here _ ix _ c Hc3).
assert (Hrev4 : content_reviews (chapter_answers w4) = wip_content :: later)
  by exact Hrev3'.
clearbody w4.
rewrite (bind_run _ _ _ _ _ (set_status_run ix generated w4 _ Hc4)).
match goal with |- context [bind now _ ?x] => set (w5 := x) end.
assert (Hc5 : nth_error (chapters (memory w5)) ix
              = Some (with_status generated (with_text "" c)))
  by apply (nth_error_replace_at_here _ ix _ _ Hc4).
assert (Hrev5 : content_reviews (chapter_answers w5) = wip_content :: later)
  by exact Hrev4.
clearbody w5.
unfold bind at 1. unfold now at 1. cbv beta iota.
match goal with |- context [bind (update_chapter ix ?f) _ ?x] => set (w6 := x) end.
assert (Hc6 : nth_error (chapters (memory w6)) ix
              = Some (with_status generated (with_text "" c))) by exact Hc5.
assert (Hrev6 : content_reviews (chapter_answers w6) = wip_content :: later)
  by exact Hrev5.
clearbody w6.
rewrite (bind_run _ _ _ _ _ (update_chapter_run ix _ w6 _ Hc6)).
unfold bind at 1. unfold saveBookState at 1. cbv beta iota.
unfold bind at 1. unfold reviewContent, ask_content_review at 1. cbv zeta.
cbn [chapter_answers with_disk with_memory]. rewrite Hrev6. cbv beta iota.
match goal with |- context [with_generationConfig ?g _] => set (g0 := g) end.
match goal with |- context [bind (set_status ix wip) _ ?x] => set (w7 := x) end.
assert (Hc7 : nth_error (chapters (memory w7)) ix
              = Some (with_generationConfig g0
                        (with_status generated (with_text "" c))))
  by apply (nth_error_replace_at_here _ ix _ _ Hc6).
clearbody w7.
rewrite (bind_run _ _ _ _ _ (set_status_run ix wip w7 _ Hc7)).
unfold bind, saveBookState, ret. eexists. split; [reflexivity|].
split; [reflexivity|].
eexists. split; [apply (nth_error_replace_at_here _ ix _ _ Hc7)|].
split; reflexivity.
Qed.

(** X2: [chapter.text] is never set back to null, but it can be emptied.
  A chapter whose text is a string still has a string there after any
  run of the book menu: nothing at the book menu or below it assigns
  null or undefined to it.  The string itself is not protected:
  [generateChapterContent] assigns the trimmed reply to the
  personalization request without looking at it, so when the prompt
  review is answered with an edited prompt, the two requests are answered
  and the second reply is blank, and the content review is answered with
  "Save as WIP", the chapter, whatever text it had, is left in memory
  and in book-state.json with the empty text and the status [wip]; the
  empty text is what the review of [handleChapter] and
  [selectSceneForImage] treat as no text. *)
Theorem text_is_never_null_but_can_be_emptied :
(forall menu w j c,
   nth_error (chapters (memory w)) j = Some c ->
   text c <> None ->
   exists c',
     nth_error
       (chapters
          (memory (snd (book_menu_loop trim to_string stringify buildChapterPrompt
                          buildIntroductionPrompt menu w)))) j = Some c'
     /\ text c' <> None)
/\ (forall ix c edited rest minimal config draft blank replies later w,
     nth_error (chapters (memory w)) ix = Some c ->
     prompt_reviews (chapter_answers w) = modify_prompt edited :: rest ->
     edited <> "" ->
     fst (minimalVariables w) = Ret minimal ->
     chatConfig (memory w) = Some config ->
     chat_replies (chapter_answers w)
     = chat_content draft :: chat_content blank :: replies ->
     trim blank = "" ->
     content_reviews (chapter_answers w) = wip_content :: later ->
     exists w' c',
       generateChapterContent trim to_string stringify buildChapterPrompt
         buildIntroductionPrompt ix w = (Ret false, w')
       /\ nth_error (chapters (memory w')) ix = Some c'
       /\ text c' = Some ""
       /\ status c' = wip
       /\ book_state_json (disk w') = Some (memory w')).
Proof.
split.
- intros menu w j c Hj Ht.
  destruct (steady_book_menu_loop trim to_string stringify buildChapterPrompt
              buildIntroductionPrompt menu w) as ((H & _) & _).
  now apply (same_chapters_text _ _ H j c).
- intros ix c edited rest minimal config draft blank replies later w
    Hc Hr He Hmin Hconfig Hchat Hblank Hreview.
  assert (Hloop : forall prompt, exists w',
            generation_loop trim to_string stringify buildChapterPrompt
              (prompt_reviews (chapter_answers w)) ix
              (id c =? "introduction")%string prompt w = (Ret false, w')
            /\ book_state_json (disk w') = Some (memory w')
            /\ exists c',
                 nth_error (chapters (memory w')) ix = Some c'
                 /\ text c' = Some "" /\ status c' = wip).
  { intros prompt.
    apply blank_reply_in_the_loop with (c := c) (edited := edited) (rest := rest)
      (minimal := minimal) (config := config) (draft := draft) (blank := blank)
      (replies := replies) (later := later); auto.
    rewrite Hr. discriminate. }
  unfold generateChapterContent, try_catch.
  unfold bind at 1. unfold get_chapter at 1. rewrite Hc. cbv beta iota.
  unfold bind at 1. unfold get_memory at 1. cbv beta iota.
  assert (Hprompt : exists prompt,
            (if (id c =? "introduction")%string
             then bind minimalVariables
                    (fun minimal => ret (buildIntroductionPrompt minimal))
             else ret (buildChapterPrompt (topic c) (subtopics_of c)
                         (storyVariables (memory w)))) w
            = (Ret prompt, w)).
  { destruct (id c =? "introduction")%string; [|eexists; reflexivity].
    unfold bind. rewrite (minimalVariables_reads w w eq_refl), Hmin.
    eexists. reflexivity. }
  destruct Hprompt as [prompt Hprompt].
  unfold bind at 1. rewrite Hprompt. cbv beta iota.
  destruct (Hloop prompt) as (w' & Hrun & Hsaved & c' & Hc' & Htext & Hstatus).
  rewrite Hrun. exists w', c'. repeat split; assumption.
Qed.
End Blank.

Lemma text_is_never_null_but_can_be_emptied_witness :
  let w := Sessions.blank_regeneration in
  exists c w' c',
    nth_error (chapters (memory w)) 0 = Some c
    /\ text c = Some "Luna's story."
    /\ generateChapterContent Samples.plain_trim Samples.plain_to_string
         Samples.plain_stringify Samples.plain_chapter_prompt
         Samples.plain_introduction_prompt 0 w = (Ret false, w')
    /\ nth_error (chapters (memory w')) 0 = Some c'
    /\ text c' = Some "".
Proof.
  cbv zeta.
  destruct (nth_error (chapters (memory Sessions.blank_regeneration)) 0)
    as [c|] eqn:Hc; [|discriminate].
  destruct (proj2 (text_is_never_null_but_can_be_emptied Samples.plain_trim
                     Samples.plain_to_string Samples.plain_stringify
                     Samples.plain_chapter_prompt Samples.plain_introduction_prompt)
              0 c "Write about dragons." [] 
              (VObj [("characters",
                      VObj [("protagonistName", VStr "Luna");
                            ("protagonistAge", VStr "8")])])
              {| chatModel := "gpt-4"; temperature := 7 # 10 |}
              "A draft." "" [] [] Sessions.blank_regeneration)
    as (w' & c' & Hrun & Hc' & Htext & _);
    [exact Hc|reflexivity|discriminate|reflexivity|reflexivity|reflexivity
    |reflexivity|reflexivity|].
  exists c, w', c'. split; [reflexivity|]. split.
  - vm_compute in Hc. injection Hc as <-. reflexivity.
  - split; [exact Hrun|]. split; assumption.
Defined.

End TextFacts.

(** *** Image generation *)
Module ImageGeneratorFacts.
Import Js ImageGenerator.

Definition is_write (e : event) : bool :=
  match e with FileWritten _ => true | _ => false end.
Definition is_poll (e : event) : bool :=
  match e with StatusPolled _ => true | _ => false end.
Definition is_request (e : event) : bool :=
  match e with ImagesGenerate _ _ _ | TaskCreated _ => true | _ => false end.
Definition is_fetch (e : event) : bool :=
  match e with Fetched _ => true | _ => false end.

(** How many events of a kind a run caused. *)
Definition count (kind : event -> bool) (es : list event) : nat :=
  List.length (filter kind es).

Lemma count_app kind es es' : count kind (es ++ es') = count kind es + count kind es'.
Proof. unfold count. now rewrite filter_app, length_app. Qed.

Lemma count_polls taskId n : count is_poll (repeat (StatusPolled taskId) n) = n.
Proof. induction n as [|n IH]; [reflexivity|]. unfold count in *. cbn. now rewrite IH. Qed.

Lemma count_other_polls kind taskId n :
  kind (StatusPolled taskId) = false -> count kind (repeat (StatusPolled taskId) n) = 0.
Proof.
  intros H. induction n as [|n IH]; [reflexivity|]. unfold count in *. cbn. now rewrite H.
Qed.

(** A run that has written no file. *)
Definition dry {A : Type} (m : G A) : Prop := count is_write (snd m) = 0.

(** A run that, when it returns, has written [path] as the last thing it
    did, after fetching it, and nothing else; and no file when it throws. *)
Definition writes_last {A : Type} (path : string) (m : G A) : Prop :=
  match m with
  | (Returned _, es) =>
      exists before url,
        es = before ++ [Fetched url; FileWritten path] /\ count is_write before = 0
  | (Raised _, es) => count is_write es = 0
  end.

Lemma dry_then {A B : Type} (m : G A) (k : A -> G B) :
  dry m -> (forall a, dry (k a)) -> dry (then_ m k).
Proof.
  unfold dry, then_. destruct m as [[a|message] es]; cbn [snd]; intros Hm Hk;
    [|exact Hm].
  specialize (Hk a). destruct (k a) as [r es']. cbn [snd] in *. rewrite count_app. lia.
Qed.

Lemma writes_last_then {A B : Type} path (m : G A) (k : A -> G B) :
  dry m -> (forall a, writes_last path (k a)) -> writes_last path (then_ m k).
Proof.
  unfold dry, then_, writes_last.
  destruct m as [[a|message] es]; cbn [snd]; intros Hm Hk; [|exact Hm].
  specialize (Hk a). destruct (k a) as [[b|message] es'].
  - destruct Hk as (before & url & -> & Hb). exists (es ++ before), url.
    rewrite count_app, app_assoc. split; [reflexivity|lia].
  - rewrite count_app. lia.
Qed.

Lemma writes_last_rethrow {A : Type} path prefix (m : G A) :
  writes_last path m -> writes_last path (rethrow prefix m).
Proof. destruct m as [[a|message] es]; exact (fun H => H). Qed.

Lemma writes_last_result {A B : Type} path (m : G A) (b : B) :
  writes_last path m -> writes_last path (then_ m (fun _ => pure b)).
Proof.
  unfold writes_last, then_, pure.
  destruct m as [[a|message] es]; [|exact (fun H => H)].
  intros (before & url & -> & Hb). exists before, url. now rewrite app_nil_r.
Qed.

Lemma dry_call {A : Type} (r : result A) : dry (call r).
Proof. reflexivity. Qed.
Lemma dry_fail {A : Type} message : dry (@fail A message).
Proof. reflexivity. Qed.
Lemma dry_polled taskId run : dry (polled taskId run).
Proof. apply count_other_polls. reflexivity. Qed.

Lemma writes_last_fail {A : Type} path message : writes_last path (@fail A message).
Proof. reflexivity. Qed.

(** A run that returns nothing but [path]. *)
Definition returns (path : string) (m : G string) : Prop :=
  forall p, fst m = Returned p -> p = path.

Lemma returns_then {A : Type} path (m : G A) (k : A -> G string) :
  (forall a, returns path (k a)) -> returns path (then_ m k).
Proof.
  unfold returns, then_. destruct m as [[a|message] es]; [|discriminate].
  intros Hk p. specialize (Hk a p). destruct (k a) as [r es']. exact Hk.
Qed.

Lemma returns_rethrow path prefix (m : G string) :
  returns path m -> returns path (rethrow prefix m).
Proof. unfold returns. destruct m as [[a|message] es]; [auto|discriminate]. Qed.

Lemma returns_fail path message : returns path (fail message).
Proof. intros p. discriminate. Qed.

Lemma returns_pure path : returns path (pure path).
Proof. intros p H. now injection H. Qed.

(** A run all of whose events satisfy [P]. *)
Definition every {A : Type} (P : event -> Prop) (m : G A) : Prop := Forall P (snd m).

Lemma every_then {A B : Type} P (m : G A) (k : A -> G B) :
  every P m -> (forall a, every P (k a)) -> every P (then_ m k).
Proof.
  unfold every, then_. destruct m as [[a|message] es]; cbn [snd]; intros Hm Hk;
    [|exact Hm].
  specialize (Hk a). destruct (k a) as [r es']. apply Forall_app. now split.
Qed.

Lemma every_rethrow {A : Type} P prefix (m : G A) : every P m -> every P (rethrow prefix m).
Proof. destruct m as [[a|message] es]; exact (fun H => H). Qed.

Lemma every_silent {A : Type} P (r : result A) : every P (r, []).
Proof. constructor. Qed.

Lemma every_polled P taskId run : P (StatusPolled taskId) -> every P (polled taskId run).
Proof.
  intros H. unfold every, polled. cbn [snd].
  induction (Mystic.polls run); cbn; constructor; auto.
Qed.

(** A run with at most [r] generation requests, [p] status requests and
    [f] fetches. *)
Definition within (r p f : nat) {A : Type} (m : G A) : Prop :=
  count is_request (snd m) <= r /\ count is_poll (snd m) <= p
  /\ count is_fetch (snd m) <= f.

Lemma within_then {A B : Type} r p f r' p' f' (m : G A) (k : A -> G B) :
  within r p f m -> (forall a, within r' p' f' (k a)) ->
  within (r + r') (p + p') (f + f') (then_ m k).
Proof.
  unfold within, then_. destruct m as [[a|message] es]; cbn [snd];
    intros (H1 & H2 & H3) Hk; [|lia].
  destruct (Hk a) as (K1 & K2 & K3). destruct (k a) as [x es']. cbn [snd] in *.
  rewrite !count_app. lia.
Qed.

Lemma within_rethrow {A : Type} r p f prefix (m : G A) :
  within r p f m -> within r p f (rethrow prefix m).
Proof. destruct m as [[a|message] es]; exact (fun H => H). Qed.

Lemma within_silent {A : Type} (x : result A) : within 0 0 0 (x, []).
Proof. repeat split; apply Nat.le_refl. Qed.

Lemma within_more r p f r' p' f' {A : Type} (m : G A) :
  within r p f m -> r <= r' -> p <= p' -> f <= f' -> within r' p' f' m.
Proof. unfold within. lia. Qed.

Lemma rethrow_raised {A : Type} prefix (m : G A) message es :
  rethrow prefix m = (Raised message, es) -> exists inner, message = (prefix ++ inner)%string.
Proof.
  destruct m as [[a|inner] es']; cbn; intros H; [discriminate|].
  injection H as <- _. now exists inner.
Qed.

Lemma then_raised_first {A B : Type} (r : result A) (k : A -> G B) message es :
  then_ (call r) k = (Raised message, es) ->
  (r = Raised message /\ es = []) \/ exists a, r = Returned a /\ k a = (Raised message, es).
Proof.
  unfold then_, call. destruct r as [a|inner].
  - destruct (k a) as [x es'] eqn:E. cbn. intros H. right. exists a. now rewrite <- H.
  - intros H. injection H as <- <-. now left.
Qed.

Lemma find_obj_set_other entries key v k :
  k <> key ->
  find (fun kv : string * value => (fst kv =? k)%string) (obj_set entries key v)
  = find (fun kv : string * value => (fst kv =? k)%string) entries.
Proof.
  intros Hk. induction entries as [|[k' v'] entries IH]; cbn.
  - destruct (key =? k)%string eqn:E; [|reflexivity].
    apply String.eqb_eq in E. congruence.
  - destruct (k' =? key)%string eqn:E; cbn.
    + apply String.eqb_eq in E. subst k'.
      destruct (key =? k)%string eqn:E'; [|reflexivity].
      apply String.eqb_eq in E'. congruence.
    + now rewrite IH.
Qed.

Lemma get_opt_obj_set_other entries key v k :
  k <> key -> get_opt (VObj (obj_set entries key v)) k = get_opt (VObj entries) k.
Proof. intros Hk. unfold get_opt, get. now rewrite find_obj_set_other. Qed.

Section Generator.
Variable to_string : value -> string.
Variable stringify : Mystic.reply -> string.
Variable outside : Outside.

Lemma downloadImage_writes_last url path :
writes_last path (downloadImage outside url path).
Proof.
unfold downloadImage, writes_last, rethrow, then_, emit, call.
destruct (fetch outside url) as [[]|message].
- exists [], url. now split.
- reflexivity.
Qed.

Lemma generateWithOpenAI_writes_last config prompt path :
writes_last path (generateWithOpenAI outside config prompt path).
Proof.
unfold generateWithOpenAI.
apply writes_last_then; [apply dry_call|intros _].
apply writes_last_rethrow.
apply writes_last_then; [apply dry_call|intros model].
apply writes_last_then; [apply dry_call|intros size].
apply writes_last_then; [reflexivity|intros _].
apply writes_last_then; [apply dry_call|intros [|imageUrl data]].
- apply writes_last_fail.
- apply writes_last_result, downloadImage_writes_last.
Qed.

Lemma generateWithMystic_writes_last config prompt path :
writes_last path (generateWithMystic stringify outside config prompt path).
Proof.
unfold generateWithMystic.
destruct (FREEPIK_API_KEY outside) as [[|c key]|]; try apply writes_last_fail.
apply writes_last_rethrow.
do 4 (apply writes_last_then; [apply dry_call|intros ?]).
cbv zeta.
apply writes_last_then; [reflexivity|intros _].
apply writes_last_then; [apply dry_call|intros [[|c' taskId]|]];
  try apply writes_last_fail.
apply writes_last_then; [apply dry_polled|intros imageUrl].
apply writes_last_result, downloadImage_writes_last.
Qed.

(** X20: [generateImage] writes a file exactly when it returns: a call
  that returns has returned [outputPath] and has, as the last two things
  it did, fetched the image and written it to [outputPath], with no other
  file written; a call that throws has written no file. *)
Theorem generateImage_writes_iff_it_returns config prompt outputPath :
match generateImage to_string stringify outside config prompt outputPath with
| (Returned path, events) =>
    path = outputPath
    /\ exists before url,
         events = before ++ [Fetched url; FileWritten outputPath]
         /\ count is_write before = 0
| (Raised _, events) => count is_write events = 0
end.
Proof.
assert (H : writes_last outputPath
              (generateImage to_string stringify outside config prompt outputPath)).
{ unfold generateImage. cbv zeta.
  destruct (falsy (get_opt config "provider")); [apply writes_last_fail|].
  destruct (get_opt config "provider") as [| |b|n|name|l|l];
    try apply writes_last_fail.
  destruct (name =? "openai")%string; [apply generateWithOpenAI_writes_last|].
  destruct (name =? "mystic")%string; [apply generateWithMystic_writes_last|].
  apply writes_last_fail. }
assert (R : returns outputPath
              (generateImage to_string stringify outside config prompt outputPath)).
{ unfold generateImage. cbv zeta.
  destruct (falsy (get_opt config "provider")); [apply returns_fail|].
  destruct (get_opt config "provider") as [| |b|n|name|l|l];
    try apply returns_fail.
  destruct (name =? "openai")%string.
  - unfold generateWithOpenAI. apply returns_then. intros _. apply returns_rethrow.
    do 3 (apply returns_then; intros ?).
    apply returns_then. intros [|imageUrl data]; [apply returns_fail|].
    apply returns_then. intros _. apply returns_pure.
  - destruct (name =? "mystic")%string; [|apply returns_fail].
    unfold generateWithMystic.
    destruct (FREEPIK_API_KEY outside) as [[|c key]|]; try apply returns_fail.
    apply returns_rethrow. do 4 (apply returns_then; intros ?). cbv zeta.
    apply returns_then. intros _.
    apply returns_then. intros [[|c' taskId]|]; try apply returns_fail.
    do 2 (apply returns_then; intros ?). apply returns_pure. }
unfold writes_last in H. unfold returns in R.
destruct (generateImage _ _ _ _ _ _) as [[path|message] events]; [|exact H].
split; [now apply R|exact H].
Qed.

(** X21: Unless the provider of the configuration is the string "openai"
  or the string "mystic", [generateImage] throws without having called
  any service or written any file. *)
Theorem generateImage_needs_a_known_provider config prompt outputPath :
get_opt config "provider" <> VStr "openai" ->
get_opt config "provider" <> VStr "mystic" ->
exists message,
  generateImage to_string stringify outside config prompt outputPath
  = (Raised message, []).
Proof.
intros Ho Hm. unfold generateImage. cbv zeta.
destruct (falsy (get_opt config "provider")); [eexists; reflexivity|].
destruct (get_opt config "provider") as [| |b|n|name|l|l];
  try (eexists; reflexivity).
destruct (name =? "openai")%string eqn:E1;
  [apply String.eqb_eq in E1; subst; congruence|].
destruct (name =? "mystic")%string eqn:E2;
  [apply String.eqb_eq in E2; subst; congruence|].
eexists; reflexivity.
Qed.

(** X22: Every error of [generateImage] tells where it comes from.  It is
  one of the two routing errors, the error of the OpenAI client's
  constructor or the missing Freepik key, each thrown before anything has
  been done; or its message starts with "OpenAI generation failed: " or
  with "Mystic generation failed: ". *)
Theorem generateImage_errors config prompt outputPath message events :
generateImage to_string stringify outside config prompt outputPath
= (Raised message, events) ->
(events = []
 /\ (message = "No image provider configured"
     \/ message = ("Unknown provider: " ++ to_string (get_opt config "provider"))%string
     \/ new_OpenAI outside = Raised message
     \/ message = "FREEPIK_API_KEY not found in environment"))
\/ (exists inner, message = ("OpenAI generation failed: " ++ inner)%string)
\/ (exists inner, message = ("Mystic generation failed: " ++ inner)%string).
Proof.
unfold generateImage. cbv zeta.
destruct (falsy (get_opt config "provider")).
{ intros H. injection H as <- <-. left. auto. }
assert (U : @fail string ("Unknown provider: " ++ to_string (get_opt config "provider"))
            = (Raised message, events) ->
            events = []
            /\ (message = "No image provider configured"
                \/ message = ("Unknown provider: "
                              ++ to_string (get_opt config "provider"))%string
                \/ new_OpenAI outside = Raised message
                \/ message = "FREEPIK_API_KEY not found in environment")).
{ intros H. injection H as <- <-. auto. }
destruct (get_opt config "provider") as [| |b|n|name|l|l] eqn:Ep;
  try (intros H; left; exact (U H)).
destruct (name =? "openai")%string.
- unfold generateWithOpenAI. intros H.
  apply then_raised_first in H as [[H1 H2]|([] & H1 & H2)]; [left; auto|].
  right. left. eapply rethrow_raised. exact H2.
- destruct (name =? "mystic")%string; [|intros H; left; exact (U H)].
  unfold generateWithMystic.
  destruct (FREEPIK_API_KEY outside) as [[|c key]|].
  + intros H. injection H as <- <-. left. auto.
  + intros H. right. right. eapply rethrow_raised. exact H.
  + intros H. injection H as <- <-. left. auto.
Qed.

(** X23: One call of [generateImage] makes at most one generation request,
  at most 60 status requests and at most one download. *)
Theorem generateImage_is_bounded config prompt outputPath :
let events :=
  snd (generateImage to_string stringify outside config prompt outputPath) in
count is_request events <= 1 /\ count is_poll events <= 60
/\ count is_fetch events <= 1.
Proof.
cbv zeta.
change (within 1 60 1
          (generateImage to_string stringify outside config prompt outputPath)).
assert (D : forall url, within 0 0 1 (downloadImage outside url outputPath)).
{ intros url. unfold downloadImage, within, rethrow, then_, emit, call.
  destruct (fetch outside url) as [[]|m]; cbn; lia. }
assert (F : forall message, within 1 60 1 (@fail string message)).
{ intros message. repeat split; cbn; lia. }
unfold generateImage. cbv zeta.
destruct (falsy (get_opt config "provider")); [apply F|].
destruct (get_opt config "provider") as [| |b|n|name|l|l]; try apply F.
destruct (name =? "openai")%string.
- unfold generateWithOpenAI.
  apply (within_then 0 0 0 1 60 1); [apply within_silent|intros _].
  apply within_rethrow.
  apply (within_then 0 0 0 1 60 1); [apply within_silent|intros model].
  apply (within_then 0 0 0 1 60 1); [apply within_silent|intros size].
  apply (within_then 1 0 0 0 60 1); [repeat split; cbn; lia|intros _].
  apply (within_then 0 0 0 0 60 1); [apply within_silent|intros [|url data]].
  + repeat split; cbn; lia.
  + apply (within_then 0 0 1 0 60 0); [apply D|intros _]. repeat split; cbn; lia.
- destruct (name =? "mystic")%string; [|apply F].
  unfold generateWithMystic.
  destruct (FREEPIK_API_KEY outside) as [[|c key]|]; try apply F.
  apply within_rethrow.
  do 4 (apply (within_then 0 0 0 1 60 1); [apply within_silent|intros ?]).
  cbv zeta.
  apply (within_then 1 0 0 0 60 1); [repeat split; cbn; lia|intros _].
  apply (within_then 0 0 0 0 60 1); [apply within_silent|intros [[|c' taskId]|]];
    try (repeat split; cbn; lia).
  apply (within_then 0 60 0 0 0 1).
  + unfold within, polled. cbn [snd].
    rewrite count_polls, !count_other_polls by reflexivity.
    pose proof (MysticRuns.checkMysticTaskStatus_polls_bound stringify
                  (task_status outside (String c' taskId)) 60).
    lia.
  + intros url. apply (within_then 0 0 1 0 0 0); [apply D|intros _].
    repeat split; cbn; lia.
Qed.

(** What a well-formed task request carries. *)
Definition sendable (e : event) : Prop :=
match e with
| TaskCreated body =>
    falsy (creative_detailing body) = false /\ falsy (resolution body) = false
| _ => True
end.

(** X24: The request that creates a Mystic task never carries a creative
  detailing of 0 or an empty resolution: a configured value that is
  falsy, the creative detailing 0 among them, is replaced by 33,
  respectively by "1k". *)
Theorem task_request_replaces_zero config prompt outputPath body :
In (TaskCreated body)
   (snd (generateImage to_string stringify outside config prompt outputPath)) ->
falsy (creative_detailing body) = false
/\ falsy (resolution body) = false
/\ creative_detailing body
   = or_default (get_opt (get_opt config "mystic") "creative_detailing") (VNum 33).
Proof.
intros Hin.
set (mystic := get_opt config "mystic") in *.
assert (H : every (fun e => match e with
                            | TaskCreated b =>
                                sendable e
                                /\ creative_detailing b
                                   = or_default (get_opt mystic "creative_detailing")
                                       (VNum 33)
                            | _ => True
                            end)
              (generateImage to_string stringify outside config prompt outputPath)).
{ unfold generateImage. cbv zeta. fold mystic.
  destruct (falsy (get_opt config "provider")); [apply every_silent|].
  destruct (get_opt config "provider") as [| |b|n|name|l|l]; try apply every_silent.
  destruct (name =? "openai")%string.
  - unfold generateWithOpenAI.
    apply every_then; [apply every_silent|intros _]. apply every_rethrow.
    do 2 (apply every_then; [apply every_silent|intros ?]).
    apply every_then; [now repeat constructor|intros _].
    apply every_then; [apply every_silent|intros [|url data]];
      [apply every_silent|].
    apply every_then; [|intros _; apply every_silent].
    unfold downloadImage. apply every_rethrow.
    apply every_then; [now repeat constructor|intros _].
    apply every_then; [apply every_silent|intros _]. now repeat constructor.
  - destruct (name =? "mystic")%string; [|apply every_silent].
    unfold generateWithMystic.
    destruct (FREEPIK_API_KEY outside) as [[|c key]|]; try apply every_silent.
    apply every_rethrow.
    apply every_then; [apply every_silent|intros resolution].
    apply every_then; [apply every_silent|intros model].
    apply every_then; [apply every_silent|intros engine].
    unfold then_ at 1, call at 1.
    destruct (get mystic "creative_detailing") as [cd|message] eqn:Ecd;
      [|apply every_silent].
    match goal with |- every _ (let (r, es') := ?m in _) =>
      assert (Hm : every (fun e => match e with
                            | TaskCreated b =>
                                sendable e
                                /\ creative_detailing b
                                   = or_default (get_opt mystic "creative_detailing")
                                       (VNum 33)
                            | _ => True
                            end) m); [|destruct m; exact Hm]
    end.
    cbv zeta.
    apply every_then.
    + constructor; [|constructor]. cbn. unfold get_opt. rewrite Ecd.
      repeat split; unfold or_default.
      * now destruct (falsy cd) eqn:E.
      * now destruct (falsy resolution) eqn:E.
    + intros _. apply every_then; [apply every_silent|intros [[|c' taskId]|]];
        try apply every_silent.
      apply every_then; [now apply every_polled|intros url].
      apply every_then; [|intros _; apply every_silent].
      unfold downloadImage. apply every_rethrow.
      apply every_then; [now repeat constructor|intros _].
      apply every_then; [apply every_silent|intros _]. now repeat constructor. }
unfold every in H. rewrite Forall_forall in H. specialize (H _ Hin).
cbn in H. tauto.
Qed.

(** X25: The default illustration style stored in the image configuration
  has no effect on [generateImage]: with or without [imageStyle], and
  whatever its value, the same things are done and the same result is
  returned. *)
Theorem imageStyle_is_never_read entries style prompt outputPath :
generateImage to_string stringify outside
  (VObj (obj_set entries "imageStyle" style)) prompt outputPath
= generateImage to_string stringify outside (VObj entries) prompt outputPath.
Proof.
unfold generateImage.
now rewrite !(get_opt_obj_set_other entries "imageStyle") by discriminate.
Qed.
End Generator.

Lemma generateImage_needs_a_known_provider_witness :
  exists message,
    generateImage Samples.plain_to_string Sessions.plain_reply Sessions.services
      (VObj [("provider", VStr "dalle")]) "A fox" "tmp/fox.png"
    = (Raised message, []).
Proof.
  apply (generateImage_needs_a_known_provider Samples.plain_to_string
           Sessions.plain_reply Sessions.services);
    cbn; discriminate.
Defined.

Lemma generateImage_errors_witness :
  ([] = @nil event
   /\ ("FREEPIK_API_KEY not found in environment" = "No image provider configured"
       \/ "FREEPIK_API_KEY not found in environment"
          = ("Unknown provider: "
             ++ Samples.plain_to_string
                  (get_opt Sessions.mystic_configuration "provider"))%string
       \/ new_OpenAI Sessions.no_key
          = Raised "FREEPIK_API_KEY not found in environment"
       \/ "FREEPIK_API_KEY not found in environment"
          = "FREEPIK_API_KEY not found in environment"))
  \/ (exists inner,
        "FREEPIK_API_KEY not found in environment"
        = ("OpenAI generation failed: " ++ inner)%string)
  \/ (exists inner,
        "FREEPIK_API_KEY not found in environment"
        = ("Mystic generation failed: " ++ inner)%string).
Proof.
  apply (generateImage_errors Samples.plain_to_string Sessions.plain_reply
           Sessions.no_key Sessions.mystic_configuration "A fox" "tmp/fox.png").
  reflexivity.
Defined.

Lemma task_request_replaces_zero_witness :
  exists body,
    In (TaskCreated body)
       (snd (generateImage Samples.plain_to_string Sessions.plain_reply
               Sessions.services Sessions.mystic_configuration "A fox" "tmp/fox.png"))
    /\ get_opt (get_opt Sessions.mystic_configuration "mystic") "creative_detailing"
       = VNum 0
    /\ creative_detailing body = VNum 33.
Proof.
  eexists. split; [left; reflexivity|]. split; [reflexivity|].
  refine (proj2 (proj2 (task_request_replaces_zero Samples.plain_to_string
                          Sessions.plain_reply Sessions.services
                          Sessions.mystic_configuration "A fox" "tmp/fox.png" _ _))).
  left. reflexivity.
Defined.
End ImageGeneratorFacts.

(** *** The image configuration and the image generator *)
Module ImageConfigFacts.
Import Js ImageGenerator ImageConfig.

Lemma chosen_in {A : Type} (choices : list A) pick a :
  chosen choices pick = Some a -> In a choices.
Proof.
  unfold chosen, Cli.select.
  assert (E : map fst (filter (fun c : A * bool => negb (snd c))
                         (map (fun c => (c, false)) choices)) = choices).
  { induction choices as [|c l IH]; cbn; [reflexivity|now rewrite IH]. }
  rewrite E. apply nth_error_In.
Qed.

Lemma find_valid inputs n :
  find valid_detailing inputs = Some n -> (0 <= n <= 100)%Z.
Proof.
  intros H. apply find_some in H as [_ H]. unfold valid_detailing in H.
  apply andb_true_iff in H as [H1 H2]. apply Z.leb_le in H1, H2. lia.
Qed.

(** X26: A configuration that [configureImageGenerator] has built is
    always routed by [generateImage] to one of the two providers, with the
    settings that provider reads: for "openai" a model and its default
    size, for "mystic" a model, an engine, a resolution and a creative
    detailing between 0 and 100. *)
Theorem configured_generation_is_routed answers config :
  configureImageGenerator answers = Some config ->
  (exists model size,
      get_opt config "openai" = VObj [("model", VStr model); ("size", VStr size)]
      /\ forall to_string stringify outside prompt outputPath,
           generateImage to_string stringify outside config prompt outputPath
           = generateWithOpenAI outside (get_opt config "openai") prompt outputPath)
  \/ (exists model engine resolution detailing,
        get_opt config "mystic"
        = VObj [("model", VStr model); ("engine", VStr engine);
                ("resolution", VStr resolution);
                ("creative_detailing", VNum detailing)]
        /\ (0 <= detailing <= 100)%Z
        /\ forall to_string stringify outside prompt outputPath,
             generateImage to_string stringify outside config prompt outputPath
             = generateWithMystic stringify outside (get_opt config "mystic") prompt
                 outputPath).
Proof.
  unfold configureImageGenerator.
  destruct (chosen IMAGE_PROVIDERS (provider_pick answers)) as [provider|] eqn:Ep;
    [|discriminate].
  apply chosen_in in Ep. cbv zeta.
  destruct Ep as [<-|[<-|[]]]; cbn [choice_value String.eqb Ascii.eqb Bool.eqb].
  - destruct (chosen OPENAI_IMAGE_MODELS (model_pick answers)) as [model|];
      [|discriminate].
    destruct (find _ OPENAI_IMAGE_MODELS) as [selected|]; [|discriminate].
    destruct (chosen ImageStyles.DEFAULT_IMAGE_STYLE_PROMPT (style_pick answers))
      as [style|]; [|discriminate].
    intros H. injection H as <-. left. do 2 eexists. split; reflexivity.
  - destruct (chosen MYSTIC_MODELS (model_pick answers)) as [model|]; [|discriminate].
    destruct (chosen MYSTIC_ENGINES (engine_pick answers)) as [engine|];
      [|discriminate].
    destruct (chosen RESOLUTIONS (resolution_pick answers)) as [resolution|];
      [|discriminate].
    destruct (find valid_detailing (creative_detailing_entered answers))
      as [detailing|] eqn:Ed; [|discriminate].
    destruct (chosen ImageStyles.DEFAULT_IMAGE_STYLE_PROMPT (style_pick answers))
      as [style|]; [|discriminate].
    intros H. injection H as <-. right. do 4 eexists.
    split; [reflexivity|]. split; [exact (find_valid _ _ Ed)|]. reflexivity.
Qed.

Lemma configured_generation_is_routed_witness :
  (exists model size,
      get_opt Sessions.mystic_configuration "openai"
      = VObj [("model", VStr model); ("size", VStr size)]
      /\ forall to_string stringify outside prompt outputPath,
           generateImage to_string stringify outside Sessions.mystic_configuration
             prompt outputPath
           = generateWithOpenAI outside
               (get_opt Sessions.mystic_configuration "openai") prompt outputPath)
  \/ (exists model engine resolution detailing,
        get_opt Sessions.mystic_configuration "mystic"
        = VObj [("model", VStr model); ("engine", VStr engine);
                ("resolution", VStr resolution);
                ("creative_detailing", VNum detailing)]
        /\ (0 <= detailing <= 100)%Z
        /\ forall to_string stringify outside prompt outputPath,
             generateImage to_string stringify outside Sessions.mystic_configuration
               prompt outputPath
             = generateWithMystic stringify outside
                 (get_opt Sessions.mystic_configuration "mystic") prompt outputPath).
Proof.
  apply (configured_generation_is_routed Sessions.detailing_zero
           Sessions.mystic_configuration).
  reflexivity.
Defined.
End ImageConfigFacts.


(** *** The books directory *)
Module LibraryFacts.
Import Js BookState Cli Library.

Lemma on_shelf_false_remove name shelf :
  on_shelf name shelf = false -> remove name shelf = shelf.
Proof.
  unfold on_shelf, remove. induction shelf as [|e shelf IH]; cbn; [reflexivity|].
  destruct (entry_name e =? name)%string; cbn; [discriminate|].
  intros H. now rewrite IH.
Qed.

Lemma on_shelf_false_put name d shelf :
  on_shelf name shelf = false -> put name d shelf = shelf.
Proof.
  unfold on_shelf, put. induction shelf as [|e shelf IH]; cbn; [reflexivity|].
  destruct (entry_name e =? name)%string; cbn; [discriminate|].
  intros H. now rewrite IH.
Qed.

Lemma put_app name d l l' : put name d (l ++ l') = put name d l ++ put name d l'.
Proof. apply map_app. Qed.

Lemma names_put name d shelf : map entry_name (put name d shelf) = map entry_name shelf.
Proof.
  unfold put. rewrite map_map. apply map_ext. intros e.
  now destruct (entry_name e =? name)%string.
Qed.

Lemma directories_put name d shelf :
  map is_directory (put name d shelf) = map is_directory shelf.
Proof.
  unfold put. rewrite map_map. apply map_ext. intros e.
  now destruct (entry_name e =? name)%string.
Qed.

Section Books.
Variable BOOK_CONTENT : list Lesson.
Variable trim_text : string -> string.
Variable to_string : value -> string.
Variable stringify : value -> string.
Variable buildChapterPrompt : string -> list string -> value -> string.
Variable buildIntroductionPrompt : value -> string.

(** X27: [createBook] adds one configured book or changes nothing.  When
  it returns [true], the name was free and the books directory is what it
  was plus one directory of that name, holding an empty content.md, no
  image and a book-state.json with the name as its title, the chapters of
  a new book and the three configurations; when it returns [false]
  (the name is taken, or the configuration fails) the books directory is
  exactly what it was. *)
Theorem createBook_adds_or_leaves name now answers shelf :
match createBook BOOK_CONTENT name now answers shelf with
| (true, shelf') =>
    on_shelf name shelf = false
    /\ exists configuration state,
         answers = Some configuration
         /\ shelf' = shelf ++ [{| entry_name := name; is_directory := true;
                                  files := {| book_state_json := Some state;
                                              content_md := "";
                                              image_files := [] |} |}]
         /\ title state = name
         /\ chapters state = initializeChaptersFromLessons BOOK_CONTENT
         /\ chatConfig state = Some (configured_chat configuration)
         /\ imageConfig state = configured_image configuration
         /\ storyVariables state = configured_story configuration
         /\ openAIConfig state = None
| (false, shelf') => shelf' = shelf
end.
Proof.
unfold createBook. destruct (on_shelf name shelf) eqn:E; [reflexivity|].
cbv zeta. destruct answers as [configuration|]; cbn [configureNewBook book_state_json].
- split; [reflexivity|]. exists configuration. eexists. split; [reflexivity|].
  split.
  + rewrite put_app, (on_shelf_false_put name _ shelf E).
    cbn [put map entry_name is_directory]. now rewrite String.eqb_refl.
  + repeat split; reflexivity.
- unfold remove. rewrite filter_app. cbn [filter entry_name].
  rewrite String.eqb_refl. cbn [negb]. rewrite app_nil_r.
  apply (on_shelf_false_remove name shelf E).
Qed.

Lemma createBook_shelf name now answers shelf :
snd (createBook BOOK_CONTENT name now answers shelf) = shelf
\/ exists e, snd (createBook BOOK_CONTENT name now answers shelf) = shelf ++ [e].
Proof.
unfold createBook. destruct (on_shelf name shelf) eqn:E; [now left|].
cbv zeta. destruct answers as [configuration|]; cbn [configureNewBook book_state_json].
- right. cbn [snd]. rewrite put_app, (on_shelf_false_put name _ shelf E).
  eexists. reflexivity.
- left. cbn [snd]. unfold remove. rewrite filter_app. cbn [filter entry_name].
  rewrite String.eqb_refl. cbn [negb]. rewrite app_nil_r.
  apply (on_shelf_false_remove name shelf E).
Qed.

Lemma manage_names name session shelf :
map entry_name
  (snd (manage trim_text to_string stringify buildChapterPrompt
          buildIntroductionPrompt name session shelf))
= map entry_name shelf.
Proof.
unfold manage. destruct (find _ shelf) as [e|]; [|reflexivity].
destruct (manageBook _ _ _ _ _ _) as [r w]. cbn [snd]. apply names_put.
Qed.

Lemma mainMenu_keeps_names answers : forall shelf,
incl (map entry_name shelf)
  (map entry_name
     (snd (mainMenu BOOK_CONTENT trim_text to_string stringify buildChapterPrompt
             buildIntroductionPrompt answers shelf))).
Proof.
induction answers as [|answer answers IH]; intros shelf; [apply incl_refl|].
assert (Hmanage : forall name session shelf0,
           incl (map entry_name shelf) (map entry_name shelf0) ->
           incl (map entry_name shelf)
             (map entry_name
                (snd (match manage trim_text to_string stringify buildChapterPrompt
                              buildIntroductionPrompt name session shelf0 with
                      | (Ret _, shelf1) =>
                          mainMenu BOOK_CONTENT trim_text to_string stringify
                            buildChapterPrompt buildIntroductionPrompt answers
                            shelf1
                      | (Throw message, shelf1) => (Crashed message, shelf1)
                      | (Halt, shelf1) => (Waiting, shelf1)
                      end)))).
{ intros name session shelf0 H0.
  pose proof (manage_names name session shelf0) as Hn.
  destruct (manage _ _ _ _ _ _ _ _) as [[u|message|] shelf1]; cbn [snd] in *.
  - eapply incl_tran; [exact H0|]. rewrite <- Hn. apply IH.
  - now rewrite Hn.
  - now rewrite Hn. }
destruct answer as [bookName now configuration session|pick session
                   |pick confirmDelete|]; cbn [mainMenu].
- destruct (safeBookName bookName =? "")%string; [apply IH|].
  pose proof (createBook_shelf (safeBookName bookName) now configuration shelf) as Hc.
  destruct (createBook _ _ _ _ _) as [created shelf0]. cbn [snd] in Hc.
  assert (H0 : incl (map entry_name shelf) (map entry_name shelf0)).
  { destruct Hc as [->|[e ->]]; [apply incl_refl|].
    rewrite map_app. apply incl_appl, incl_refl. }
  destruct created; [now apply Hmanage|].
  eapply incl_tran; [exact H0|apply IH].
- destruct (listBooks shelf) as [|b books]; [apply IH|].
  destruct (select _ pick) as [selectedBook|]; [|apply incl_refl].
  apply Hmanage, incl_refl.
- destruct (listBooks shelf) as [|b books]; [apply IH|].
  destruct (select _ pick) as [selectedBook|]; [|apply incl_refl].
  cbn. apply IH.
- apply incl_refl.
Qed.

(** X28: The main menu never removes a book.  "Delete a book" deletes
  nothing, whether the deletion is confirmed or not, because the
  confirmation is looked up on the selected name, which is a string: the
  session goes on with the books directory as it was.  And after any
  session at the main menu, every entry of the books directory is still
  there. *)
Theorem mainMenu_never_removes_a_book answers shelf :
(forall pick confirmDelete,
    mainMenu BOOK_CONTENT trim_text to_string stringify buildChapterPrompt
      buildIntroductionPrompt (delete_answer pick confirmDelete :: answers) shelf
    = mainMenu BOOK_CONTENT trim_text to_string stringify buildChapterPrompt
        buildIntroductionPrompt answers shelf)
/\ (forall name,
      In name (map entry_name shelf) ->
      In name
         (map entry_name
            (snd (mainMenu BOOK_CONTENT trim_text to_string stringify
                    buildChapterPrompt buildIntroductionPrompt answers shelf)))).
Proof.
split.
- intros pick confirmDelete. cbn [mainMenu].
  destruct (listBooks shelf) as [|b books] eqn:E; [reflexivity|].
  destruct (WorkflowFacts.select_some (map (fun b => (b, false)) (b :: books)) pick)
    as [selectedBook ->]; [discriminate|].
  reflexivity.
- intros name. apply mainMenu_keeps_names.
Qed.

Definition all_safe (s : string) : bool :=
forallb is_safe (list_ascii_of_string s).

Lemma only_safe_all_safe s : all_safe (only_safe s) = true.
Proof.
unfold all_safe. induction s as [|c s IH]; [reflexivity|].
cbn [only_safe]. destruct (is_safe c) eqn:E; [|exact IH].
cbn. now rewrite E.
Qed.

Lemma safe_is_not_hidden name : name <> "" -> all_safe name = true -> hidden name = false.
Proof.
destruct name as [|c r]; [congruence|]. intros _ H.
unfold all_safe in H. cbn in H. apply andb_true_iff in H as [Hc _].
unfold hidden. cbn [toLowerCase].
assert (Hl : lower c = c).
{ unfold lower, is_upper. unfold is_safe in Hc.
  destruct (65 <=? nat_of_ascii c) eqn:E1; [|reflexivity].
  destruct (nat_of_ascii c <=? 90) eqn:E2; [|reflexivity].
  apply Nat.leb_le in E1, E2. exfalso.
  repeat (apply orb_true_iff in Hc as [Hc|Hc]).
  - apply andb_true_iff in Hc as [H1 _]. apply Nat.leb_le in H1. lia.
  - apply andb_true_iff in Hc as [_ H1]. apply Nat.leb_le in H1. lia.
  - apply Nat.eqb_eq in Hc. lia. }
rewrite Hl.
assert (Hd : c <> "."%char).
{ intros ->. discriminate Hc. }
apply orb_false_iff. split.
- apply String.eqb_neq. intros H. injection H as H _. contradiction.
- destruct c as [[] [] [] [] [] [] [] []]; try reflexivity. now destruct Hd.
Qed.

(** X29: A book that the main menu has created can be opened: the
  directory name made of the name typed consists of lower-case letters,
  digits and hyphens only, so it is not hidden, and [listBooks] lists it
  right after [createBook] has returned [true]. *)
Theorem created_book_is_listed bookName now answers shelf :
safeBookName bookName <> "" ->
fst (createBook BOOK_CONTENT (safeBookName bookName) now answers shelf) = true ->
all_safe (safeBookName bookName) = true
/\ In (safeBookName bookName)
      (listBooks
         (snd (createBook BOOK_CONTENT (safeBookName bookName) now answers shelf))).
Proof.
intros Hne Hcreated.
assert (Hsafe : all_safe (safeBookName bookName) = true) by apply only_safe_all_safe.
split; [exact Hsafe|].
pose proof (safe_is_not_hidden _ Hne Hsafe) as Hh.
revert Hcreated. unfold createBook.
destruct (on_shelf (safeBookName bookName) shelf) eqn:E; [discriminate|].
cbv zeta. destruct answers as [configuration|];
  cbn [configureNewBook book_state_json fst snd]; [|discriminate].
intros _. unfold listBooks. rewrite put_app, filter_app, map_app.
apply in_or_app. right. cbn [put map filter entry_name is_directory].
rewrite String.eqb_refl. cbn [filter map entry_name is_directory]. rewrite Hh.
now left.
Qed.
End Books.

Lemma created_book_is_listed_witness :
  all_safe (safeBookName "  My Book!  ") = true
  /\ In (safeBookName "  My Book!  ")
        (listBooks
           (snd (createBook Samples.lessons (safeBookName "  My Book!  ")
                   "2025-01-01T00:00:00.000Z" (Some Sessions.configuration)
                   Sessions.shelf))).
Proof.
  apply (created_book_is_listed Samples.lessons "  My Book!  "
           "2025-01-01T00:00:00.000Z" (Some Sessions.configuration) Sessions.shelf).
  - vm_compute. discriminate.
  - reflexivity.
Defined.
End LibraryFacts.


(** *** The prompt editor *)
Module PromptEditorFacts.
Import PromptEditor.

Lemma extend_not_empty c l : extend c l <> [].
Proof. destruct l; discriminate. Qed.

Lemma split_blank_not_empty s : split_blank s <> [].
Proof.
  destruct s as [|c [|c' r]]; cbn [split_blank]; try discriminate.
  destruct (is_lf c && is_lf c'); [discriminate|apply extend_not_empty].
Qed.

Lemma split_blank_step c c' r :
  split_blank (String c (String c' r))
  = if is_lf c && is_lf c' then EmptyString :: split_blank r
    else extend c (split_blank (String c' r)).
Proof. reflexivity. Qed.

Lemma join_extend separator c l :
  l <> [] -> join separator (extend c l) = String c (join separator l).
Proof. destruct l as [|first [|second rest]]; [congruence|reflexivity|reflexivity]. Qed.

Lemma join_after_empty separator l :
  l <> [] -> join separator (EmptyString :: l) = (separator ++ join separator l)%string.
Proof. destruct l; [congruence|reflexivity]. Qed.

Lemma is_lf_eq c : is_lf c = true -> c = ascii_of_nat 10.
Proof.
  unfold is_lf. intros H. apply Nat.eqb_eq in H.
  rewrite <- (ascii_nat_embedding c). now rewrite H.
Qed.

(** Splitting at the blank lines and joining with blank lines gives the
    text back. *)
Lemma join_split_blank s : join blank_line (split_blank s) = s.
Proof.
  assert (H : forall n s, String.length s < n -> join blank_line (split_blank s) = s).
  { clear s. induction n as [|n IH]; intros s Hs; [lia|].
    destruct s as [|c [|c' r]]; try reflexivity.
    rewrite split_blank_step. cbn [String.length] in Hs.
    destruct (is_lf c && is_lf c') eqn:E.
    - apply andb_true_iff in E as [E1 E2].
      apply is_lf_eq in E1, E2. subst c c'.
      rewrite join_after_empty by apply split_blank_not_empty.
      rewrite IH by lia. reflexivity.
    - rewrite join_extend by apply split_blank_not_empty.
      rewrite IH by (cbn [String.length]; lia). reflexivity. }
  apply (H (S (String.length s))). lia.
Qed.

Section Editor.
Variable trim : string -> string.

Lemma contents_number_from parts : forall index,
map part_content (number_from trim index parts) = map trim parts.
Proof.
induction parts as [|part rest IH]; intros index; [reflexivity|].
cbn [number_from map part_content]. now rewrite IH.
Qed.

Lemma kept_as_they_are parts :
Forall (fun part => part <> "" /\ trim part = part) parts ->
map trim (nonempty_only parts) = parts.
Proof.
induction 1 as [|part rest [Hne Ht] _ IH]; [reflexivity|].
unfold nonempty_only in *. cbn [filter].
apply String.eqb_neq in Hne. rewrite Hne. cbn [negb map]. now rewrite Ht, IH.
Qed.

(** X30: Leaving the editor without having edited gives the prompt back.
  When every part of the prompt between two blank lines is non-empty and
  has no white space around it, "save" returns the prompt unchanged, as
  "cancel" does, after any number of previews. *)
Theorem editPrompt_without_edits original previews after :
Forall (fun part => part <> "" /\ trim part = part) (split_blank original) ->
editPrompt trim original (repeat preview_prompt previews ++ save_prompt :: after)
= Some original
/\ editPrompt trim original
     (repeat preview_prompt previews ++ cancel_editing :: after)
   = Some original.
Proof.
intros H. unfold editPrompt.
assert (E : combineSections (splitIntoSections trim original) = original).
{ unfold combineSections, splitIntoSections.
  rewrite contents_number_from, (kept_as_they_are _ H). apply join_split_blank. }
generalize dependent (splitIntoSections trim original). intros sections E.
induction previews as [|n IH]; cbn; [now rewrite E|exact IH].
Qed.
End Editor.

Lemma editPrompt_without_edits_witness :
  editPrompt Samples.plain_trim Sessions.two_parts [preview_prompt; save_prompt]
  = Some Sessions.two_parts
  /\ editPrompt Samples.plain_trim Sessions.two_parts [preview_prompt; cancel_editing]
     = Some Sessions.two_parts.
Proof.
  apply (editPrompt_without_edits Samples.plain_trim Sessions.two_parts 1 []).
  vm_compute. repeat constructor; discriminate.
Defined.
End PromptEditorFacts.

